(** * Mission Control dashboard: agent fleet, registry seeds and migration

    A shallow embedding of the Python sources of the repository:

    - [agents/*.py]: sixteen command-line agents, each an [argparse]
      parser followed by a sequence of [print] calls and [return 0];
    - [database/seed_core_agents.py]: the [CORE_AGENTS] catalogue and
      [seed_agents], which upserts it into the [agents] table;
    - [database/seed_agents.py]: [extract_agent_metadata],
      [discover_agents] and [seed_database];
    - [database/migrate_phase4.py]: [run_migration].

    Python [str] values are modelled by [string]; one [ascii] stands for
    one character (code points below 256).  The standard library module
    [argparse] is modelled after CPython 3.11 for the features the agents
    use: optional arguments with the actions [store], [store_true] and
    [help], [type=str] and [type=int], [choices], defaults, [--opt=value],
    unique-prefix abbreviations and clusters of one-letter flags. *)

From Stdlib Require Import ZArith List Bool Ascii String Lia.
From Stdlib Require DecimalString.
From stdpp Require Import base option gmap strings list fin_maps.

Local Open Scope string_scope.
Local Open Scope Z_scope.

(** ** Python strings *)

Module PyStr.

Definition LF : ascii := ascii_of_nat 10.
Definition newline : string := String LF EmptyString.

Definition is_digit (c : ascii) : bool :=
  let n := nat_of_ascii c in (48 <=? n)%nat && (n <=? 57)%nat.

(** [str.isspace] on one character, for code points below 256. *)
Definition is_space (c : ascii) : bool :=
  let n := nat_of_ascii c in
  ((9 <=? n)%nat && (n <=? 13)%nat) || ((28 <=? n)%nat && (n <=? 32)%nat)
  || (n =? 133)%nat || (n =? 160)%nat.

(** [c.lower()]: ASCII letters and the Latin-1 capitals. *)
Definition lower_char (c : ascii) : ascii :=
  let n := nat_of_ascii c in
  if ((65 <=? n)%nat && (n <=? 90)%nat)
     || ((192 <=? n)%nat && (n <=? 222)%nat && negb (n =? 215)%nat)
  then ascii_of_nat (n + 32) else c.

Fixpoint lower (s : string) : string :=
  match s with
  | EmptyString => EmptyString
  | String c t => String (lower_char c) (lower t)
  end.

(** [s.startswith(p)] *)
Fixpoint startswith (s p : string) : bool :=
  match p, s with
  | EmptyString, _ => true
  | String a p', String b s' => Ascii.eqb a b && startswith s' p'
  | String _ _, EmptyString => false
  end.

(** [needle in hay] *)
Fixpoint contains (needle hay : string) : bool :=
  startswith hay needle ||
  match hay with
  | EmptyString => false
  | String _ t => contains needle t
  end.

(** [s[n:]] and [s[:n]] *)
Fixpoint drop (n : nat) (s : string) : string :=
  match n, s with
  | S n', String _ t => drop n' t
  | _, _ => s
  end.

Fixpoint take (n : nat) (s : string) : string :=
  match n, s with
  | S n', String c t => String c (take n' t)
  | _, _ => EmptyString
  end.

(** [s.find(needle)], as the pair (text before, text after the match). *)
Fixpoint partition (needle s : string) : option (string * string) :=
  if startswith s needle
  then Some (EmptyString, drop (String.length needle) s)
  else match s with
       | EmptyString => None
       | String c t =>
           match partition needle t with
           | Some (before, after) => Some (String c before, after)
           | None => None
           end
       end.

Fixpoint lstrip (s : string) : string :=
  match s with
  | String c t => if is_space c then lstrip t else s
  | EmptyString => EmptyString
  end.

Fixpoint rstrip (s : string) : string :=
  match s with
  | EmptyString => EmptyString
  | String c t =>
      match rstrip t with
      | EmptyString => if is_space c then EmptyString else String c EmptyString
      | t' => String c t'
      end
  end.

(** [s.strip()] *)
Definition strip (s : string) : string := rstrip (lstrip s).

(** [s.split('\n')[0]]: the text before the first line feed. *)
Fixpoint first_line (s : string) : string :=
  match s with
  | EmptyString => EmptyString
  | String c t => if Ascii.eqb c LF then EmptyString else String c (first_line t)
  end.

(** [s.replace(a, b)] for one-character [a] and [b]. *)
Fixpoint replace_char (a b : ascii) (s : string) : string :=
  match s with
  | EmptyString => EmptyString
  | String c t => String (if Ascii.eqb c a then b else c) (replace_char a b t)
  end.

Fixpoint all_digits (s : string) : bool :=
  match s with
  | EmptyString => true
  | String c t => is_digit c && all_digits t
  end.

Fixpoint digits_value (acc : Z) (s : string) : Z :=
  match s with
  | EmptyString => acc
  | String c t => digits_value (10 * acc + Z.of_nat (nat_of_ascii c - 48)) t
  end.

(** Digits with single underscores between them, as [int] accepts. *)
Fixpoint int_body (prev_digit : bool) (acc : Z) (s : string) : option Z :=
  match s with
  | EmptyString => if prev_digit then Some acc else None
  | String c t =>
      if is_digit c
      then int_body true (10 * acc + Z.of_nat (nat_of_ascii c - 48)) t
      else if Ascii.eqb c "_" && prev_digit
           then match t with
                | String d _ => if is_digit d then int_body false acc t else None
                | EmptyString => None
                end
           else None
  end.

Fixpoint count_digits (s : string) : nat :=
  match s with
  | EmptyString => O
  | String c t => ((if is_digit c then 1 else 0) + count_digits t)%nat
  end.

(** The white space [int] skips: as [is_space], without the separators
    28 to 31. *)
Definition is_int_space (c : ascii) : bool :=
  let n := nat_of_ascii c in
  ((9 <=? n)%nat && (n <=? 13)%nat) || (n =? 32)%nat
  || (n =? 133)%nat || (n =? 160)%nat.

Fixpoint int_lstrip (s : string) : string :=
  match s with
  | String c t => if is_int_space c then int_lstrip t else s
  | EmptyString => EmptyString
  end.

Fixpoint int_rstrip (s : string) : string :=
  match s with
  | EmptyString => EmptyString
  | String c t =>
      match int_rstrip t with
      | EmptyString => if is_int_space c then EmptyString else String c EmptyString
      | t' => String c t'
      end
  end.

(** [int(s)]: [None] stands for [ValueError].  Surrounding white space is
    dropped, one sign is allowed, and CPython refuses more than 4300
    digits. *)
Definition int (s : string) : option Z :=
  let t := int_rstrip (int_lstrip s) in
  if (4300 <? count_digits t)%nat then None
  else match t with
       | String "-" u => option_map Z.opp (int_body false 0 u)
       | String "+" u => int_body false 0 u
       | u => int_body false 0 u
       end.

(** [str(z)] for an [int]. *)
Definition str_of_int (z : Z) : string :=
  DecimalString.NilZero.string_of_int (Z.to_int z).

(** [s.replace(old, new)] for a non-empty [old]: [skip] counts the
    characters of a match still to pass over. *)
Fixpoint replace_from (skip : nat) (old new s : string) : string :=
  match s with
  | EmptyString => EmptyString
  | String c t =>
      match skip with
      | S k => replace_from k old new t
      | O =>
          if startswith s old
          then new ++ replace_from (String.length old - 1) old new t
          else String c (replace_from O old new t)
      end
  end.

Definition replace (old new s : string) : string := replace_from O old new s.

(** [','.join(l)] and friends. *)
Fixpoint join (sep : string) (l : list string) : string :=
  match l with
  | [] => EmptyString
  | [x] => x
  | x :: t => x ++ sep ++ join sep t
  end.

(** [s.rfind(c)] for one character, [-1] when absent. *)
Fixpoint rfind_from (i : Z) (c : ascii) (s : string) : Z :=
  match s with
  | EmptyString => -1
  | String d t =>
      let r := rfind_from (i + 1) c t in
      if 0 <=? r then r else if Ascii.eqb c d then i else -1
  end.

Definition rfind (c : ascii) (s : string) : Z := rfind_from 0 c s.

Fixpoint all_dots (s : string) : bool :=
  match s with
  | EmptyString => true
  | String c t => Ascii.eqb c "." && all_dots t
  end.

(** [os.path.splitext(p)] of [posixpath]: the extension starts at the last
    dot of the last path component, unless only dots precede it there. *)
Definition splitext (p : string) : string * string :=
  let sepIndex := rfind "/" p in
  let dotIndex := rfind "." p in
  if (sepIndex <? dotIndex)
     && negb (all_dots (take (Z.to_nat (dotIndex - (sepIndex + 1)))
                             (drop (Z.to_nat (sepIndex + 1)) p)))
  then (take (Z.to_nat dotIndex) p, drop (Z.to_nat dotIndex) p)
  else (p, EmptyString).

End PyStr.

(** ** The [argparse] module *)

Module Argparse.

(** Values an attribute of the parsed [Namespace] can hold. *)
Inductive Value : Type :=
| VNone
| VStr (s : string)
| VInt (z : Z)
| VBool (b : bool).

(** The [type=] keyword. *)
Inductive ArgType : Type := TStr | TInt.

(** The [action=] keyword: [store] carries [type] and [choices]. *)
Inductive Action : Type :=
| Store (ty : ArgType) (choices : option (list string))
| StoreTrue
| Help.

Record Argument : Type := mkArgument {
  option_strings : list string;
  dest : string;
  action : Action;
  default : Value
}.

(** [ArgumentParser._actions], in the order of the [add_argument] calls. *)
Definition Parser : Type := list Argument.

(** The messages of [ArgumentParser.error]; all of them end the process
    with status 2. *)
Inductive ArgError : Type :=
| AmbiguousOption (arg_string : string) (matches : list string)
| ExpectedOneArgument (option_string : string)
| IgnoredExplicitArgument (option_string explicit_arg : string)
| InvalidChoice (option_string value : string)
| InvalidIntValue (option_string value : string)
| UnrecognizedArguments (extras : list string).

(** The three ways [parse_args] ends. *)
Inductive Outcome : Type :=
| Parsed (ns : gmap string Value)
| HelpExit
| UsageError (e : ArgError).

(** The [dest] that [add_argument] derives: the first long option string,
    or else the first option string, without its dashes and with [-]
    turned into [_]. *)
Fixpoint strip_dashes (s : string) : string :=
  match s with
  | String "-" t => strip_dashes t
  | _ => s
  end.

Definition is_long (s : string) : bool := PyStr.startswith s "--".

Definition dest_of (option_strings : list string) : string :=
  let chosen :=
    match List.find is_long option_strings with
    | Some l => l
    | None => List.hd EmptyString option_strings
    end in
  PyStr.replace_char "-" "_" (strip_dashes chosen).

(** [parser.add_argument(option_strings..., action='store', type=ty,
    choices=choices, default=default)] *)
Definition add_store (option_strings : list string) (ty : ArgType)
    (choices : option (list string)) (default : Value) : Argument :=
  mkArgument option_strings (dest_of option_strings) (Store ty choices) default.

(** [parser.add_argument(option_strings..., action='store_true')] *)
Definition add_store_true (option_strings : list string) : Argument :=
  mkArgument option_strings (dest_of option_strings) StoreTrue (VBool false).

(** The [-h/--help] action every [ArgumentParser] starts with; its
    default is [SUPPRESS], so it sets no attribute. *)
Definition help_argument : Argument :=
  mkArgument ["-h"; "--help"] "help" Help VNone.

(** [ArgumentParser(...)] followed by the given [add_argument] calls. *)
Definition ArgumentParser (arguments : list Argument) : Parser :=
  help_argument :: arguments.

(** [parser._option_string_actions], in insertion order. *)
Definition option_string_actions (p : Parser) : list (string * Argument) :=
  flat_map (fun a => List.map (fun o => (o, a)) (option_strings a)) p.

Fixpoint lookup_option (o : string) (m : list (string * Argument)) : option Argument :=
  match m with
  | [] => None
  | (o', a) :: m' => if String.eqb o o' then Some a else lookup_option o m'
  end.

(** The attributes [parse_known_args] sets before parsing: every action's
    default, except the suppressed one of [help]. *)
Definition initial_namespace (p : Parser) : gmap string Value :=
  fold_left (fun ns a =>
               match action a with
               | Help => ns
               | _ => match ns !! dest a with
                      | Some _ => ns
                      | None => <[dest a := default a]> ns
                      end
               end) p ∅.

(** [nargs]: [store] takes one argument string, the other actions none. *)
Definition takes_argument (a : Argument) : bool :=
  match action a with
  | Store _ _ => true
  | _ => false
  end.

(** [_negative_number_matcher]: [^-\d+$|^-\d*\.\d+$]; [$] also matches
    before a final line feed. *)
Fixpoint digits_dot_digits (seen_dot seen_digit_after : bool) (s : string) : bool :=
  match s with
  | EmptyString => seen_digit_after
  | String c t =>
      if PyStr.is_digit c then digits_dot_digits seen_dot true t
      else if Ascii.eqb c "." && negb seen_dot then digits_dot_digits true false t
      else if Ascii.eqb c PyStr.LF
           then match t with EmptyString => seen_digit_after | _ => false end
           else false
  end.

Definition negative_number (s : string) : bool :=
  match s with
  | String "-" t => digits_dot_digits false false t
  | _ => false
  end.

Definition has_negative_number_optionals (p : Parser) : bool :=
  existsb (fun oa => negative_number (fst oa)) (option_string_actions p).

(** [arg_string.split('=', 1)] when [=] occurs in it. *)
Definition split_equals (s : string) : option (string * string) :=
  PyStr.partition "=" s.

(** An option tuple: the action (or none for an unknown option), the
    option string and the explicit argument. *)
Definition OptionTuple : Type := (option Argument * string * option string)%type.

(** [_get_option_tuples]: the abbreviations an argument string can stand
    for.  It is called on strings of at least two characters that start
    with a dash. *)
Definition get_option_tuples (p : Parser) (option_string : string) : list OptionTuple :=
  match option_string with
  | String _ (String "-" _) =>
      let '(option_prefix, explicit_arg) :=
        match split_equals option_string with
        | Some (pre, post) => (pre, Some post)
        | None => (option_string, None)
        end in
      flat_map (fun oa : string * Argument =>
                  if PyStr.startswith (fst oa) option_prefix
                  then [(Some (snd oa), fst oa, explicit_arg)] else [])
               (option_string_actions p)
  | String c0 (String c1 rest) =>
      let short_option_prefix := String c0 (String c1 EmptyString) in
      flat_map (fun oa : string * Argument =>
                  if String.eqb (fst oa) short_option_prefix
                  then [(Some (snd oa), fst oa, Some rest)]
                  else if PyStr.startswith (fst oa) option_string
                       then [(Some (snd oa), fst oa, None)] else [])
               (option_string_actions p)
  | _ => []
  end.

(** [_parse_optional]: [inr None] is a positional argument string. *)
Definition parse_optional (p : Parser) (arg_string : string)
  : ArgError + option OptionTuple :=
  match arg_string with
  | EmptyString => inr None
  | String c rest =>
      if negb (Ascii.eqb c "-") then inr None else
      match lookup_option arg_string (option_string_actions p) with
      | Some a => inr (Some (Some a, arg_string, None))
      | None =>
          match rest with
          | EmptyString => inr None
          | _ =>
              let by_equals :=
                match split_equals arg_string with
                | Some (option_string, explicit_arg) =>
                    match lookup_option option_string (option_string_actions p) with
                    | Some a => Some (Some a, option_string, Some explicit_arg)
                    | None => None
                    end
                | None => None
                end in
              match by_equals with
              | Some t => inr (Some t)
              | None =>
                  match get_option_tuples p arg_string with
                  | [t] => inr (Some t)
                  | (_ :: _ :: _) as ts =>
                      inl (AmbiguousOption arg_string (List.map (fun t => snd (fst t)) ts))
                  | [] =>
                      if negative_number arg_string
                         && negb (has_negative_number_optionals p)
                      then inr None
                      else if PyStr.contains " " arg_string then inr None
                      else inr (Some (None, arg_string, None))
                  end
              end
          end
      end
  end.

(** One argument string with the letter of [arg_strings_pattern]:
    [A] for an argument, [-] for [--], [O] for an option. *)
Inductive Pattern : Type :=
| PArg
| PDashes
| POpt (t : OptionTuple).

Definition Token : Type := (string * Pattern)%type.

(** The first loop of [_parse_known_args]: everything after [--] is an
    argument; an ambiguous abbreviation ends parsing at once. *)
Fixpoint classify (p : Parser) (arg_strings : list string) : ArgError + list Token :=
  match arg_strings with
  | [] => inr []
  | s :: rest =>
      if String.eqb s "--"
      then inr ((s, PDashes) :: List.map (fun r => (r, PArg)) rest)
      else match parse_optional p s with
           | inl e => inl e
           | inr o =>
               match classify p rest with
               | inl e => inl e
               | inr toks =>
                   inr ((s, match o with Some t => POpt t | None => PArg end) :: toks)
               end
           end
  end.

(** [_get_value] followed by [_check_value]. *)
Definition get_value (a : Argument) (option_string arg_string : string)
  : ArgError + Value :=
  match action a with
  | Store TStr choices =>
      match choices with
      | Some cs =>
          if existsb (String.eqb arg_string) cs then inr (VStr arg_string)
          else inl (InvalidChoice option_string arg_string)
      | None => inr (VStr arg_string)
      end
  | Store TInt choices =>
      match PyStr.int arg_string with
      | None => inl (InvalidIntValue option_string arg_string)
      | Some z =>
          match choices with
          | Some _ => inl (InvalidChoice option_string arg_string)
          | None => inr (VInt z)
          end
      end
  | _ => inr VNone
  end.

(** What taking one action does: go on with a namespace, or end. *)
Inductive Step : Type :=
| Continue (ns : gmap string Value)
| Stop (o : Outcome).

(** [take_action]: the action is called with its converted values. *)
Definition take_action (ns : gmap string Value)
    (t : Argument * list string * string) : Step :=
  let '(a, args, option_string) := t in
  match action a with
  | Help => Stop HelpExit
  | StoreTrue => Continue (<[dest a := VBool true]> ns)
  | Store _ _ =>
      match args with
      | [arg_string] =>
          match get_value a option_string arg_string with
          | inl e => Stop (UsageError e)
          | inr v => Continue (<[dest a := v]> ns)
          end
      | _ => Stop (UsageError (ExpectedOneArgument option_string))
      end
  end.

Fixpoint take_actions (ns : gmap string Value)
    (ts : list (Argument * list string * string)) : Step :=
  match ts with
  | [] => Continue ns
  | t :: ts' =>
      match take_action ns t with
      | Continue ns' => take_actions ns' ts'
      | Stop o => Stop o
      end
  end.

(** The loop of [consume_optional] while there is an explicit argument:
    a one-letter flag that takes no argument hands the rest of the string
    to the next one-letter flag.  The result is the flags met on the way
    and the last option with what is left of the explicit argument. *)
Fixpoint cluster (p : Parser) (a : Argument) (option_string explicit_arg : string)
  : ArgError + (list (Argument * list string * string)
                * (Argument * string * option string)) :=
  if takes_argument a
  then inr ([], (a, option_string, Some explicit_arg))
  else
    match option_string, explicit_arg with
    | String c0 (String c1 _), String e0 e_rest =>
        if Ascii.eqb c1 "-"
        then inl (IgnoredExplicitArgument option_string explicit_arg)
        else
          let option_string' := String c0 (String e0 EmptyString) in
          match lookup_option option_string' (option_string_actions p) with
          | None => inl (IgnoredExplicitArgument option_string explicit_arg)
          | Some a' =>
              match e_rest with
              | EmptyString =>
                  inr ([(a, [], option_string)], (a', option_string', None))
              | _ =>
                  match cluster p a' option_string' e_rest with
                  | inl e => inl e
                  | inr (pre, last) => inr ((a, [], option_string) :: pre, last)
                  end
              end
          end
    | _, _ => inl (IgnoredExplicitArgument option_string explicit_arg)
    end.

(** The end of [_parse_known_args] and of [parse_args]: no action is
    required and no default needs converting, so only left-over argument
    strings matter. *)
Definition finish (ns : gmap string Value) (extras : list string) : Outcome :=
  match extras with
  | [] => Parsed ns
  | _ => UsageError (UnrecognizedArguments extras)
  end.

(** The first part of [consume_optional]: the actions of the argument
    string that take no argument from it, and the last action with the
    explicit argument it received, if any. *)
Definition option_plan (p : Parser) (a : Argument) (option_string : string)
    (explicit_arg : option string)
  : ArgError + (list (Argument * list string * string)
                * (Argument * string * option string)) :=
  match explicit_arg with
  | None => inr ([], (a, option_string, None))
  | Some e => cluster p a option_string e
  end.

(** The main loop of [_parse_known_args].  No positional argument is
    declared, so every argument string that no option consumes joins
    [extras]; so does an unknown option.  An option that takes an
    argument and has no explicit one needs the next string to be an
    argument; the actions of one argument string are taken together. *)
Fixpoint consume (p : Parser) (toks : list Token) (ns : gmap string Value)
    (extras : list string) : Outcome :=
  match toks with
  | [] => finish ns extras
  | (s, PArg) :: rest | (s, PDashes) :: rest
  | (s, POpt (None, _, _)) :: rest => consume p rest ns (extras ++ [s])
  | (s, POpt (Some a, option_string, explicit_arg)) :: rest =>
      match option_plan p a option_string explicit_arg with
      | inl e => UsageError e
      | inr (pre, (a', option_string', Some e)) =>
          match take_actions ns (pre ++ [(a', [e], option_string')]) with
          | Continue ns' => consume p rest ns' extras
          | Stop o => o
          end
      | inr (pre, (a', option_string', None)) =>
          if takes_argument a'
          then match rest with
               | (v, PArg) :: rest' =>
                   match take_actions ns (pre ++ [(a', [v], option_string')]) with
                   | Continue ns' => consume p rest' ns' extras
                   | Stop o => o
                   end
               | _ => UsageError (ExpectedOneArgument option_string')
               end
          else match take_actions ns (pre ++ [(a', [], option_string')]) with
               | Continue ns' => consume p rest ns' extras
               | Stop o => o
               end
      end
  end.

(** [parser.parse_args(arg_strings)] *)
Definition parse_args (p : Parser) (arg_strings : list string) : Outcome :=
  match classify p arg_strings with
  | inl e => UsageError e
  | inr toks => consume p toks (initial_namespace p) []
  end.

(** [args.dest]; every [dest] is set by [initial_namespace], so the
    [AttributeError] of a missing attribute cannot happen and is read as
    [None]. *)
Definition getattr (ns : gmap string Value) (name : string) : Value :=
  match ns !! name with
  | Some v => v
  | None => VNone
  end.

(** Truth value of an attribute, as [if args.x:] tests it. *)
Definition truthy (v : Value) : bool :=
  match v with
  | VNone => false
  | VStr s => negb (String.eqb s EmptyString)
  | VInt z => negb (z =? 0)
  | VBool b => b
  end.

(** [v == w] on attribute values. *)
Definition value_eqb (v w : Value) : bool :=
  match v, w with
  | VNone, VNone => true
  | VStr a, VStr b => String.eqb a b
  | VInt a, VInt b => (a =? b)
  | VBool a, VBool b => Bool.eqb a b
  | _, _ => false
  end.

(** The text of a [str] attribute.  The agents apply string operations
    to an attribute only under a test that it is a non-empty [str]. *)
Definition as_str (v : Value) : string :=
  match v with
  | VStr s => s
  | _ => EmptyString
  end.

(** [str(v)], as an f-string formats an attribute. *)
Definition str (v : Value) : string :=
  match v with
  | VNone => "None"
  | VStr s => s
  | VInt z => PyStr.str_of_int z
  | VBool true => "True"
  | VBool false => "False"
  end.

End Argparse.

(** ** The agent scripts *)

Module Agents.

Import Argparse.
Local Open Scope list_scope.

Definition nl : string := PyStr.newline.

(** [agents/architect_planner.py] *)
Module architect_planner.

Definition parser : Parser :=
  ArgumentParser
    [ add_store ["--model"] TStr
        (Some ["gpt-4o-mini"; "gpt-5-mini"; "gpt-5.2"])
        (VStr "gpt-5.2");
      add_store_true ["--dry-run"];
      add_store_true ["-v"; "--verbose"];
      add_store ["--project-name"] TStr None VNone;
      add_store ["--requirements"] TStr None VNone ].

(** The statements of [main] after [args = parser.parse_args()], one
    string for each [print] call. *)
Definition body (args : gmap string Value) : list string :=
  (if truthy (getattr args "verbose")
    then [ "[Architect Planner] Starting with model: " +:+ str (getattr args "model") ]
        ++ (if truthy (getattr args "project_name")
          then [ "[Architect Planner] Project: " +:+ str (getattr args "project_name") ]
          else [])
    else [])
  ++ [ "⚠️  Placeholder agent - implementation pending";
    "This agent will be refined by the CEO Agent when first used.";
    nl +:+ "Capabilities:";
    "  - System architecture design";
    "  - Database schema planning";
    "  - API design (REST/GraphQL)";
    "  - README creation" ].

End architect_planner.

(** [agents/code_executioner.py] *)
Module code_executioner.

Definition parser : Parser :=
  ArgumentParser
    [ add_store ["--model"] TStr
        (Some ["gpt-4o-mini"; "gpt-5-mini"; "gpt-5.2"])
        (VStr "gpt-5-mini");
      add_store_true ["--include-tests"];
      add_store_true ["--dry-run"];
      add_store_true ["-v"; "--verbose"];
      add_store ["--language"] TStr
        (Some ["python"; "javascript"; "typescript"])
        (VStr "python") ].

(** The statements of [main] after [args = parser.parse_args()], one
    string for each [print] call. *)
Definition body (args : gmap string Value) : list string :=
  (if truthy (getattr args "verbose")
    then [ "[Code Executioner] Starting with model: " +:+ str (getattr args "model");
          "[Code Executioner] Language: " +:+ str (getattr args "language") ]
        ++ (if truthy (getattr args "include_tests")
          then [ "[Code Executioner] Will include tests" ]
          else [])
    else [])
  ++ [ "⚠️  Placeholder agent - implementation pending";
    "This agent will be refined by the CEO Agent when first used.";
    nl +:+ "Capabilities:";
    "  - Code generation (Python, JS, TS)";
    "  - Bug fixing and debugging";
    "  - Test writing";
    "  - Code refactoring" ].

End code_executioner.

(** [agents/database_architect.py] *)
Module database_architect.

Definition parser : Parser :=
  ArgumentParser
    [ add_store ["--model"] TStr
        (Some ["gpt-4o-mini"; "gpt-5-mini"; "gpt-5.2"])
        (VStr "gpt-5-mini");
      add_store ["--action"] TStr
        (Some ["schema"; "migration"; "optimize"])
        VNone;
      add_store_true ["--dry-run"];
      add_store_true ["-v"; "--verbose"] ].

(** The statements of [main] after [args = parser.parse_args()], one
    string for each [print] call. *)
Definition body (args : gmap string Value) : list string :=
  (if truthy (getattr args "verbose")
    then [ "[Database Architect] Starting with model: " +:+ str (getattr args "model") ]
        ++ (if truthy (getattr args "action")
          then [ "[Database Architect] Action: " +:+ str (getattr args "action") ]
          else [])
    else [])
  ++ [ "⚠️  Placeholder agent - implementation pending";
    "This agent will be refined by the CEO Agent when first used.";
    nl +:+ "Capabilities:";
    "  - PostgreSQL schema design";
    "  - Supabase integration";
    "  - Migration creation";
    "  - Query optimization" ].

End database_architect.

(** [agents/deployment_engineer.py] *)
Module deployment_engineer.

Definition parser : Parser :=
  ArgumentParser
    [ add_store ["--model"] TStr
        (Some ["gpt-4o-mini"; "gpt-5-mini"; "gpt-5.2"])
        (VStr "gpt-4o-mini");
      add_store ["--platform"] TStr
        (Some ["vercel"; "github-actions"; "env-config"])
        VNone;
      add_store_true ["--dry-run"];
      add_store_true ["-v"; "--verbose"] ].

(** The statements of [main] after [args = parser.parse_args()], one
    string for each [print] call. *)
Definition body (args : gmap string Value) : list string :=
  (if truthy (getattr args "verbose")
    then [ "[Deployment Engineer] Starting with model: " +:+ str (getattr args "model") ]
        ++ (if truthy (getattr args "platform")
          then [ "[Deployment Engineer] Platform: " +:+ str (getattr args "platform") ]
          else [])
    else [])
  ++ [ "⚠️  Placeholder agent - implementation pending";
    "This agent will be refined by the CEO Agent when first used.";
    nl +:+ "Capabilities:";
    "  - Vercel deployment";
    "  - GitHub Actions workflows";
    "  - Environment config";
    "  - CI/CD pipeline setup" ].

End deployment_engineer.

(** [agents/google_api_specialist.py] *)
Module google_api_specialist.

Definition parser : Parser :=
  ArgumentParser
    [ add_store ["--model"] TStr
        (Some ["gpt-4o-mini"; "gpt-5-mini"; "gpt-5.2"])
        (VStr "gpt-4o-mini");
      add_store ["--service"] TStr
        (Some ["drive"; "sheets"; "calendar"; "oauth"])
        VNone;
      add_store_true ["--dry-run"];
      add_store_true ["-v"; "--verbose"] ].

(** The statements of [main] after [args = parser.parse_args()], one
    string for each [print] call. *)
Definition body (args : gmap string Value) : list string :=
  (if truthy (getattr args "verbose")
    then [ "[Google API Specialist] Starting with model: " +:+ str (getattr args "model") ]
        ++ (if truthy (getattr args "service")
          then [ "[Google API Specialist] Service: " +:+ str (getattr args "service") ]
          else [])
    else [])
  ++ [ "⚠️  Placeholder agent - implementation pending";
    "This agent will be refined by the CEO Agent when first used.";
    nl +:+ "Capabilities:";
    "  - Google Drive integration";
    "  - Google Sheets integration";
    "  - Google Calendar integration";
    "  - OAuth 2.0 setup" ].

End google_api_specialist.

(** [agents/groundtruth_api_specialist.py] *)
Module groundtruth_api_specialist.

Definition parser : Parser :=
  ArgumentParser
    [ add_store ["--model"] TStr
        (Some ["gpt-4o-mini"; "gpt-5-mini"; "gpt-5.2"])
        (VStr "gpt-4o-mini");
      add_store ["--action"] TStr
        (Some ["sync"; "report"; "validate"])
        VNone;
      add_store_true ["--dry-run"];
      add_store_true ["-v"; "--verbose"] ].

(** The statements of [main] after [args = parser.parse_args()], one
    string for each [print] call. *)
Definition body (args : gmap string Value) : list string :=
  (if truthy (getattr args "verbose")
    then [ "[Ground Truth API Specialist] Starting with model: " +:+ str (getattr args "model") ]
        ++ (if truthy (getattr args "action")
          then [ "[Ground Truth API Specialist] Action: " +:+ str (getattr args "action") ]
          else [])
    else [])
  ++ [ "⚠️  Placeholder agent - implementation pending";
    "This agent will be refined by the CEO Agent when first used.";
    nl +:+ "Capabilities:";
    "  - Student data sync";
    "  - Academic reporting";
    "  - FERPA compliance validation";
    "  - Educational data integration" ].

End groundtruth_api_specialist.

(** [agents/hubspot_api_specialist.py] *)
Module hubspot_api_specialist.

Definition parser : Parser :=
  ArgumentParser
    [ add_store ["--model"] TStr
        (Some ["gpt-4o-mini"; "gpt-5-mini"; "gpt-5.2"])
        (VStr "gpt-4o-mini");
      add_store ["--api-type"] TStr
        (Some ["crm"; "marketing"; "content"; "analytics"])
        VNone;
      add_store ["--auth-method"] TStr
        (Some ["private-app"; "oauth"; "api-key"])
        (VStr "private-app");
      add_store ["--action"] TStr
        (Some ["sync"; "extract"; "create-campaign"; "manage-workflow";
               "report"])
        VNone;
      add_store ["--entity"] TStr
        (Some ["contacts"; "companies"; "deals"; "emails"; "forms"])
        VNone;
      add_store ["--url"] TStr None VNone;
      add_store ["--template"] TStr None VNone;
      add_store_true ["--dry-run"];
      add_store_true ["-v"; "--verbose"] ].

(** The statements of [main] after [args = parser.parse_args()], one
    string for each [print] call. *)
Definition body (args : gmap string Value) : list string :=
  (if truthy (getattr args "verbose")
    then [ "[HubSpot API Specialist] Starting with model: " +:+ str (getattr args "model") ]
        ++ (if truthy (getattr args "api_type")
          then [ "[HubSpot API Specialist] API Type: " +:+ str (getattr args "api_type") ]
          else [])
        ++ (if truthy (getattr args "action")
          then [ "[HubSpot API Specialist] Action: " +:+ str (getattr args "action") ]
          else [])
        ++ (if truthy (getattr args "auth_method")
          then [ "[HubSpot API Specialist] Auth: " +:+ str (getattr args "auth_method") ]
          else [])
    else [])
  ++ [ "⚠️  Placeholder agent - implementation pending";
    "This agent will be refined by the CEO Agent when first used.";
    nl +:+ "Capabilities:";
    "  🔹 CRM:";
    "    - Contact/company management";
    "    - Deal pipeline automation";
    "  🔹 Marketing:";
    "    - Email campaigns";
    "    - Landing pages";
    "    - Blog posts";
    "    - Forms";
    "    - Workflow automation";
    "  🔹 Content:";
    "    - HubSpot PDF extraction";
    "    - Web page content extraction";
    "    - Content enrichment";
    "  🔹 Analytics:";
    "    - Reporting and insights" ]
  ++ (if truthy (getattr args "url") && PyStr.contains "hubspot" (as_str (getattr args "url"))
    then [ nl +:+ "📄 Would extract content from: " +:+ str (getattr args "url") ]
        ++ (if PyStr.contains ".pdf" (PyStr.lower (as_str (getattr args "url")))
          then [ "   Type: HubSpot PDF (used in marketing portal enrichment)" ]
          else [])
    else []).

End hubspot_api_specialist.

(** [agents/meta_api_specialist.py] *)
Module meta_api_specialist.

Definition parser : Parser :=
  ArgumentParser
    [ add_store ["--model"] TStr
        (Some ["gpt-4o-mini"; "gpt-5-mini"; "gpt-5.2"])
        (VStr "gpt-4o-mini");
      add_store ["--platform"] TStr
        (Some ["facebook"; "instagram"; "both"])
        VNone;
      add_store_true ["--dry-run"];
      add_store_true ["-v"; "--verbose"] ].

(** The statements of [main] after [args = parser.parse_args()], one
    string for each [print] call. *)
Definition body (args : gmap string Value) : list string :=
  (if truthy (getattr args "verbose")
    then [ "[Meta API Specialist] Starting with model: " +:+ str (getattr args "model") ]
        ++ (if truthy (getattr args "platform")
          then [ "[Meta API Specialist] Platform: " +:+ str (getattr args "platform") ]
          else [])
    else [])
  ++ [ "⚠️  Placeholder agent - implementation pending";
    "This agent will be refined by the CEO Agent when first used.";
    nl +:+ "Capabilities:";
    "  - Facebook Ads management";
    "  - Instagram integration";
    "  - Audience targeting";
    "  - Ad analytics" ].

End meta_api_specialist.

(** [agents/pdf_ocr_parser.py] *)
Module pdf_ocr_parser.

Definition parser : Parser :=
  ArgumentParser
    [ add_store ["--input"] TStr None VNone;
      add_store ["--input-dir"] TStr None VNone;
      add_store ["--url"] TStr None VNone;
      add_store ["--ocr-engine"] TStr
        (Some ["tesseract"; "vision"; "hybrid"])
        (VStr "tesseract");
      add_store ["--language"] TStr None (VStr "eng");
      add_store ["--dpi"] TInt None (VInt 300);
      add_store_true ["--extract-tables"];
      add_store_true ["--extract-forms"];
      add_store_true ["--extract-images"];
      add_store_true ["--extract-metadata"];
      add_store_true ["--ai-reasoning"];
      add_store_true ["--extract-entities"];
      add_store_true ["--classify"];
      add_store_true ["--summarize"];
      add_store ["--model"] TStr
        (Some ["gpt-4o-mini"; "gpt-5-mini"; "gpt-5.2"])
        (VStr "gpt-5-mini");
      add_store ["--output"] TStr None VNone;
      add_store ["--output-dir"] TStr None VNone;
      add_store ["--output-format"] TStr
        (Some ["json"; "markdown"; "csv"; "text"])
        (VStr "json");
      add_store_true ["--dry-run"];
      add_store_true ["-v"; "--verbose"];
      add_store ["--quality"] TStr
        (Some ["fast"; "standard"; "high"])
        (VStr "standard") ].

(** The statements of [main] after [args = parser.parse_args()], one
    string for each [print] call. *)
Definition body (args : gmap string Value) : list string :=
  (if truthy (getattr args "verbose")
    then [ "[PDF/OCR Parser] Starting with model: " +:+ str (getattr args "model");
          "[PDF/OCR Parser] OCR Engine: " +:+ str (getattr args "ocr_engine");
          "[PDF/OCR Parser] Output Format: " +:+ str (getattr args "output_format") ]
        ++ (if truthy (getattr args "input")
          then [ "[PDF/OCR Parser] Input: " +:+ str (getattr args "input") ]
          else [])
        ++ (if truthy (getattr args "ai_reasoning")
          then [ "[PDF/OCR Parser] AI Reasoning: ENABLED" ]
          else [])
        ++ (if truthy (getattr args "extract_tables")
          then [ "[PDF/OCR Parser] Table Extraction: ENABLED" ]
          else [])
    else [])
  ++ [ "⚠️  Placeholder agent - implementation pending";
    "This agent will be refined by the CEO Agent when first used.";
    nl +:+ "🔍 Capabilities:";
    nl +:+ "  📄 PDF Processing:";
    "    - Native text extraction (searchable PDFs)";
    "    - Scanned document OCR";
    "    - Multi-page processing";
    "    - Page-by-page analysis";
    nl +:+ "  🖼️  Image Processing:";
    "    - OCR on JPG, PNG, TIFF, BMP";
    "    - Handwritten text recognition";
    "    - Complex layout handling";
    "    - Multi-page TIFF support";
    nl +:+ "  📊 Structured Data:";
    "    - Table extraction and CSV export";
    "    - Form field detection";
    "    - Checkbox and radio button detection";
    "    - Signature detection";
    nl +:+ "  🤖 AI Reasoning:";
    "    - Content understanding and analysis";
    "    - Entity extraction (NER)";
    "    - Document classification";
    "    - Content summarization";
    "    - Key information extraction";
    "    - Sentiment analysis";
    nl +:+ "  🌍 Advanced Features:";
    "    - 100+ language support";
    "    - Batch processing";
    "    - Quality optimization";
    "    - Error recovery";
    "    - Progress tracking" ]
  ++ (if truthy (getattr args "input")
    then (let ext := PyStr.lower (snd (PyStr.splitext (as_str (getattr args "input")))) in
          (if String.eqb ext ".pdf"
            then [ nl +:+ "📄 Would process PDF: " +:+ str (getattr args "input") ]
                ++ (if value_eqb (getattr args "ocr_engine") (VStr "vision")
                  then [ "   Using OpenAI Vision API for best quality" ]
                  else [])
            else (if existsb (String.eqb ext) [".jpg"; ".jpeg"; ".png"; ".tiff"; ".bmp"]
               then [ nl +:+ "🖼️  Would process image: " +:+ str (getattr args "input");
                     "   OCR Language: " +:+ str (getattr args "language") ]
               else ([ nl +:+ "⚠️  Unknown file type: " +:+ ext ]))))
    else [])
  ++ (if truthy (getattr args "ai_reasoning")
    then [ nl +:+ "🧠 AI Analysis would include:";
          "   - Document type classification";
          "   - Key entity extraction";
          "   - Content structuring" ]
        ++ (if truthy (getattr args "summarize")
          then [ "   - Executive summary generation" ]
          else [])
    else [])
  ++ (if truthy (getattr args "extract_tables")
    then [ nl +:+ "📊 Table extraction would:";
          "   - Detect table boundaries";
          "   - Extract rows and columns";
          "   - Export to CSV/JSON" ]
    else []).

End pdf_ocr_parser.

(** [agents/performance_optimizer.py] *)
Module performance_optimizer.

Definition parser : Parser :=
  ArgumentParser
    [ add_store ["--model"] TStr
        (Some ["gpt-4o-mini"; "gpt-5-mini"; "gpt-5.2"])
        (VStr "gpt-5-mini");
      add_store ["--target"] TStr
        (Some ["frontend"; "backend"; "database"; "all"])
        VNone;
      add_store_true ["--dry-run"];
      add_store_true ["-v"; "--verbose"] ].

(** The statements of [main] after [args = parser.parse_args()], one
    string for each [print] call. *)
Definition body (args : gmap string Value) : list string :=
  (if truthy (getattr args "verbose")
    then [ "[Performance Optimizer] Starting with model: " +:+ str (getattr args "model") ]
        ++ (if truthy (getattr args "target")
          then [ "[Performance Optimizer] Target: " +:+ str (getattr args "target") ]
          else [])
    else [])
  ++ [ "⚠️  Placeholder agent - implementation pending";
    "This agent will be refined by the CEO Agent when first used.";
    nl +:+ "Capabilities:";
    "  - Frontend optimization";
    "  - Backend optimization";
    "  - Query optimization";
    "  - Lighthouse improvements" ].

End performance_optimizer.

(** [agents/qa_tester.py] *)
Module qa_tester.

Definition parser : Parser :=
  ArgumentParser
    [ add_store ["--model"] TStr
        (Some ["gpt-4o-mini"; "gpt-5-mini"; "gpt-5.2"])
        (VStr "gpt-4o-mini");
      add_store ["--test-type"] TStr
        (Some ["unit"; "integration"; "e2e"])
        VNone;
      add_store_true ["--dry-run"];
      add_store_true ["-v"; "--verbose"] ].

(** The statements of [main] after [args = parser.parse_args()], one
    string for each [print] call. *)
Definition body (args : gmap string Value) : list string :=
  (if truthy (getattr args "verbose")
    then [ "[QA Tester] Starting with model: " +:+ str (getattr args "model") ]
        ++ (if truthy (getattr args "test_type")
          then [ "[QA Tester] Test type: " +:+ str (getattr args "test_type") ]
          else [])
    else [])
  ++ [ "⚠️  Placeholder agent - implementation pending";
    "This agent will be refined by the CEO Agent when first used.";
    nl +:+ "Capabilities:";
    "  - Unit testing";
    "  - Integration testing";
    "  - E2E testing";
    "  - Bug verification" ].

End qa_tester.

(** [agents/research_scientist.py] *)
Module research_scientist.

Definition parser : Parser :=
  ArgumentParser
    [ add_store ["--model"] TStr
        (Some ["gpt-4o-mini"; "gpt-5-mini"; "gpt-5.2"])
        (VStr "gpt-5.2");
      add_store ["--topic"] TStr None VNone;
      add_store_true ["--dry-run"];
      add_store_true ["-v"; "--verbose"] ].

(** The statements of [main] after [args = parser.parse_args()], one
    string for each [print] call. *)
Definition body (args : gmap string Value) : list string :=
  (if truthy (getattr args "verbose")
    then [ "[Research Scientist] Starting with model: " +:+ str (getattr args "model") ]
        ++ (if truthy (getattr args "topic")
          then [ "[Research Scientist] Topic: " +:+ str (getattr args "topic") ]
          else [])
    else [])
  ++ [ "⚠️  Placeholder agent - implementation pending";
    "This agent will be refined by the CEO Agent when first used.";
    nl +:+ "Capabilities:";
    "  - Technology research";
    "  - Code review";
    "  - Best practices analysis";
    "  - Emerging tech assessment" ].

End research_scientist.

(** [agents/security_auditor.py] *)
Module security_auditor.

Definition parser : Parser :=
  ArgumentParser
    [ add_store ["--model"] TStr
        (Some ["gpt-4o-mini"; "gpt-5-mini"; "gpt-5.2"])
        (VStr "gpt-5-mini");
      add_store ["--audit-type"] TStr
        (Some ["auth"; "data"; "owasp"; "full"])
        VNone;
      add_store_true ["--dry-run"];
      add_store_true ["-v"; "--verbose"] ].

(** The statements of [main] after [args = parser.parse_args()], one
    string for each [print] call. *)
Definition body (args : gmap string Value) : list string :=
  (if truthy (getattr args "verbose")
    then [ "[Security Auditor] Starting with model: " +:+ str (getattr args "model") ]
        ++ (if truthy (getattr args "audit_type")
          then [ "[Security Auditor] Audit type: " +:+ str (getattr args "audit_type") ]
          else [])
    else [])
  ++ [ "⚠️  Placeholder agent - implementation pending";
    "This agent will be refined by the CEO Agent when first used.";
    nl +:+ "Capabilities:";
    "  - Vulnerability scanning";
    "  - Auth validation";
    "  - Data security audit";
    "  - OWASP compliance" ].

End security_auditor.

(** [agents/technical_writer.py] *)
Module technical_writer.

Definition parser : Parser :=
  ArgumentParser
    [ add_store ["--model"] TStr
        (Some ["gpt-4o-mini"; "gpt-5-mini"; "gpt-5.2"])
        (VStr "gpt-4o-mini");
      add_store ["--doc-type"] TStr
        (Some ["api"; "user-guide"; "readme"; "comments"])
        VNone;
      add_store_true ["--dry-run"];
      add_store_true ["-v"; "--verbose"] ].

(** The statements of [main] after [args = parser.parse_args()], one
    string for each [print] call. *)
Definition body (args : gmap string Value) : list string :=
  (if truthy (getattr args "verbose")
    then [ "[Technical Writer] Starting with model: " +:+ str (getattr args "model") ]
        ++ (if truthy (getattr args "doc_type")
          then [ "[Technical Writer] Doc type: " +:+ str (getattr args "doc_type") ]
          else [])
    else [])
  ++ [ "⚠️  Placeholder agent - implementation pending";
    "This agent will be refined by the CEO Agent when first used.";
    nl +:+ "Capabilities:";
    "  - API documentation";
    "  - User guides";
    "  - README creation";
    "  - Code comments" ].

End technical_writer.

(** [agents/ui_ux_designer.py] *)
Module ui_ux_designer.

Definition parser : Parser :=
  ArgumentParser
    [ add_store ["--model"] TStr
        (Some ["gpt-4o-mini"; "gpt-5-mini"; "gpt-5.2"])
        (VStr "gpt-5-mini");
      add_store ["--brand"] TStr None (VStr "SchooLinks");
      add_store_true ["--dry-run"];
      add_store_true ["-v"; "--verbose"];
      add_store ["--component-type"] TStr None VNone ].

(** The statements of [main] after [args = parser.parse_args()], one
    string for each [print] call. *)
Definition body (args : gmap string Value) : list string :=
  (if truthy (getattr args "verbose")
    then [ "[UI/UX Designer] Starting with model: " +:+ str (getattr args "model");
          "[UI/UX Designer] Brand: " +:+ str (getattr args "brand") ]
    else [])
  ++ [ "⚠️  Placeholder agent - implementation pending";
    "This agent will be refined by the CEO Agent when first used.";
    nl +:+ "Capabilities:";
    "  - UI component design";
    "  - CSS/Tailwind styling";
    "  - WCAG accessibility";
    "  - Brand consistency (SchooLinks #00A8E1)" ].

End ui_ux_designer.

(** [agents/webflow_api_specialist.py] *)
Module webflow_api_specialist.

Definition parser : Parser :=
  ArgumentParser
    [ add_store ["--api-token"] TStr None VNone;
      add_store ["--site-id"] TStr None VNone;
      add_store ["--api-type"] TStr
        (Some ["cms"; "sites"; "pages"; "assets"; "forms"; "ecommerce";
               "webhooks"])
        (VStr "cms");
      add_store ["--action"] TStr
        (Some ["list-collections"; "get-collection"; "create-collection";
               "list-items"; "get-item"; "create-item"; "update-item";
               "delete-item"; "publish-site"; "get-site-info"; "import-items";
               "export-items"; "sync-landing-pages"; "sync-resources";
               "setup-webhook"; "list-webhooks"; "delete-webhook";
               "upload-asset"; "list-assets"; "list-forms"; "get-submissions"])
        VNone;
      add_store ["--collection-id"] TStr None VNone;
      add_store ["--item-id"] TStr None VNone;
      add_store ["--fields"] TStr None VNone;
      add_store ["--limit"] TInt None (VInt 100);
      add_store ["--offset"] TInt None (VInt 0);
      add_store ["--webhook-url"] TStr None VNone;
      add_store ["--trigger-type"] TStr
        (Some ["collection_item_created"; "collection_item_changed";
               "collection_item_deleted"; "site_publish"])
        VNone;
      add_store ["--types"] TStr None VNone;
      add_store ["--db-table"] TStr None VNone;
      add_store_true ["--include-unpublished"];
      add_store ["--output"] TStr None VNone;
      add_store ["--output-format"] TStr
        (Some ["json"; "csv"; "markdown"])
        (VStr "json");
      add_store ["--model"] TStr
        (Some ["gpt-4o-mini"; "gpt-5-mini"; "gpt-5.2"])
        (VStr "gpt-4o-mini");
      add_store_true ["--enrich"];
      add_store_true ["--dry-run"];
      add_store_true ["-v"; "--verbose"] ].

(** The statements of [main] after [args = parser.parse_args()], one
    string for each [print] call. *)
Definition body (args : gmap string Value) : list string :=
  (if truthy (getattr args "verbose")
    then [ "[Webflow API Specialist] Starting with model: " +:+ str (getattr args "model");
          "[Webflow API Specialist] API Type: " +:+ str (getattr args "api_type") ]
        ++ (if truthy (getattr args "action")
          then [ "[Webflow API Specialist] Action: " +:+ str (getattr args "action") ]
          else [])
        ++ (if truthy (getattr args "site_id")
          then [ "[Webflow API Specialist] Site ID: " +:+ str (getattr args "site_id") ]
          else [])
        ++ (if truthy (getattr args "collection_id")
          then [ "[Webflow API Specialist] Collection ID: " +:+ str (getattr args "collection_id") ]
          else [])
    else [])
  ++ [ "⚠️  Placeholder agent - implementation pending";
    "This agent will be refined by the CEO Agent when first used.";
    nl +:+ "🔷 Webflow Capabilities:";
    nl +:+ "  📦 CMS Collections & Items:";
    "    - List/create/update/delete collections";
    "    - CRUD operations on CMS items";
    "    - Bulk import/export";
    "    - Field mapping and validation";
    nl +:+ "  🌐 Site Management:";
    "    - Site info and settings";
    "    - Publishing and deployment";
    "    - Domain management";
    "    - Custom code injection";
    nl +:+ "  📄 Pages & Assets:";
    "    - Page CRUD operations";
    "    - Asset upload and management";
    "    - Image optimization";
    "    - File organization";
    nl +:+ "  📋 Forms & Submissions:";
    "    - Form listing";
    "    - Submission retrieval";
    "    - Export to CSV/database";
    nl +:+ "  🔔 Webhooks:";
    "    - Real-time event notifications";
    "    - Automatic content sync";
    "    - Trigger-based automation";
    nl +:+ "  🛒 E-commerce (if applicable):";
    "    - Product management";
    "    - Order processing";
    "    - Inventory tracking";
    nl +:+ "  📚 Marketing Portal Use Cases:";
    "    - Import resources (blog, video, webinar, ebook)";
    "    - Sync landing pages to database";
    "    - Real-time webhook updates";
    "    - Content type mapping";
    "    - Automatic enrichment" ]
  ++ (if truthy (getattr args "action")
    then [ nl +:+ "🎯 Would perform action: " +:+ str (getattr args "action") ]
        ++ (if value_eqb (getattr args "action") (VStr "import-items") && truthy (getattr args "collection_id")
          then [ "   Collection: " +:+ str (getattr args "collection_id");
                "   Limit: " +:+ str (getattr args "limit") ]
              ++ (if truthy (getattr args "enrich")
                then [ "   AI Enrichment: ENABLED" ]
                else [])
          else (if value_eqb (getattr args "action") (VStr "sync-landing-pages")
             then [ "   Would sync published landing pages" ]
                 ++ (if truthy (getattr args "db_table")
                   then [ "   Target table: " +:+ str (getattr args "db_table") ]
                   else [])
             else (if value_eqb (getattr args "action") (VStr "setup-webhook") && truthy (getattr args "webhook_url")
                then [ "   Webhook URL: " +:+ str (getattr args "webhook_url") ]
                    ++ (if truthy (getattr args "trigger_type")
                      then [ "   Trigger: " +:+ str (getattr args "trigger_type") ]
                      else [])
                else (if value_eqb (getattr args "action") (VStr "sync-resources")
                   then [ "   Would sync all marketing resources" ]
                       ++ (if truthy (getattr args "types")
                         then [ "   Types: " +:+ str (getattr args "types") ]
                         else [])
                   else []))))
    else [])
  ++ (if truthy (getattr args "output")
    then [ nl +:+ "💾 Output: " +:+ str (getattr args "output") +:+ " (" +:+ str (getattr args "output_format") +:+ ")" ]
    else []).

End webflow_api_specialist.


(** A script is its parser and the statements that follow parsing. *)
Record Script : Type := mkScript {
  parser : Parser;
  body : gmap string Value -> list string
}.

(** The files of [agents/]. *)
Definition fleet : list (string * Script) :=
  [ ("architect_planner.py", mkScript architect_planner.parser architect_planner.body);
    ("code_executioner.py", mkScript code_executioner.parser code_executioner.body);
    ("database_architect.py", mkScript database_architect.parser database_architect.body);
    ("deployment_engineer.py", mkScript deployment_engineer.parser deployment_engineer.body);
    ("google_api_specialist.py", mkScript google_api_specialist.parser google_api_specialist.body);
    ("groundtruth_api_specialist.py", mkScript groundtruth_api_specialist.parser groundtruth_api_specialist.body);
    ("hubspot_api_specialist.py", mkScript hubspot_api_specialist.parser hubspot_api_specialist.body);
    ("meta_api_specialist.py", mkScript meta_api_specialist.parser meta_api_specialist.body);
    ("pdf_ocr_parser.py", mkScript pdf_ocr_parser.parser pdf_ocr_parser.body);
    ("performance_optimizer.py", mkScript performance_optimizer.parser performance_optimizer.body);
    ("qa_tester.py", mkScript qa_tester.parser qa_tester.body);
    ("research_scientist.py", mkScript research_scientist.parser research_scientist.body);
    ("security_auditor.py", mkScript security_auditor.parser security_auditor.body);
    ("technical_writer.py", mkScript technical_writer.parser technical_writer.body);
    ("ui_ux_designer.py", mkScript ui_ux_designer.parser ui_ux_designer.body);
    ("webflow_api_specialist.py", mkScript webflow_api_specialist.parser webflow_api_specialist.body) ].

(** How a run of [sys.exit(main())] ends: [main] returned after its
    prints, or [parse_args] ended the process itself, with the help text
    on standard output or a usage message on standard error. *)
Inductive Result : Type :=
| Returned (printed : list string) (status : Z)
| HelpPrinted
| UsageFailure (e : ArgError).

(** [main()] on the argument strings [sys.argv[1:]]. *)
Definition main (s : Script) (argv : list string) : Result :=
  match parse_args (parser s) argv with
  | Parsed args => Returned (body s args) 0
  | HelpExit => HelpPrinted
  | UsageError e => UsageFailure e
  end.

(** The status the process exits with. *)
Definition exit_status (r : Result) : Z :=
  match r with
  | Returned _ status => status
  | HelpPrinted => 0
  | UsageFailure _ => 2
  end.

(** What the run wrote on standard output through [print]. *)
Definition printed_output (r : Result) : list string :=
  match r with
  | Returned printed _ => printed
  | _ => []
  end.

End Agents.

(** ** The registry tables *)

(** The tables [projects] and [agents] as the seed scripts see them.  The
    schema file is not part of the sources, so the columns of [agents]
    that no seed statement names are kept as one value of a type [Other],
    and the defaults an [INSERT] gives to the columns it leaves out are
    parameters.  A statement changes the columns it names and nothing
    else: triggers the schema may declare are not modelled. *)

Module Database.

(** A value of a parameter template, after [json.dumps]. *)
Inductive ParamValue : Type :=
| PStr (s : string)
| PBool (b : bool)
| PInt (z : Z).

Definition Params : Type := list (string * ParamValue).

Record ProjectRow : Type := mkProjectRow {
  project_id : nat;
  project_name : string;
  project_github_repo : option string;
  project_description : string
}.

Section Schema.

Variable Other : Type.

Record AgentRow : Type := mkAgentRow {
  agent_id : nat;
  agent_project_id : nat;
  agent_name : string;
  agent_description : string;
  agent_script_path : string;
  agent_language : string;
  agent_parameters : Params;
  agent_tags : list string;
  agent_default_schedule : option string;
  agent_other : Other
}.

(** The database: both tables, and the next identifier an [INSERT]
    generates. *)
Record DB : Type := mkDB {
  projects : list ProjectRow;
  agents : list AgentRow;
  next_id : nat
}.

(** The pair the unique constraint behind [ON CONFLICT (project_id, name)]
    ranges over. *)
Definition agent_key (r : AgentRow) : nat * string :=
  (agent_project_id r, agent_name r).

Definition has_key (project_id : nat) (name : string) (r : AgentRow) : bool :=
  Nat.eqb (agent_project_id r) project_id && String.eqb (agent_name r) name.

(** [SELECT id FROM agents WHERE name = %s AND project_id = %s], then
    [fetchone()]. *)
Definition select_agent (name : string) (project_id : nat) (db : DB)
  : option AgentRow :=
  List.find (has_key project_id name) (agents db).

(** [SELECT id FROM projects WHERE name = %s]: the row an
    [ON CONFLICT (name)] meets. *)
Definition select_project (name : string) (db : DB) : option ProjectRow :=
  List.find (fun r => String.eqb (project_name r) name) (projects db).

(** [INSERT INTO projects (name, github_repo, description) VALUES ...
    ON CONFLICT (name) DO UPDATE SET ... RETURNING id].  [set_repo] tells
    whether the conflict branch also assigns [github_repo]. *)
Definition upsert_project (name : string) (github_repo : option string)
    (description : string) (set_repo : bool) (db : DB) : DB * nat :=
  match select_project name db with
  | Some existing =>
      (mkDB (List.map (fun r =>
                         if String.eqb (project_name r) name
                         then mkProjectRow (project_id r) (project_name r)
                                (if set_repo then github_repo
                                 else project_github_repo r)
                                description
                         else r) (projects db))
            (agents db) (next_id db),
       project_id existing)
  | None =>
      (mkDB (projects db ++ [mkProjectRow (next_id db) name github_repo description])
            (agents db) (S (next_id db)),
       next_id db)
  end.

(** [UPDATE agents SET ... WHERE id = %s] with the assignment [set]. *)
Definition update_agents_by_id (id : nat) (set : AgentRow -> AgentRow) (db : DB) : DB :=
  mkDB (projects db)
       (List.map (fun r => if Nat.eqb (agent_id r) id then set r else r) (agents db))
       (next_id db).

(** [UPDATE] restricted to the row of a conflict on [(project_id, name)]. *)
Definition update_agents_by_key (project_id : nat) (name : string)
    (set : AgentRow -> AgentRow) (db : DB) : DB :=
  mkDB (projects db)
       (List.map (fun r => if has_key project_id name r then set r else r) (agents db))
       (next_id db).

(** [INSERT INTO agents (...) VALUES (...)]: [row] gets a fresh [id]. *)
Definition insert_agent (row : nat -> AgentRow) (db : DB) : DB :=
  mkDB (projects db) (agents db ++ [row (next_id db)]) (S (next_id db)).

End Schema.

Arguments mkAgentRow {Other}.
Arguments agent_id {Other}.
Arguments agent_project_id {Other}.
Arguments agent_name {Other}.
Arguments agent_description {Other}.
Arguments agent_script_path {Other}.
Arguments agent_language {Other}.
Arguments agent_parameters {Other}.
Arguments agent_tags {Other}.
Arguments agent_default_schedule {Other}.
Arguments agent_other {Other}.
Arguments mkDB {Other}.
Arguments projects {Other}.
Arguments agents {Other}.
Arguments next_id {Other}.
Arguments agent_key {Other}.
Arguments has_key {Other}.
Arguments select_agent {Other}.
Arguments select_project {Other}.
Arguments upsert_project {Other}.
Arguments update_agents_by_id {Other}.
Arguments update_agents_by_key {Other}.
Arguments insert_agent {Other}.

End Database.

(** ** [database/seed_core_agents.py] *)

Module seed_core_agents.

Import Database.
Local Open Scope list_scope.

(** One entry of [CORE_AGENTS].  [estimated_cost] is in hundredths of a
    dollar: [0.15] is [15]. *)
Record AgentData : Type := mkAgentData {
  name : string;
  description : string;
  script_path : string;
  language : string;
  parameters : Params;
  tags : list string;
  default_schedule : option string;
  estimated_cost : Z;
  capabilities : list string
}.

Definition CORE_AGENTS : list AgentData :=
  [
    {| name := "architect-planner";
       description :=
         ("Master architect that designs system architecture, creates "
         +:+ "technical specifications, and plans project structure. "
         +:+ "Expert in Supabase, Vercel, React, Node.js, Python, and "
         +:+ "PostgreSQL. Creates comprehensive READMEs, architecture "
         +:+ "diagrams, and implementation plans.");
       script_path :=
         ("/Users/andrewandersen/Desktop/mission-control-dashboard/"
          +:+ "agents/architect_planner.py");
       language := "python";
       parameters :=
         [ ("--project-type", PStr "web-app");
           ("--complexity", PStr "medium");
           ("--model", PStr "gpt-5.2");
           ("--output-format", PStr "markdown") ];
       tags :=
         ["architecture"; "planning"; "design"; "gpt-5.2"; "expensive"];
       default_schedule := None;
       estimated_cost := 15;
       capabilities :=
         ["system-architecture"; "database-design"; "api-design";
          "tech-stack-selection"; "readme-creation"; "documentation"] |};

    {| name := "code-executioner";
       description :=
         ("Heavy-duty coding agent that writes, debugs, and tests "
         +:+ "production-ready code. Handles full-stack development "
         +:+ "including frontend (React, Vite), backend (Node.js, Express, "
         +:+ "Python), and database operations. Includes automated testing "
         +:+ "and debugging capabilities.");
       script_path :=
         ("/Users/andrewandersen/Desktop/mission-control-dashboard/"
          +:+ "agents/code_executioner.py");
       language := "python";
       parameters :=
         [ ("--language", PStr "auto");
           ("--include-tests", PBool true);
           ("--model", PStr "gpt-5-mini");
           ("--max-files", PInt 10) ];
       tags :=
         ["coding"; "development"; "testing"; "debugging"; "gpt-5-mini";
          "moderate-cost"];
       default_schedule := None;
       estimated_cost := 8;
       capabilities :=
         ["code-generation"; "bug-fixing"; "test-writing";
          "code-refactoring"; "performance-optimization"; "error-handling"] |};

    {| name := "ui-ux-designer";
       description :=
         ("UI/UX specialist focused on creating accessible, on-brand, "
         +:+ "and visually appealing interfaces. Handles CSS, Tailwind, "
         +:+ "component design, color schemes, typography, and responsive "
         +:+ "design. Ensures WCAG accessibility compliance and brand "
         +:+ "consistency.");
       script_path :=
         ("/Users/andrewandersen/Desktop/mission-control-dashboard/"
          +:+ "agents/ui_ux_designer.py");
       language := "python";
       parameters :=
         [ ("--brand", PStr "SchooLinks");
           ("--framework", PStr "tailwind");
           ("--model", PStr "gpt-5-mini");
           ("--accessibility", PStr "wcag-aa") ];
       tags :=
         ["ui"; "ux"; "design"; "css"; "accessibility"; "gpt-5-mini";
          "moderate-cost"];
       default_schedule := None;
       estimated_cost := 6;
       capabilities :=
         ["ui-design"; "css-styling"; "component-creation";
          "accessibility-audit"; "responsive-design"; "brand-compliance"] |};

    {| name := "pdf-ocr-parser";
       description :=
         ("Advanced document processing agent that extracts text from "
         +:+ "PDFs, performs OCR on images, and uses AI reasoning to "
         +:+ "understand and structure parsed content. Handles complex "
         +:+ "layouts, tables, forms, handwritten text, and multilingual "
         +:+ "documents. Provides intelligent content analysis, entity "
         +:+ "extraction, and structured data transformation.");
       script_path :=
         ("/Users/andrewandersen/Desktop/mission-control-dashboard/"
          +:+ "agents/pdf_ocr_parser.py");
       language := "python";
       parameters :=
         [ ("--ocr-engine", PStr "tesseract");
           ("--ai-reasoning", PBool true);
           ("--extract-tables", PBool true);
           ("--model", PStr "gpt-5-mini");
           ("--output-format", PStr "structured-json") ];
       tags :=
         ["pdf"; "ocr"; "document-processing"; "ai-reasoning";
          "data-extraction"; "gpt-5-mini"; "moderate-cost"];
       default_schedule := None;
       estimated_cost := 8;
       capabilities :=
         ["pdf-text-extraction"; "ocr-image-processing";
          "handwritten-text-recognition"; "table-extraction";
          "form-data-extraction"; "ai-content-analysis";
          "entity-recognition"; "document-classification";
          "multilingual-support"; "structured-output";
          "content-summarization"; "metadata-extraction"] |};

    {| name := "research-scientist";
       description :=
         ("R&D agent that performs parallel research, evaluates "
         +:+ "technologies, analyzes best practices, and provides "
         +:+ "data-driven recommendations. Reviews architectural "
         +:+ "decisions, code quality, and suggests improvements based on "
         +:+ "industry standards.");
       script_path :=
         ("/Users/andrewandersen/Desktop/mission-control-dashboard/"
          +:+ "agents/research_scientist.py");
       language := "python";
       parameters :=
         [ ("--depth", PStr "comprehensive");
           ("--model", PStr "gpt-5.2");
           ("--include-comparisons", PBool true);
           ("--sources", PInt 5) ];
       tags :=
         ["research"; "analysis"; "r&d"; "gpt-5.2"; "expensive"];
       default_schedule := None;
       estimated_cost := 12;
       capabilities :=
         ["technology-research"; "code-review"; "best-practices-analysis";
          "competitive-analysis"; "documentation-review";
          "performance-benchmarking"] |};

    {| name := "google-api-specialist";
       description :=
         ("Expert in Google APIs including Google Drive, Google Sheets, "
         +:+ "Google Calendar, Google Analytics, and Google Cloud Platform "
         +:+ "services. Handles OAuth, service accounts, and complex API "
         +:+ "integrations.");
       script_path :=
         ("/Users/andrewandersen/Desktop/mission-control-dashboard/"
          +:+ "agents/google_api_specialist.py");
       language := "python";
       parameters :=
         [ ("--api-type", PStr "drive");
           ("--auth-method", PStr "service-account");
           ("--model", PStr "gpt-4o-mini") ];
       tags :=
         ["api"; "google"; "integration"; "gpt-4o-mini"; "cheap"];
       default_schedule := None;
       estimated_cost := 2;
       capabilities :=
         ["google-drive-integration"; "google-sheets-integration";
          "oauth-setup"; "service-account-config"; "batch-operations";
          "file-sync"] |};

    {| name := "meta-api-specialist";
       description :=
         ("Expert in Facebook/Meta APIs including Facebook Graph API, "
         +:+ "Instagram API, Meta Business Suite, and Ad Manager. Handles "
         +:+ "campaign management, audience targeting, and analytics.");
       script_path :=
         ("/Users/andrewandersen/Desktop/mission-control-dashboard/"
          +:+ "agents/meta_api_specialist.py");
       language := "python";
       parameters :=
         [ ("--platform", PStr "facebook");
           ("--api-version", PStr "v18.0");
           ("--model", PStr "gpt-4o-mini") ];
       tags :=
         ["api"; "meta"; "facebook"; "advertising"; "gpt-4o-mini"; "cheap"];
       default_schedule := None;
       estimated_cost := 2;
       capabilities :=
         ["facebook-ads-management"; "instagram-integration";
          "audience-targeting"; "campaign-analytics"; "meta-pixel-setup";
          "catalog-management"] |};

    {| name := "groundtruth-api-specialist";
       description :=
         ("Expert in Ground Truth API for educational data, student "
         +:+ "information systems, and academic analytics. Handles data "
         +:+ "synchronization, reporting, and compliance requirements.");
       script_path :=
         ("/Users/andrewandersen/Desktop/mission-control-dashboard/"
          +:+ "agents/groundtruth_api_specialist.py");
       language := "python";
       parameters :=
         [ ("--data-type", PStr "student-info");
           ("--sync-mode", PStr "incremental");
           ("--model", PStr "gpt-4o-mini") ];
       tags :=
         ["api"; "groundtruth"; "education"; "data-sync"; "gpt-4o-mini";
          "cheap"];
       default_schedule := None;
       estimated_cost := 2;
       capabilities :=
         ["student-data-sync"; "academic-reporting";
          "compliance-validation"; "data-transformation";
          "webhook-handling"; "batch-processing"] |};

    {| name := "hubspot-api-specialist";
       description :=
         ("Expert in HubSpot APIs for CRM, marketing automation, "
         +:+ "content management, and analytics. Handles contact/company "
         +:+ "management, email campaigns, landing pages, blog posts, "
         +:+ "forms, workflows, and HubSpot-hosted content extraction "
         +:+ "(PDFs, web pages). Integrates with HubSpot CMS for content "
         +:+ "enrichment.");
       script_path :=
         ("/Users/andrewandersen/Desktop/mission-control-dashboard/"
          +:+ "agents/hubspot_api_specialist.py");
       language := "python";
       parameters :=
         [ ("--api-type", PStr "crm");
           ("--auth-method", PStr "private-app");
           ("--model", PStr "gpt-4o-mini") ];
       tags :=
         ["api"; "hubspot"; "crm"; "marketing"; "content-extraction";
          "gpt-4o-mini"; "cheap"];
       default_schedule := None;
       estimated_cost := 2;
       capabilities :=
         ["crm-contact-management"; "company-management";
          "deal-pipeline-automation"; "email-campaign-management";
          "landing-page-integration"; "blog-post-management";
          "form-submission-handling"; "workflow-automation";
          "hubspot-pdf-extraction"; "content-enrichment";
          "analytics-reporting"] |};

    {| name := "webflow-api-specialist";
       description :=
         ("Expert in Webflow CMS API, Designer API, and Data API. "
         +:+ "Handles CMS collections and items, site management, page "
         +:+ "publishing, asset management, form submissions, e-commerce "
         +:+ "operations, and webhook integrations. Specializes in content "
         +:+ "sync, landing page imports, and real-time CMS updates used "
         +:+ "in marketing content portals.");
       script_path :=
         ("/Users/andrewandersen/Desktop/mission-control-dashboard/"
          +:+ "agents/webflow_api_specialist.py");
       language := "python";
       parameters :=
         [ ("--api-type", PStr "cms");
           ("--auth-method", PStr "api-token");
           ("--model", PStr "gpt-4o-mini") ];
       tags :=
         ["api"; "webflow"; "cms"; "website"; "design"; "content-sync";
          "gpt-4o-mini"; "cheap"];
       default_schedule := None;
       estimated_cost := 2;
       capabilities :=
         ["cms-collection-management"; "cms-item-crud"; "site-publishing";
          "page-management"; "asset-upload-download";
          "form-submission-handling"; "webhook-setup";
          "content-import-export"; "landing-page-sync";
          "blog-post-management"; "resource-library-sync";
          "ecommerce-integration"; "custom-code-injection";
          "domain-management"] |};

    {| name := "database-architect";
       description :=
         ("Database specialist for Supabase/PostgreSQL. Designs "
         +:+ "schemas, writes migrations, optimizes queries, sets up RLS "
         +:+ "policies, and ensures data integrity. Expert in indexing, "
         +:+ "performance tuning, and scaling.");
       script_path :=
         ("/Users/andrewandersen/Desktop/mission-control-dashboard/"
          +:+ "agents/database_architect.py");
       language := "python";
       parameters :=
         [ ("--database", PStr "postgresql");
           ("--provider", PStr "supabase");
           ("--model", PStr "gpt-5-mini") ];
       tags :=
         ["database"; "postgresql"; "supabase"; "gpt-5-mini";
          "moderate-cost"];
       default_schedule := None;
       estimated_cost := 5;
       capabilities :=
         ["schema-design"; "migration-creation"; "query-optimization";
          "rls-policies"; "indexing"; "backup-strategy"] |};

    {| name := "deployment-engineer";
       description :=
         ("DevOps specialist for Vercel, GitHub Actions, and CI/CD "
         +:+ "pipelines. Handles deployments, environment configuration, "
         +:+ "secrets management, and monitoring setup.");
       script_path :=
         ("/Users/andrewandersen/Desktop/mission-control-dashboard/"
          +:+ "agents/deployment_engineer.py");
       language := "python";
       parameters :=
         [ ("--platform", PStr "vercel");
           ("--ci-provider", PStr "github-actions");
           ("--model", PStr "gpt-4o-mini") ];
       tags :=
         ["devops"; "deployment"; "ci-cd"; "vercel"; "gpt-4o-mini";
          "cheap"];
       default_schedule := None;
       estimated_cost := 2;
       capabilities :=
         ["vercel-deployment"; "github-actions"; "environment-config";
          "secrets-management"; "domain-setup"; "monitoring"] |};

    {| name := "qa-tester";
       description :=
         ("Quality assurance specialist that writes comprehensive "
         +:+ "tests, performs manual testing, and ensures code quality. "
         +:+ "Handles unit tests, integration tests, E2E tests, and "
         +:+ "accessibility testing.");
       script_path :=
         ("/Users/andrewandersen/Desktop/mission-control-dashboard/"
          +:+ "agents/qa_tester.py");
       language := "python";
       parameters :=
         [ ("--test-type", PStr "all");
           ("--coverage-threshold", PInt 80);
           ("--model", PStr "gpt-4o-mini") ];
       tags :=
         ["testing"; "qa"; "quality"; "gpt-4o-mini"; "cheap"];
       default_schedule := None;
       estimated_cost := 3;
       capabilities :=
         ["unit-testing"; "integration-testing"; "e2e-testing";
          "accessibility-testing"; "test-coverage-analysis";
          "bug-reporting"] |};

    {| name := "technical-writer";
       description :=
         ("Documentation specialist that creates comprehensive "
         +:+ "technical documentation, API documentation, user guides, and "
         +:+ "inline code comments. Ensures clarity and completeness.");
       script_path :=
         ("/Users/andrewandersen/Desktop/mission-control-dashboard/"
          +:+ "agents/technical_writer.py");
       language := "python";
       parameters :=
         [ ("--doc-type", PStr "technical");
           ("--format", PStr "markdown");
           ("--model", PStr "gpt-4o-mini") ];
       tags :=
         ["documentation"; "writing"; "gpt-4o-mini"; "cheap"];
       default_schedule := None;
       estimated_cost := 2;
       capabilities :=
         ["api-documentation"; "user-guides"; "readme-creation";
          "inline-comments"; "changelog-generation"; "tutorial-creation"] |};

    {| name := "security-auditor";
       description :=
         ("Security specialist that audits code for vulnerabilities, "
         +:+ "ensures secure authentication, validates data handling, and "
         +:+ "checks compliance with security best practices.");
       script_path :=
         ("/Users/andrewandersen/Desktop/mission-control-dashboard/"
          +:+ "agents/security_auditor.py");
       language := "python";
       parameters :=
         [ ("--severity-threshold", PStr "medium");
           ("--compliance", PStr "owasp-top-10");
           ("--model", PStr "gpt-5-mini") ];
       tags :=
         ["security"; "audit"; "compliance"; "gpt-5-mini"; "moderate-cost"];
       default_schedule := None;
       estimated_cost := 6;
       capabilities :=
         ["vulnerability-scanning"; "auth-validation";
          "data-security-audit"; "secrets-detection"; "compliance-check";
          "security-recommendations"] |};

    {| name := "performance-optimizer";
       description :=
         ("Performance specialist that analyzes and optimizes frontend "
         +:+ "performance, backend efficiency, database queries, and API "
         +:+ "response times. Uses profiling and benchmarking.");
       script_path :=
         ("/Users/andrewandersen/Desktop/mission-control-dashboard/"
          +:+ "agents/performance_optimizer.py");
       language := "python";
       parameters :=
         [ ("--target", PStr "all");
           ("--metric", PStr "lighthouse");
           ("--model", PStr "gpt-5-mini") ];
       tags :=
         ["performance"; "optimization"; "speed"; "gpt-5-mini";
          "moderate-cost"];
       default_schedule := None;
       estimated_cost := 5;
       capabilities :=
         ["frontend-optimization"; "backend-optimization";
          "query-optimization"; "caching-strategy";
          "bundle-size-reduction"; "lighthouse-audit"] |}
  ].


(** How [seed_agents] ends: [sys.exit(1)], or the committed database with
    the two counters of the summary. *)
Inductive SeedResult (Other : Type) : Type :=
| Exited (status : Z)
| Seeded (db : DB Other) (seeded_count updated_count : nat).

Arguments Exited {Other}.
Arguments Seeded {Other}.

Section Seed.

Context {Other : Type}.

(** What the columns no statement names are set to by an [INSERT]. *)
Variable other_default : Other.

(** The [SET] list of the [UPDATE] branch. *)
Definition set_managed (agent_data : AgentData) (r : AgentRow Other) : AgentRow Other :=
  mkAgentRow (agent_id r) (agent_project_id r) (agent_name r)
    (description agent_data) (script_path agent_data) (language agent_data)
    (parameters agent_data) (tags agent_data) (default_schedule agent_data)
    (agent_other r).

(** The column list of the [INSERT] branch. *)
Definition new_row (project_id : nat) (agent_data : AgentData) (id : nat)
  : AgentRow Other :=
  mkAgentRow id project_id (name agent_data)
    (description agent_data) (script_path agent_data) (language agent_data)
    (parameters agent_data) (tags agent_data) (default_schedule agent_data)
    other_default.

(** The body of [for agent_data in CORE_AGENTS], on the database and the
    two counters. *)
Definition seed_agent (project_id : nat) (st : DB Other * nat * nat)
    (agent_data : AgentData) : DB Other * nat * nat :=
  let '(db, seeded_count, updated_count) := st in
  match select_agent (name agent_data) project_id db with
  | Some existing =>
      (update_agents_by_id (agent_id existing) (set_managed agent_data) db,
       seeded_count, S updated_count)
  | None =>
      (insert_agent (new_row project_id agent_data) db,
       S seeded_count, updated_count)
  end.

(** The function with the catalogue as an argument. *)
Definition seed_agents_from (catalogue : list AgentData)
    (DATABASE_URL : option string) (db : DB Other) : SeedResult Other :=
  match DATABASE_URL with
  | None | Some EmptyString => Exited 1
  | Some _ =>
      let '(db1, project_id) :=
        upsert_project "Mission Control" None
          "Core worker agents for CEO Agent orchestration" false db in
      let '(db2, seeded_count, updated_count) :=
        fold_left (seed_agent project_id) catalogue (db1, O, O) in
      Seeded db2 seeded_count updated_count
  end.

(** [seed_agents()] *)
Definition seed_agents : option string -> DB Other -> SeedResult Other :=
  seed_agents_from CORE_AGENTS.

End Seed.

End seed_core_agents.

(** ** [database/seed_agents.py] *)

Module seed_agents.

Import Database.
Local Open Scope list_scope.

Definition dquote : ascii := ascii_of_nat 34.

(** The delimiter of a docstring: three double quotes. *)
Definition triple_quote : string :=
  String dquote (String dquote (String dquote EmptyString)).

(** [re.search(triple_quote + '(.*?)' + triple_quote, content, re.DOTALL)],
    as [group(1)]: the text between the first delimiter and the next. *)
Definition search_docstring (content : string) : option string :=
  match PyStr.partition triple_quote content with
  | None => None
  | Some (_, after) =>
      match PyStr.partition triple_quote after with
      | None => None
      | Some (doc, _) => Some doc
      end
  end.

(** The longest run of digits a string starts with. *)
Fixpoint leading_digits (s : string) : string :=
  match s with
  | String c t => if PyStr.is_digit c then String c (leading_digits t) else EmptyString
  | EmptyString => EmptyString
  end.

(** [.*?default=(\d+)] from a position: the first [default=] on the
    current line that a digit follows.  [.] does not match a line feed. *)
Fixpoint search_default (s : string) : option string :=
  let here :=
    if PyStr.startswith s "default="
    then match leading_digits (PyStr.drop 8 s) with
         | EmptyString => None
         | digits => Some digits
         end
    else None in
  match here with
  | Some digits => Some digits
  | None =>
      match s with
      | EmptyString => None
      | String c t => if Ascii.eqb c PyStr.LF then None else search_default t
      end
  end.

(** [re.search(r"'--limit'.*?default=(\d+)", content)], as [group(1)]. *)
Fixpoint search_limit (content : string) : option string :=
  let here :=
    if PyStr.startswith content "'--limit'"
    then search_default (PyStr.drop 9 content)
    else None in
  match here with
  | Some digits => Some digits
  | None =>
      match content with
      | EmptyString => None
      | String _ t => search_limit t
      end
  end.

Definition is_quote (c : ascii) : bool :=
  Ascii.eqb c "'" || Ascii.eqb c dquote.

(** The longest run of characters other than quotes. *)
Fixpoint leading_unquoted (s : string) : string :=
  match s with
  | String c t => if is_quote c then EmptyString else String c (leading_unquoted t)
  | EmptyString => EmptyString
  end.

(** [\s*=\s*['\"]([^'\"]+)] from the position after [AI_MODEL]. *)
Definition match_model_tail (s : string) : option string :=
  match PyStr.lstrip s with
  | String "=" t =>
      match PyStr.lstrip t with
      | String q u =>
          if is_quote q
          then match leading_unquoted u with
               | EmptyString => None
               | model => Some model
               end
          else None
      | EmptyString => None
      end
  | _ => None
  end.

(** [re.search(r"AI_MODEL\s*=\s*['\"]([^'\"]+)", content)], as [group(1)]. *)
Fixpoint search_model (content : string) : option string :=
  let here :=
    if PyStr.startswith content "AI_MODEL"
    then match_model_tail (PyStr.drop 8 content)
    else None in
  match here with
  | Some model => Some model
  | None =>
      match content with
      | EmptyString => None
      | String _ t => search_model t
      end
  end.

(** The text before the first [\n\n] or [Usage:], when there is one:
    [(.*?)(?:\n\n|Usage:)] with [re.DOTALL]. *)
Fixpoint until_terminator (s : string) : option string :=
  if PyStr.startswith s (PyStr.newline +:+ PyStr.newline) || PyStr.startswith s "Usage:"
  then Some EmptyString
  else match s with
       | EmptyString => None
       | String c t =>
           match until_terminator t with
           | Some g => Some (String c g)
           | None => None
           end
       end.

(** The leading white space of [s] up to its last line feed, removed:
    where [\s*\n], taken greedily, leaves the search.  [None] when the
    leading white space has no line feed. *)
Fixpoint after_last_leading_newline (s : string) : option string :=
  match s with
  | String c t =>
      if PyStr.is_space c
      then match after_last_leading_newline t with
           | Some r => Some r
           | None => if Ascii.eqb c PyStr.LF then Some t else None
           end
      else None
  | EmptyString => None
  end.

(** [^\s*\d+\.] at a position where the line-start test already holds:
    a digit run here, followed by a dot. *)
Fixpoint digits_then_dot (seen : bool) (s : string) : bool :=
  match s with
  | String c t =>
      if PyStr.is_digit c then digits_then_dot true t
      else seen && Ascii.eqb c "."
  | EmptyString => false
  end.

(** [len(re.findall(r'^\s*\d+\.', steps_text, re.MULTILINE))].  A match
    is a numbered item reached from a line start through white space
    only; [line_start] records that no other character came since the
    last line start. *)
Fixpoint count_numbered (line_start : bool) (s : string) : nat :=
  match s with
  | EmptyString => O
  | String c t =>
      if Ascii.eqb c PyStr.LF then count_numbered true t
      else if PyStr.is_space c then count_numbered line_start t
      else ((if line_start && digits_then_dot false s then 1 else 0)
            + count_numbered false t)%nat
  end.

(** [Steps?:] at the start of [s]: what follows the colon. *)
Definition match_steps_header (s : string) : option string :=
  if PyStr.startswith s "Steps:" then Some (PyStr.drop 6 s)
  else if PyStr.startswith s "Step:" then Some (PyStr.drop 5 s)
  else None.

(** The steps count: [re.search(r'Steps?:\s*\n(.*?)(?:\n\n|Usage:)',
    docstring, re.DOTALL)] and then the count of numbered lines in
    [group(1)].  The search stops at the first header whose white space
    holds a line feed: when no terminator follows there, a shorter
    [\s*] can only give a group of white space and a later header gives
    no match, so the count is 0. *)
Fixpoint steps_count_of (docstring : string) : nat :=
  let here :=
    match match_steps_header docstring with
    | Some rest => after_last_leading_newline rest
    | None => None
    end in
  match here with
  | Some from_group =>
      match until_terminator from_group with
      | Some steps_text => count_numbered true steps_text
      | None => O
      end
  | None =>
      match docstring with
      | EmptyString => O
      | String _ t => steps_count_of t
      end
  end.

(** [Path(p).stem]: the last component without its last suffix. *)
Definition path_stem (p : string) : string :=
  let name := PyStr.drop (Z.to_nat (PyStr.rfind "/" p + 1)) p in
  let i := PyStr.rfind "." name in
  if (0 <? i) && (i <? Z.of_nat (String.length name) - 1)
  then PyStr.take (Z.to_nat i) name
  else name.

(** The dictionary [extract_agent_metadata] returns. *)
Record Metadata : Type := mkMetadata {
  description : string;
  parameters : Params;
  steps_count : nat;
  tags : list string
}.

(** [tags.append(tag)] under a condition. *)
Definition append_if (c : bool) (tag : string) (tags : list string) : list string :=
  if c then tags ++ [tag] else tags.

(** [extract_agent_metadata(script_path)], on the text [content] that
    [open(script_path).read()] returned. *)
Definition extract_agent_metadata (script_path content : string) : Metadata :=
  let docstring_match := search_docstring content in
  let description :=
    match docstring_match with
    | Some group1 => PyStr.first_line (PyStr.strip group1)
    | None => EmptyString
    end in
  let parameters : Params := [] in
  let parameters :=
    if PyStr.contains "--limit" content
    then match search_limit content with
         | Some digits => parameters ++ [("--limit", PInt (PyStr.digits_value 0 digits))]
         | None => parameters
         end
    else parameters in
  let parameters :=
    if PyStr.contains "--model" content
    then match search_model content with
         | Some model => parameters ++ [("--model", PStr model)]
         | None => parameters
         end
    else parameters in
  let steps_count :=
    match docstring_match with
    | Some group1 => steps_count_of group1
    | None => O
    end in
  let tags := ["python"] in
  let script_name := path_stem script_path in
  let lowered := PyStr.lower description in
  let tags := append_if (PyStr.contains "enrich" script_name
                         || PyStr.contains "enrich" lowered) "enrichment" tags in
  let tags := append_if (PyStr.contains "import" script_name
                         || PyStr.contains "import" lowered) "import" tags in
  let tags := append_if (PyStr.contains "diagnose" script_name
                         || PyStr.contains "debug" lowered) "debugging" tags in
  let tags := append_if (PyStr.contains "health" script_name
                         || PyStr.contains "monitor" lowered) "monitoring" tags in
  let tags := append_if (PyStr.contains "deploy" script_name
                         || PyStr.contains "preflight" lowered) "deployment" tags in
  let tags := append_if (PyStr.contains "maintenance" script_name
                         || PyStr.contains "orchestrat" lowered) "orchestration" tags in
  let tags := append_if (PyStr.contains "gpt-5.2" content
                         || PyStr.contains "gpt-5-mini" content) "ai-powered" tags in
  mkMetadata (PyStr.take 500 description) parameters steps_count tags.

(** One discovered agent. *)
Record Agent : Type := mkAgent {
  name : string;
  agent_description : string;
  script_path : string;
  language : string;
  agent_parameters : Params;
  agent_tags : list string
}.

(** The known agent scripts of [discover_agents]. *)
Definition agent_scripts : list string :=
  [ "deploy_preflight.py"; "health_monitor.py"; "diagnose_search.py";
    "import_orchestrator.py"; "maintenance_orchestrator.py";
    "dedup_content.py" ].

(** [DEFAULT_PROJECT_PATH] *)
Definition DEFAULT_PROJECT_PATH : string :=
  "/Users/andrewandersen/Desktop/Marketing Content Database/marketing-content-portal".

(** The parser of [main]. *)
Definition main_parser : Argparse.Parser :=
  Argparse.ArgumentParser
    [ Argparse.add_store ["--project-path"] Argparse.TStr None
        (Argparse.VStr DEFAULT_PROJECT_PATH);
      Argparse.add_store ["--project-name"] Argparse.TStr None
        (Argparse.VStr "marketing-content-portal");
      Argparse.add_store ["--github-repo"] Argparse.TStr None Argparse.VNone ].

(** An attribute that holds a [str] or [None], as a query parameter. *)
Definition optional_str (v : Argparse.Value) : option string :=
  match v with
  | Argparse.VStr s => Some s
  | _ => None
  end.

(** How a run of [main] ends: inside [parse_args], at [sys.exit(1)], or
    after [seed_database]. *)
Inductive MainResult (Other : Type) : Type :=
| HelpPrinted
| UsageFailure (e : Argparse.ArgError)
| Exited (status : Z)
| Done (db : DB Other) (inserted updated : nat).

Arguments HelpPrinted {Other}.
Arguments UsageFailure {Other}.
Arguments Exited {Other}.
Arguments Done {Other}.

Section Discovery.

(** The file system: the text of the file at a path, [None] when there is
    no such file. *)
Variable read_text : string -> option string.

(** [discover_agents(project_path)]; a script that is missing is skipped
    with a warning. *)
Definition discover_agents (project_path : string) : list Agent :=
  flat_map
    (fun script_name =>
       let script_path := project_path +:+ "/scripts/" +:+ script_name in
       match read_text script_path with
       | None => []
       | Some content =>
           let metadata := extract_agent_metadata script_path content in
           let agent_name :=
             PyStr.replace "_" "-" (PyStr.replace ".py" "" script_name) in
           [ mkAgent agent_name (description metadata)
               ("scripts/" +:+ script_name) "python"
               (parameters metadata) (tags metadata) ]
       end)
    agent_scripts.

Context {Other : Type}.

(** What an [INSERT] that names neither column gives [default_schedule]
    and the columns no statement names. *)
Variable default_schedule_default : option string.
Variable other_default : Other.

(** The [DO UPDATE SET] list. *)
Definition set_managed (agent : Agent) (r : AgentRow Other) : AgentRow Other :=
  mkAgentRow (agent_id r) (agent_project_id r) (Database.agent_name r)
    (agent_description agent) (script_path agent) (Database.agent_language r)
    (agent_parameters agent) (agent_tags agent)
    (Database.agent_default_schedule r) (agent_other r).

(** The column list of the [INSERT]. *)
Definition new_row (project_id : nat) (agent : Agent) (id : nat) : AgentRow Other :=
  mkAgentRow id project_id (name agent)
    (agent_description agent) (script_path agent) (language agent)
    (agent_parameters agent) (agent_tags agent)
    default_schedule_default other_default.

(** [INSERT INTO agents ... ON CONFLICT (project_id, name) DO UPDATE SET
    ... RETURNING (xmax = 0) AS inserted], on the database and the two
    counters. *)
Definition upsert_agent (project_id : nat) (st : DB Other * nat * nat)
    (agent : Agent) : DB Other * nat * nat :=
  let '(db, inserted, updated) := st in
  match select_agent (name agent) project_id db with
  | Some _ =>
      (update_agents_by_key project_id (name agent) (set_managed agent) db,
       inserted, S updated)
  | None =>
      (insert_agent (new_row project_id agent) db, S inserted, updated)
  end.

(** [seed_database(conn, project_name, project_path, github_repo)]: the
    database afterwards and the counters [inserted] and [updated]. *)
Definition seed_database (db : DB Other) (project_name project_path : string)
    (github_repo : option string) : DB Other * nat * nat :=
  let '(db1, project_id) :=
    upsert_project project_name github_repo
      ("Marketing content portal at " +:+ project_path) true db in
  let agents := discover_agents project_path in
  fold_left (upsert_agent project_id) agents (db1, O, O).

(** [main()] on the argument strings [sys.argv[1:]]: the arguments are
    parsed before [DATABASE_URL] is looked at.  As in [seed_database],
    the connection is taken to succeed. *)
Definition main (DATABASE_URL : option string) (argv : list string) (db : DB Other)
  : MainResult Other :=
  match Argparse.parse_args main_parser argv with
  | Argparse.HelpExit => HelpPrinted
  | Argparse.UsageError e => UsageFailure e
  | Argparse.Parsed args =>
      match DATABASE_URL with
      | None | Some EmptyString => Exited 1
      | Some _ =>
          let '(db', inserted, updated) :=
            seed_database db
              (Argparse.as_str (Argparse.getattr args "project_name"))
              (Argparse.as_str (Argparse.getattr args "project_path"))
              (optional_str (Argparse.getattr args "github_repo")) in
          Done db' inserted updated
      end
  end.

End Discovery.

End seed_agents.

(** ** [database/migrate_phase4.py] *)

Module migrate_phase4.

Local Open Scope list_scope.

(** A call into the outside world returns a value or raises an exception,
    which is kept as the text [str(e)]. *)
Definition Raises (A : Type) : Type := (string + A)%type.

(** What the environment answers to the calls of [run_migration]. *)
Record Env : Type := mkEnv {
  DATABASE_URL : option string;            (* os.getenv('DATABASE_URL') *)
  connect : Raises unit;                   (* psycopg2.connect(DATABASE_URL) *)
  cursor : Raises unit;                    (* conn.cursor() *)
  read_schema : Raises string;             (* open('schema_phase4.sql').read() *)
  execute_schema : string -> Raises unit;  (* cur.execute(schema_sql) *)
  commit : Raises unit;                    (* conn.commit() *)
  execute_verify : Raises unit;            (* cur.execute(SELECT COUNT( * ) ...) *)
  fetch_count : Raises Z;                  (* cur.fetchone()[0] *)
  close_cursor : Raises unit;              (* cur.close() *)
  close_connection : Raises unit           (* conn.close() *)
}.

(** The body of a [try]: a computation that prints and may raise. *)
Definition Try (A : Type) : Type := list string -> Raises A * list string.

Definition ret {A : Type} (a : A) : Try A := fun out => (inr a, out).

Definition bind {A B : Type} (m : Try A) (k : A -> Try B) : Try B :=
  fun out =>
    match m out with
    | (inr a, out') => k a out'
    | (inl e, out') => (inl e, out')
    end.

Definition print (line : string) : Try unit := fun out => (inr tt, out ++ [line]).

Definition call {A : Type} (r : Raises A) : Try A := fun out => (r, out).

Notation "x <- m ;; k" := (bind m (fun x => k))
  (at level 100, m at next level, right associativity).
Notation "m ;;; k" := (bind m (fun _ => k))
  (at level 100, right associativity).

Fixpoint repeat_string (c : string) (n : nat) : string :=
  match n with
  | O => EmptyString
  | S n' => c +:+ repeat_string c n'
  end.

(** ["="*60] *)
Definition rule : string := repeat_string "=" 60.

Definition nl : string := PyStr.newline.

(** The statements between [try:] and [except Exception as e:]. *)
Definition try_body (env : Env) : Try bool :=
  call (connect env) ;;;
  call (cursor env) ;;;
  schema_sql <- call (read_schema env) ;;
  print (nl +:+ "  Executing Phase 4 schema...") ;;;
  call (execute_schema env schema_sql) ;;;
  call (commit env) ;;;
  print "  ✓ agent_workflows table created" ;;;
  print "  ✓ workflow_approvals table created" ;;;
  print "  ✓ agent_code_generations table created" ;;;
  print "  ✓ agent_executions updated (workflow_id, step_order columns)" ;;;
  print "  ✓ Indexes created" ;;;
  print "  ✓ Triggers created" ;;;
  call (execute_verify env) ;;;
  table_count <- call (fetch_count env) ;;
  (if table_count =? 3
   then print (nl +:+ "  ✓ Migration successful! (" +:+ PyStr.str_of_int table_count
               +:+ "/3 tables confirmed)")
   else print (nl +:+ "  ⚠ Warning: Only " +:+ PyStr.str_of_int table_count
               +:+ "/3 tables found")) ;;;
  call (close_cursor env) ;;;
  call (close_connection env) ;;;
  print (nl +:+ rule) ;;;
  print "CEO Agent system ready for orchestration!" ;;;
  print (rule +:+ nl) ;;;
  ret true.

(** [not DATABASE_URL] *)
Definition url_missing (env : Env) : bool :=
  match DATABASE_URL env with
  | None | Some EmptyString => true
  | Some _ => false
  end.

(** [run_migration()]: the value returned and the lines printed. *)
Definition run_migration (env : Env) : bool * list string :=
  let header := [ nl +:+ rule; "Phase 4 Migration: CEO Agent Orchestration"; rule ] in
  if url_missing env
  then (false,
        header ++ [ "  ERROR: DATABASE_URL not found in environment";
                    "  Please set DATABASE_URL in backend/.env" ])
  else match try_body env header with
       | (inr result, out) => (result, out)
       | (inl e, out) => (false, out ++ [ nl +:+ "  ERROR: Migration failed: " +:+ e ])
       end.

End migrate_phase4.

(** * Specification vocabulary *)

Local Open Scope list_scope.

(** Two namespaces that differ at most in [dry_run]. *)
Definition agree_off_dry_run (ns1 ns2 : gmap string Argparse.Value) : Prop :=
  forall k : string, k <> "dry_run" -> ns1 !! k = ns2 !! k.

(** Two outcomes of parsing that differ at most in [dry_run]. *)
Definition same_outcome (o1 o2 : Argparse.Outcome) : Prop :=
  match o1, o2 with
  | Argparse.Parsed ns1, Argparse.Parsed ns2 => agree_off_dry_run ns1 ns2
  | Argparse.HelpExit, Argparse.HelpExit => True
  | Argparse.UsageError e1, Argparse.UsageError e2 => e1 = e2
  | _, _ => False
  end.

Definition same_step (s1 s2 : Argparse.Step) : Prop :=
  match s1, s2 with
  | Argparse.Continue ns1, Argparse.Continue ns2 => agree_off_dry_run ns1 ns2
  | Argparse.Stop o1, Argparse.Stop o2 => o1 = o2
  | _, _ => False
  end.

(** [flag] is, as written, an option string of a [store_true] action
    with destination [dest]. *)
Definition store_true_flag (p : Argparse.Parser) (flag dest : string) : bool :=
  negb (String.eqb flag "--") &&
  match Argparse.parse_optional p flag with
  | inr (Some (Some a, option_string, None)) =>
      String.eqb option_string flag && String.eqb (Argparse.dest a) dest &&
      match Argparse.action a with
      | Argparse.StoreTrue => true
      | _ => false
      end
  | _ => false
  end.

(** The parser accepts the argument strings: [parse_args] returns. *)
Definition accepts (p : Argparse.Parser) (argv : list string) : Prop :=
  exists args, Argparse.parse_args p argv = Argparse.Parsed args.

Definition no_dashes (toks : list Argparse.Token) : Prop :=
  Forall (fun t => snd t <> Argparse.PDashes) toks.

(** The statements after parsing never read [args.dry_run]. *)
Definition body_ignores_dry_run (s : Agents.Script) : Prop :=
  forall ns1 ns2, agree_off_dry_run ns1 ns2 -> Agents.body s ns1 = Agents.body s ns2.

(** The three flags every agent is invoked with. *)
Definition general_flag (a : string) : Prop :=
  a = "--dry-run" \/ a = "-v" \/ a = "--verbose".

Definition general_flags_declared (s : Agents.Script) : bool :=
  store_true_flag (Agents.parser s) "--dry-run" "dry_run"
  && store_true_flag (Agents.parser s) "-v" "verbose"
  && store_true_flag (Agents.parser s) "--verbose" "verbose".

Definition placeholder_line : string :=
  "⚠️  Placeholder agent - implementation pending".

(** The prints of a run announce the placeholder and list capabilities. *)
Definition announces_capabilities (printed : list string) : bool :=
  existsb (String.eqb placeholder_line) printed
  && existsb (PyStr.contains "Capabilities:") printed.

(** The unique constraint on [(project_id, name)]. *)
Definition keys_unique {Other : Type} (db : Database.DB Other) : Prop :=
  List.NoDup (List.map Database.agent_key (Database.agents db)).

(** The constraints of the [agents] table: the unique pair, the primary
    key, and identifiers that were all generated before [next_id]. *)
Definition registry_ok {Other : Type} (db : Database.DB Other) : Prop :=
  keys_unique db
  /\ List.NoDup (List.map Database.agent_id (Database.agents db))
  /\ Forall (fun r => (Database.agent_id r < Database.next_id db)%nat)
            (Database.agents db).

(** The rows of an agent name within a project. *)
Definition rows_named {Other : Type} (project_id : nat) (name : string)
    (db : Database.DB Other) : list (Database.AgentRow Other) :=
  List.filter (Database.has_key project_id name) (Database.agents db).

(** The row holds the six fields [seed_agents] writes from a descriptor. *)
Definition carries {Other : Type} (d : seed_core_agents.AgentData)
    (r : Database.AgentRow Other) : Prop :=
  Database.agent_description r = seed_core_agents.description d
  /\ Database.agent_script_path r = seed_core_agents.script_path d
  /\ Database.agent_language r = seed_core_agents.language d
  /\ Database.agent_parameters r = seed_core_agents.parameters d
  /\ Database.agent_tags r = seed_core_agents.tags d
  /\ Database.agent_default_schedule r = seed_core_agents.default_schedule d.

(** The columns outside the [SET] list of [seed_agents]. *)
Definition unmanaged_kept {Other : Type} (r r' : Database.AgentRow Other) : Prop :=
  Database.agent_id r' = Database.agent_id r
  /\ Database.agent_project_id r' = Database.agent_project_id r
  /\ Database.agent_name r' = Database.agent_name r
  /\ Database.agent_other r' = Database.agent_other r.

(** The columns outside the [DO UPDATE SET] list of [seed_database]. *)
Definition unmanaged_kept_discovery {Other : Type}
    (r r' : Database.AgentRow Other) : Prop :=
  unmanaged_kept r r'
  /\ Database.agent_language r' = Database.agent_language r
  /\ Database.agent_default_schedule r' = Database.agent_default_schedule r.

(** Every row of [db] is still there in [db'], at its place, and [kept]
    relates the old row to the new one. *)
Definition rows_kept {Other : Type}
    (kept : Database.AgentRow Other -> Database.AgentRow Other -> Prop)
    (db db' : Database.DB Other) : Prop :=
  Forall2 kept (Database.agents db)
          (List.firstn (List.length (Database.agents db)) (Database.agents db')).

(** The shape both seed loops share: rewrite the rows in place with
    [rewrite existing] when a row of the key exists, insert [row]
    otherwise. *)
Definition upsert_rows {Other : Type}
    (rewrite : Database.AgentRow Other -> Database.AgentRow Other -> Database.AgentRow Other)
    (row : nat -> Database.AgentRow Other) (name : string) (project_id : nat)
    (db : Database.DB Other) : Database.DB Other :=
  match Database.select_agent name project_id db with
  | Some existing =>
      Database.mkDB (Database.projects db)
        (List.map (rewrite existing) (Database.agents db)) (Database.next_id db)
  | None => Database.insert_agent row db
  end.

(** A row of the key is in the table. *)
Definition present {Other : Type} (project_id : nat) (name : string)
    (db : Database.DB Other) : Prop :=
  In (project_id, name) (List.map Database.agent_key (Database.agents db)).

(** What the [UPDATE ... WHERE id = existing.id] of [seed_agents] does to
    one row. *)
Definition rewrite_by_id {Other : Type} (d : seed_core_agents.AgentData)
    (e r : Database.AgentRow Other) : Database.AgentRow Other :=
  if Nat.eqb (Database.agent_id r) (Database.agent_id e)
  then seed_core_agents.set_managed d r else r.

(** What the [DO UPDATE] of a conflict in [seed_database] does to one
    row. *)
Definition rewrite_by_key {Other : Type} (project_id : nat) (a : seed_agents.Agent)
    (e r : Database.AgentRow Other) : Database.AgentRow Other :=
  if Database.has_key project_id (seed_agents.name a) r
  then seed_agents.set_managed a r else r.

(** An empty database. *)
Definition empty_db : Database.DB unit := Database.mkDB [] [] O.

(** The database after [seed_agents] ran twice on [db] with a catalogue
    of the one descriptor [d]. *)
Definition seeded_twice (d : seed_core_agents.AgentData) (db : Database.DB unit)
  : option (Database.DB unit) :=
  match seed_core_agents.seed_agents_from tt [d] (Some "postgresql://db") db with
  | seed_core_agents.Seeded db1 _ _ =>
      match seed_core_agents.seed_agents_from tt [d] (Some "postgresql://db") db1 with
      | seed_core_agents.Seeded db2 _ _ => Some db2
      | _ => None
      end
  | _ => None
  end.

(** The first descriptor of [CORE_AGENTS] with another cost estimate. *)
Definition architect_planner_data : seed_core_agents.AgentData :=
  List.hd (seed_core_agents.mkAgentData "" "" "" "" [] [] None 0 [])
          seed_core_agents.CORE_AGENTS.

Definition with_cost (cost : Z) (d : seed_core_agents.AgentData)
  : seed_core_agents.AgentData :=
  seed_core_agents.mkAgentData
    (seed_core_agents.name d) (seed_core_agents.description d)
    (seed_core_agents.script_path d) (seed_core_agents.language d)
    (seed_core_agents.parameters d) (seed_core_agents.tags d)
    (seed_core_agents.default_schedule d) cost
    (seed_core_agents.capabilities d).

(** A registry where another project already holds an agent of the name
    [architect-planner]. *)
Definition other_project_db : Database.DB unit :=
  Database.mkDB
    [Database.mkProjectRow 0 "marketing-content-portal" None "Marketing content portal"]
    [Database.mkAgentRow 1 0 "architect-planner" "Plans campaigns"
       "scripts/architect_planner.py" "python" [] ["python"] None tt]
    2.

(** A registry whose one agent row was edited by hand: its unmanaged
    column holds a note and its description is out of date. *)
Definition edited_db : Database.DB string :=
  Database.mkDB
    [Database.mkProjectRow 0 "Mission Control" None "Core worker agents"]
    [Database.mkAgentRow 1 0 "architect-planner" "An old description"
       "agents/architect_planner.py" "python" [] [] None "pinned by the operator"]
    2.

(** A file system without any of the known scripts but one. *)
Definition one_script_fs (path : string) : option string :=
  if String.eqb path "/srv/portal/scripts/health_monitor.py"
  then Some "import os" else None.

(** A registry of the discovery seed whose one row was edited by hand. *)
Definition edited_portal_db : Database.DB string :=
  Database.mkDB
    [Database.mkProjectRow 0 "marketing-content-portal" None "Portal"]
    [Database.mkAgentRow 1 0 "health-monitor" "An old description"
       "scripts/health_monitor.py" "bash" [] [] (Some "0 * * * *")
       "pinned by the operator"]
    2.

(** The file name of a script path. *)
Definition basename (p : string) : string :=
  PyStr.drop (Z.to_nat (PyStr.rfind "/" p + 1)) p.

(** The script of [agents/] a registry entry points to. *)
Definition script_of (agent : seed_core_agents.AgentData) : option Agents.Script :=
  option_map snd
    (List.find (fun entry => String.eqb (fst entry)
                               (basename (seed_core_agents.script_path agent)))
               Agents.fleet).

(** The parser knows the flag, as written or as an abbreviation. *)
Definition recognises (p : Argparse.Parser) (flag : string) : bool :=
  match Argparse.parse_optional p flag with
  | inr (Some (Some _, _, _)) => true
  | _ => false
  end.

(** The flags of an agent's parameter template that the parser of its
    script does not know. *)
Definition unrecognised_flags (agent : seed_core_agents.AgentData) : list string :=
  let flags := List.map fst (seed_core_agents.parameters agent) in
  match script_of agent with
  | Some s => List.filter (fun flag => negb (recognises (Agents.parser s) flag)) flags
  | None => flags
  end.

(** An exception was raised. *)
Definition raised {A : Type} (r : migrate_phase4.Raises A) : Prop :=
  exists e, r = inl e.

(** Some call between [try:] and [except] raises when it is reached. *)
Definition try_block_raises (env : migrate_phase4.Env) : Prop :=
  raised (migrate_phase4.connect env)
  \/ raised (migrate_phase4.cursor env)
  \/ raised (migrate_phase4.read_schema env)
  \/ (exists sql, migrate_phase4.read_schema env = inr sql
                  /\ raised (migrate_phase4.execute_schema env sql))
  \/ raised (migrate_phase4.commit env)
  \/ raised (migrate_phase4.execute_verify env)
  \/ raised (migrate_phase4.fetch_count env)
  \/ raised (migrate_phase4.close_cursor env)
  \/ raised (migrate_phase4.close_connection env).

(** An environment where the database cannot be reached: the variable is
    set and the schema would execute, but [psycopg2.connect] raises. *)
Definition unreachable_database : migrate_phase4.Env :=
  migrate_phase4.mkEnv (Some "postgresql://localhost/mission_control")
    (inl "connection refused") (inr tt) (inr "CREATE TABLE agent_workflows ();")
    (fun _ => inr tt) (inr tt) (inr tt) (inr 3) (inr tt) (inr tt).

(** An environment where every call succeeds and the verification finds
    [n] tables. *)
Definition healthy_database (n : Z) : migrate_phase4.Env :=
  migrate_phase4.mkEnv (Some "postgresql://localhost/mission_control")
    (inr tt) (inr tt) (inr "CREATE TABLE agent_workflows ();")
    (fun _ => inr tt) (inr tt) (inr tt) (inr n) (inr tt) (inr tt).

(** The row holds the four fields the [DO UPDATE SET] list of
    [seed_database] writes from a discovered agent. *)
Definition carries_discovery {Other : Type} (a : seed_agents.Agent)
    (r : Database.AgentRow Other) : Prop :=
  Database.agent_description r = seed_agents.agent_description a
  /\ Database.agent_script_path r = seed_agents.script_path a
  /\ Database.agent_parameters r = seed_agents.agent_parameters a
  /\ Database.agent_tags r = seed_agents.agent_tags a.

(** The name, script path and language [discover_agents] gives the agent
    of each known script. *)
Definition known_agents : list (string * string * string) :=
  [ ("deploy-preflight", "scripts/deploy_preflight.py", "python");
    ("health-monitor", "scripts/health_monitor.py", "python");
    ("diagnose-search", "scripts/diagnose_search.py", "python");
    ("import-orchestrator", "scripts/import_orchestrator.py", "python");
    ("maintenance-orchestrator", "scripts/maintenance_orchestrator.py", "python");
    ("dedup-content", "scripts/dedup_content.py", "python") ].

(** Every row of the agent's key in the project carries its fields, and
    there is one. *)
Definition settled {Other : Type} (project_id : nat) (a : seed_agents.Agent)
    (db : Database.DB Other) : Prop :=
  present project_id (seed_agents.name a) db
  /\ forall r, In r (Database.agents db) ->
       Database.agent_key r = (project_id, seed_agents.name a) ->
       carries_discovery a r.

(** A registry that holds a project of the discovery seed with a
    repository, and no agent. *)
Definition portal_db : Database.DB string :=
  Database.mkDB
    [Database.mkProjectRow 0 "marketing-content-portal"
       (Some "https://github.com/acme/portal") "Portal";
     Database.mkProjectRow 1 "Mission Control"
       (Some "https://github.com/acme/mission-control") "Agents"]
    [] 2.

(** A registry with the rows of two projects: one agent of the portal and
    one agent of another project that has the name of a core agent. *)
Definition two_projects_db : Database.DB string :=
  Database.mkDB
    [Database.mkProjectRow 0 "marketing-content-portal" None "Portal";
     Database.mkProjectRow 1 "Mission Control" None "Agents"]
    [Database.mkAgentRow 2 0 "architect-planner" "Plans campaigns"
       "scripts/architect_planner.py" "python" [] ["python"] None "portal row";
     Database.mkAgentRow 3 1 "health-monitor" "Watches the agents"
       "agents/health_monitor.py" "python" [] [] None "core row"]
    4.

(** The line that closes a migration that went through. *)
Definition ready_line : string := "CEO Agent system ready for orchestration!".

(** The six lines that report the schema objects as created. *)
Definition created_lines : list string :=
  [ "  ✓ agent_workflows table created";
    "  ✓ workflow_approvals table created";
    "  ✓ agent_code_generations table created";
    "  ✓ agent_executions updated (workflow_id, step_order columns)";
    "  ✓ Indexes created";
    "  ✓ Triggers created" ].

(** The two lines the verification can print for a count. *)
Definition confirmed_line (table_count : Z) : string :=
  migrate_phase4.nl +:+ "  ✓ Migration successful! (" +:+ PyStr.str_of_int table_count
  +:+ "/3 tables confirmed)".

Definition warning_line (table_count : Z) : string :=
  migrate_phase4.nl +:+ "  ⚠ Warning: Only " +:+ PyStr.str_of_int table_count
  +:+ "/3 tables found".

(** The schema was read, executed and committed without an exception. *)
Definition schema_committed (env : migrate_phase4.Env) : Prop :=
  migrate_phase4.url_missing env = false
  /\ migrate_phase4.connect env = inr tt
  /\ migrate_phase4.cursor env = inr tt
  /\ exists sql, migrate_phase4.read_schema env = inr sql
                 /\ migrate_phase4.execute_schema env sql = inr tt
                 /\ migrate_phase4.commit env = inr tt.

(** An environment where the schema commits but the verification query
    raises. *)
Definition verification_fails : migrate_phase4.Env :=
  migrate_phase4.mkEnv (Some "postgresql://localhost/mission_control")
    (inr tt) (inr tt) (inr "CREATE TABLE agent_workflows ();")
    (fun _ => inr tt) (inr tt) (inl "permission denied") (inr 3) (inr tt) (inr tt).

(** The exception the [try] block leaves with: that of the first call, in
    the order of the statements, that raises. *)
Definition first_exception (env : migrate_phase4.Env) : option string :=
  let next {A : Type} (r : migrate_phase4.Raises A) (k : A -> option string) :=
    match r with
    | inl e => Some e
    | inr a => k a
    end in
  next (migrate_phase4.connect env) (fun _ =>
  next (migrate_phase4.cursor env) (fun _ =>
  next (migrate_phase4.read_schema env) (fun sql =>
  next (migrate_phase4.execute_schema env sql) (fun _ =>
  next (migrate_phase4.commit env) (fun _ =>
  next (migrate_phase4.execute_verify env) (fun _ =>
  next (migrate_phase4.fetch_count env) (fun _ =>
  next (migrate_phase4.close_cursor env) (fun _ =>
  next (migrate_phase4.close_connection env) (fun _ => None))))))))).

(** The tags [extract_agent_metadata] can give, in the order it appends
    them. *)
Definition tag_vocabulary : list string :=
  [ "python"; "enrichment"; "import"; "debugging"; "monitoring"; "deployment";
    "orchestration"; "ai-powered" ].

(** No character of the string is a quote. *)
Fixpoint unquoted (s : string) : bool :=
  match s with
  | EmptyString => true
  | String c t => negb (seed_agents.is_quote c) && unquoted t
  end.

(** [part] is a piece of [whole]: some text, then [part], then some text. *)
Definition occurs_in (part whole : string) : Prop :=
  exists before after, whole = before +:+ part +:+ after.

(** The tag that the file name of a known script implies, by the name of
    the agent. *)
Definition name_tags : list (string * string) :=
  [ ("deploy-preflight", "deployment");
    ("health-monitor", "monitoring");
    ("diagnose-search", "debugging");
    ("import-orchestrator", "import");
    ("maintenance-orchestrator", "orchestration") ].

(** One of the two spellings of the verbose flag. *)
Definition verbose_flag (a : string) : bool :=
  String.eqb a "-v" || String.eqb a "--verbose".

(** The attribute a general flag sets. *)
Definition general_flag_dest (a : string) : string :=
  if String.eqb a "--dry-run" then "dry_run" else "verbose".

(** The models every script offers as choices of [--model]. *)
Definition model_choices : list string := ["gpt-4o-mini"; "gpt-5-mini"; "gpt-5.2"].

(** No option string of the parser holds an equals sign. *)
Definition plain_option_strings (p : Argparse.Parser) : bool :=
  forallb (fun oa => negb (PyStr.contains "=" (fst oa))) (Argparse.option_string_actions p).

(** The script declares [option_string] as an option that stores one value
    of the given type and choices under [dest]. *)
Definition declares_store (s : Agents.Script) (option_string dest : string)
    (ty : Argparse.ArgType) (choices : option (list string)) : Prop :=
  plain_option_strings (Agents.parser s) = true
  /\ exists a,
       Argparse.lookup_option option_string
         (Argparse.option_string_actions (Agents.parser s)) = Some a
       /\ Argparse.dest a = dest
       /\ Argparse.action a = Argparse.Store ty choices.

(** The options of the fleet that take an integer: the file, the option
    string and the attribute. *)
Definition int_options : list (string * string * string) :=
  [ ("pdf_ocr_parser.py", "--dpi", "dpi");
    ("webflow_api_specialist.py", "--limit", "limit");
    ("webflow_api_specialist.py", "--offset", "offset") ].

(** What storing one value does to the run. *)
Definition stored (a : Argparse.Argument) (o v : string)
    (ns : gmap string Argparse.Value) : Argparse.Outcome :=
  match Argparse.get_value a o v with
  | inl e => Argparse.UsageError e
  | inr x => Argparse.Parsed (<[Argparse.dest a := x]> ns)
  end.

(** * Facts about the parser *)

Section ParserFacts.

Import Argparse.

Variable p : Parser.

Lemma agree_refl ns : agree_off_dry_run ns ns.
Proof. intros k _. reflexivity. Qed.

Lemma agree_insert ns1 ns2 k v :
  agree_off_dry_run ns1 ns2 -> agree_off_dry_run (<[k:=v]> ns1) (<[k:=v]> ns2).
Proof.
  intros H j Hj. destruct (decide (k = j)) as [->|Hne].
  - rewrite !lookup_insert_eq. reflexivity.
  - rewrite !lookup_insert_ne by exact Hne. apply H, Hj.
Qed.

Lemma agree_insert_dry_run ns v :
  agree_off_dry_run (<["dry_run":=v]> ns) ns.
Proof. intros j Hj. rewrite lookup_insert_ne by congruence. reflexivity. Qed.

Lemma agree_getattr ns1 ns2 k :
  agree_off_dry_run ns1 ns2 -> k <> "dry_run" -> getattr ns1 k = getattr ns2 k.
Proof. intros H Hk. unfold getattr. rewrite (H k Hk). reflexivity. Qed.

Lemma take_action_agree ns1 ns2 t :
  agree_off_dry_run ns1 ns2 -> same_step (take_action ns1 t) (take_action ns2 t).
Proof.
  intros H. destruct t as [[a args] o]. unfold take_action.
  destruct (action a); simpl.
  - destruct args as [|x [|y l]]; simpl; try reflexivity.
    destruct (get_value a o x); simpl; [reflexivity|]. apply agree_insert, H.
  - apply agree_insert, H.
  - reflexivity.
Qed.

Lemma take_actions_agree ts : forall ns1 ns2,
  agree_off_dry_run ns1 ns2 -> same_step (take_actions ns1 ts) (take_actions ns2 ts).
Proof.
  induction ts as [|t ts IH]; intros ns1 ns2 H; simpl; [exact H|].
  pose proof (take_action_agree ns1 ns2 t H) as Ht.
  destruct (take_action ns1 t), (take_action ns2 t); simpl in Ht; try contradiction.
  - apply IH, Ht.
  - exact Ht.
Qed.

Lemma finish_agree ns1 ns2 ex :
  agree_off_dry_run ns1 ns2 -> same_outcome (finish ns1 ex) (finish ns2 ex).
Proof. intros H. destruct ex; simpl; [exact H|reflexivity]. Qed.

Lemma same_outcome_refl o : same_outcome o o.
Proof. destruct o; simpl; auto using agree_refl. Qed.

(** Parsing never reads the namespace: runs from namespaces that agree
    off [dry_run] end alike. *)
Lemma consume_agree_bounded (n : nat) : forall toks ns1 ns2 ex,
  (length toks <= n)%nat -> agree_off_dry_run ns1 ns2 ->
  same_outcome (consume p toks ns1 ex) (consume p toks ns2 ex).
Proof.
  induction n as [|n IH]; intros toks ns1 ns2 ex Hlen H.
  - destruct toks; [|simpl in Hlen; lia]. apply finish_agree, H.
  - destruct toks as [|[s pat] rest]; [apply finish_agree, H|].
    simpl in Hlen.
    assert (Hrest : forall a b e, agree_off_dry_run a b ->
              same_outcome (consume p rest a e) (consume p rest b e)).
    { intros; apply IH; [lia|assumption]. }
    destruct pat as [| |[[[a|] o] e]]; simpl; try (apply Hrest, H).
    destruct (option_plan p a o e) as [err|[pre [[a' o'] [e'|]]]]; [reflexivity| |].
    + pose proof (take_actions_agree (pre ++ [(a', [e'], o')]) ns1 ns2 H) as Ht.
      destruct (take_actions ns1 _), (take_actions ns2 _); simpl in Ht;
        try contradiction; [apply Hrest, Ht | subst; apply same_outcome_refl].
    + destruct (takes_argument a').
      * destruct rest as [|[v [| |t]] rest']; try reflexivity.
        pose proof (take_actions_agree (pre ++ [(a', [v], o')]) ns1 ns2 H) as Ht.
        destruct (take_actions ns1 _), (take_actions ns2 _); simpl in Ht;
          try contradiction; [|subst; apply same_outcome_refl].
        apply IH; [simpl in Hlen; lia|exact Ht].
      * pose proof (take_actions_agree (pre ++ [(a', [], o')]) ns1 ns2 H) as Ht.
        destruct (take_actions ns1 _), (take_actions ns2 _); simpl in Ht;
          try contradiction; [apply Hrest, Ht | subst; apply same_outcome_refl].
Qed.

Lemma consume_agree toks ns1 ns2 ex :
  agree_off_dry_run ns1 ns2 ->
  same_outcome (consume p toks ns1 ex) (consume p toks ns2 ex).
Proof. apply (consume_agree_bounded (length toks)). lia. Qed.

Lemma take_action_not_parsed ns t ns' : take_action ns t <> Stop (Parsed ns').
Proof.
  destruct t as [[a args] o]. unfold take_action.
  destruct (action a); try discriminate.
  destruct args as [|x [|y l]]; try discriminate.
  destruct (get_value a o x); discriminate.
Qed.

Lemma take_actions_not_parsed ts : forall ns ns', take_actions ns ts <> Stop (Parsed ns').
Proof.
  induction ts as [|t ts IH]; intros ns ns'; simpl; [discriminate|].
  destruct (take_action ns t) eqn:Ht; [apply IH|].
  intros Heq. apply (take_action_not_parsed ns t ns'). congruence.
Qed.

Lemma snoc_not_nil {A : Type} (l : list A) (x : A) : l ++ [x] <> [].
Proof. destruct l; discriminate. Qed.

(** A run that returns a namespace left no argument string over. *)
Lemma consume_parsed_extras_bounded (n : nat) : forall toks ns ex ns',
  (length toks <= n)%nat -> consume p toks ns ex = Parsed ns' -> ex = [].
Proof.
  induction n as [|n IH]; intros toks ns ex ns' Hlen Hrun.
  - destruct toks; [|simpl in Hlen; lia].
    destruct ex; [reflexivity|discriminate].
  - destruct toks as [|[s pat] rest]; [destruct ex; [reflexivity|discriminate]|].
    simpl in Hlen.
    assert (Hextra : forall a, consume p rest a (ex ++ [s]) = Parsed ns' -> ex = []).
    { intros a Ha. apply IH in Ha; [|lia]. destruct (snoc_not_nil _ _ Ha). }
    destruct pat as [| |[[[a|] o] e]]; simpl in Hrun; eauto.
    destruct (option_plan p a o e) as [err|[pre [[a' o'] [e'|]]]]; [discriminate| |].
    + destruct (take_actions ns _) eqn:Ht.
      * eapply IH; [|exact Hrun]; lia.
      * subst. destruct (take_actions_not_parsed _ _ _ Ht).
    + destruct (takes_argument a').
      * destruct rest as [|[v [| |t]] rest']; try discriminate.
        destruct (take_actions ns _) eqn:Ht.
        -- eapply IH; [|exact Hrun]; simpl in Hlen; lia.
        -- subst. destruct (take_actions_not_parsed _ _ _ Ht).
      * destruct (take_actions ns _) eqn:Ht.
        -- eapply IH; [|exact Hrun]; lia.
        -- subst. destruct (take_actions_not_parsed _ _ _ Ht).
Qed.

Lemma consume_parsed_extras toks ns ex ns' :
  consume p toks ns ex = Parsed ns' -> ex = [].
Proof. apply (consume_parsed_extras_bounded (length toks)). lia. Qed.

(** After an accepted list of argument strings, parsing goes on from the
    namespace it returned. *)
Lemma consume_app_bounded (n : nat) : forall toks1 toks2 ns ns1,
  (length toks1 <= n)%nat -> consume p toks1 ns [] = Parsed ns1 ->
  consume p (toks1 ++ toks2) ns [] = consume p toks2 ns1 [].
Proof.
  induction n as [|n IH]; intros toks1 toks2 ns ns1 Hlen Hrun.
  - destruct toks1; [|simpl in Hlen; lia].
    simpl in Hrun. injection Hrun as ->. reflexivity.
  - destruct toks1 as [|[s pat] rest];
      [simpl in Hrun; injection Hrun as ->; reflexivity|].
    simpl in Hlen.
    assert (Hextra : forall a, consume p rest a ([] ++ [s]) = Parsed ns1 -> False).
    { intros a Ha. apply consume_parsed_extras in Ha. discriminate. }
    destruct pat as [| |[[[a|] o] e]]; simpl in Hrun |- *;
      try (exfalso; eapply Hextra; exact Hrun).
    destruct (option_plan p a o e) as [err|[pre [[a' o'] [e'|]]]]; [discriminate| |].
    + destruct (take_actions ns _) eqn:Ht.
      * apply IH; [lia|exact Hrun].
      * subst. destruct (take_actions_not_parsed _ _ _ Ht).
    + destruct (takes_argument a').
      * destruct rest as [|[v [| |t]] rest']; try discriminate. simpl.
        destruct (take_actions ns _) eqn:Ht.
        -- apply IH; [simpl in Hlen; lia|exact Hrun].
        -- subst. destruct (take_actions_not_parsed _ _ _ Ht).
      * destruct (take_actions ns _) eqn:Ht.
        -- apply IH; [lia|exact Hrun].
        -- subst. destruct (take_actions_not_parsed _ _ _ Ht).
Qed.

Lemma consume_app toks1 toks2 ns ns1 :
  consume p toks1 ns [] = Parsed ns1 ->
  consume p (toks1 ++ toks2) ns [] = consume p toks2 ns1 [].
Proof. apply (consume_app_bounded (length toks1)). lia. Qed.

(** An accepted list holds no [--]. *)
Lemma consume_parsed_no_dashes_bounded (n : nat) : forall toks ns ex ns',
  (length toks <= n)%nat -> consume p toks ns ex = Parsed ns' -> no_dashes toks.
Proof.
  induction n as [|n IH]; intros toks ns ex ns' Hlen Hrun.
  - destruct toks; [constructor|simpl in Hlen; lia].
  - destruct toks as [|[s pat] rest]; [constructor|].
    simpl in Hlen.
    assert (Hextra : forall a, consume p rest a (ex ++ [s]) = Parsed ns' -> False).
    { intros a Ha. apply consume_parsed_extras in Ha. destruct (snoc_not_nil _ _ Ha). }
    destruct pat as [| |[[[a|] o] e]]; simpl in Hrun;
      try (exfalso; eapply Hextra; exact Hrun).
    destruct (option_plan p a o e) as [err|[pre [[a' o'] [e'|]]]]; [discriminate| |].
    + destruct (take_actions ns _) eqn:Ht.
      * constructor; [discriminate|]. eapply IH; [|exact Hrun]; lia.
      * subst. destruct (take_actions_not_parsed _ _ _ Ht).
    + destruct (takes_argument a').
      * destruct rest as [|[v [| |t]] rest']; try discriminate.
        destruct (take_actions ns _) eqn:Ht.
        -- constructor; [discriminate|]. constructor; [discriminate|].
           eapply IH; [|exact Hrun]; simpl in Hlen; lia.
        -- subst. destruct (take_actions_not_parsed _ _ _ Ht).
      * destruct (take_actions ns _) eqn:Ht.
        -- constructor; [discriminate|]. eapply IH; [|exact Hrun]; lia.
        -- subst. destruct (take_actions_not_parsed _ _ _ Ht).
Qed.

Lemma consume_parsed_no_dashes toks ns ex ns' :
  consume p toks ns ex = Parsed ns' -> no_dashes toks.
Proof. apply (consume_parsed_no_dashes_bounded (length toks)). lia. Qed.

(** In an accepted list, what comes before an option string is accepted
    on its own. *)
Lemma consume_prefix_bounded (n : nat) : forall toks1 s t toks2 ns nsF,
  (length toks1 <= n)%nat ->
  consume p (toks1 ++ (s, POpt t) :: toks2) ns [] = Parsed nsF ->
  exists ns1, consume p toks1 ns [] = Parsed ns1.
Proof.
  induction n as [|n IH]; intros toks1 s0 t0 toks2 ns nsF Hlen Hrun.
  - destruct toks1; [|simpl in Hlen; lia]. exists ns. reflexivity.
  - destruct toks1 as [|[s pat] rest]; [exists ns; reflexivity|].
    simpl in Hlen. rewrite <- app_comm_cons in Hrun.
    assert (Hextra : forall a l, consume p l a ([] ++ [s]) = Parsed nsF -> False).
    { intros a l Ha. apply consume_parsed_extras in Ha. discriminate. }
    destruct pat as [| |[[[a|] o] e]]; simpl in Hrun |- *;
      try (exfalso; eapply Hextra; exact Hrun).
    destruct (option_plan p a o e) as [err|[pre [[a' o'] [e'|]]]]; [discriminate| |].
    + destruct (take_actions ns _) eqn:Ht.
      * eapply IH; [|exact Hrun]; lia.
      * subst. destruct (take_actions_not_parsed _ _ _ Ht).
    + destruct (takes_argument a').
      * destruct rest as [|[v pat'] rest']; simpl in Hrun; [discriminate|].
        destruct pat' as [| |t]; try discriminate.
        destruct (take_actions ns _) eqn:Ht.
        -- eapply IH; [|exact Hrun]; simpl in Hlen; lia.
        -- subst. destruct (take_actions_not_parsed _ _ _ Ht).
      * destruct (take_actions ns _) eqn:Ht.
        -- eapply IH; [|exact Hrun]; lia.
        -- subst. destruct (take_actions_not_parsed _ _ _ Ht).
Qed.

Lemma consume_prefix toks1 s t toks2 ns nsF :
  consume p (toks1 ++ (s, POpt t) :: toks2) ns [] = Parsed nsF ->
  exists ns1, consume p toks1 ns [] = Parsed ns1.
Proof. apply (consume_prefix_bounded (length toks1)). lia. Qed.

(** Classification goes string by string until the first [--]. *)
Lemma classify_app l1 : forall toks1 l2,
  classify p l1 = inr toks1 -> no_dashes toks1 ->
  classify p (l1 ++ l2) =
  match classify p l2 with
  | inl e => inl e
  | inr toks2 => inr (toks1 ++ toks2)
  end.
Proof.
  induction l1 as [|s l1 IH]; intros toks1 l2 Hc Hnd; simpl in Hc |- *.
  - inversion Hc; subst. destruct (classify p l2); reflexivity.
  - destruct (String.eqb s "--").
    + inversion Hc; subst. inversion Hnd; subst. simpl in *. congruence.
    + destruct (parse_optional p s) as [e|o]; [discriminate|].
      destruct (classify p l1) as [e|toks] eqn:Hl1; [discriminate|].
      inversion Hc; subst. inversion Hnd; subst.
      rewrite (IH toks l2 eq_refl) by assumption.
      destruct (classify p l2); reflexivity.
Qed.

Lemma classify_app_inv l1 : forall l2 toks,
  classify p (l1 ++ l2) = inr toks -> no_dashes toks ->
  exists toks1 toks2,
    classify p l1 = inr toks1 /\ classify p l2 = inr toks2 /\ toks = toks1 ++ toks2.
Proof.
  induction l1 as [|s l1 IH]; intros l2 toks Hc Hnd; simpl in Hc |- *.
  - exists [], toks. auto.
  - destruct (String.eqb s "--").
    + inversion Hc; subst. inversion Hnd; subst. simpl in *. congruence.
    + destruct (parse_optional p s) as [e|o]; [discriminate|].
      destruct (classify p (l1 ++ l2)) as [e|toks'] eqn:Hl; [discriminate|].
      inversion Hc; subst. inversion Hnd; subst.
      destruct (IH l2 toks' Hl) as (toks1 & toks2 & Hc1 & Hc2 & Heq); [assumption|].
      rewrite Hc1. subst toks'. eauto.
Qed.

(** How a [store_true] flag is classified and consumed. *)
Lemma store_true_flag_spec flag d :
  store_true_flag p flag d = true ->
  exists a, String.eqb flag "--" = false
            /\ parse_optional p flag = inr (Some (Some a, flag, None))
            /\ action a = StoreTrue /\ dest a = d.
Proof.
  unfold store_true_flag. intros H.
  apply andb_prop in H as [Hd H]. apply negb_true_iff in Hd.
  destruct (parse_optional p flag) as [e|[[[[a|] o] [e|]]|]]; try discriminate.
  apply andb_prop in H as [H Ha]. apply andb_prop in H as [Ho Hdest].
  apply String.eqb_eq in Ho. apply String.eqb_eq in Hdest. subst.
  exists a. destruct (action a); try discriminate. auto.
Qed.

Lemma consume_store_true s a toks ns ex :
  action a = StoreTrue ->
  consume p ((s, POpt (Some a, s, None)) :: toks) ns ex =
  consume p toks (<[dest a := VBool true]> ns) ex.
Proof.
  intros Ha. cbn [consume option_plan]. unfold takes_argument. rewrite Ha.
  cbn [app take_actions]. unfold take_action. rewrite Ha. reflexivity.
Qed.

End ParserFacts.

(** * The agent fleet *)

Section ScriptFacts.

Import Argparse Agents.

Ltac ignores_dry_run :=
  let ns1 := fresh "ns1" in let ns2 := fresh "ns2" in let H := fresh "H" in
  intros ns1 ns2 H; cbn [body snd];
  match goal with |- ?f ns1 = _ => unfold f end;
  repeat rewrite (agree_getattr ns1 ns2 _ H) by discriminate;
  reflexivity.

Lemma fleet_bodies_ignore_dry_run :
  Forall (fun entry => body_ignores_dry_run (snd entry)) fleet.
Proof.
  unfold fleet.
  repeat (constructor; [ignores_dry_run|]). constructor.
Qed.

Lemma fleet_general_flags :
  Forall (fun entry => general_flags_declared (snd entry) = true) fleet.
Proof.
  unfold fleet.
  repeat (constructor; [vm_compute; reflexivity|]). constructor.
Qed.

Lemma announces_in_second (before fixed rest : list string) :
  announces_capabilities fixed = true ->
  announces_capabilities (before ++ fixed ++ rest) = true.
Proof.
  unfold announces_capabilities. intros H.
  apply andb_prop in H as [H1 H2].
  rewrite !existsb_app, H1, H2, !orb_true_r. reflexivity.
Qed.

Lemma announces_in_last (before fixed : list string) :
  announces_capabilities fixed = true ->
  announces_capabilities (before ++ fixed) = true.
Proof.
  intros H. rewrite <- (app_nil_r fixed). apply announces_in_second, H.
Qed.

(** The notice and the capability list are printed outside every test
    on the arguments. *)
Ltac announces :=
  let args := fresh "args" in
  intros args; cbn [body snd];
  match goal with |- announces_capabilities (?f args) = true => unfold f end;
  first [ apply announces_in_second; vm_compute; reflexivity
        | apply announces_in_last; vm_compute; reflexivity ].

Lemma fleet_bodies_announce :
  Forall (fun entry => forall args, announces_capabilities (body (snd entry) args) = true)
         fleet.
Proof.
  unfold fleet.
  repeat (constructor; [announces|]). constructor.
Qed.

End ScriptFacts.

Section FleetFacts.

Import Argparse Agents.

Lemma accepts_nil p : accepts p [].
Proof. exists (initial_namespace p). reflexivity. Qed.

(** A list of [store_true] flags is accepted from any namespace. *)
Lemma store_true_flags_accepted p argv :
  Forall (fun f => exists d, store_true_flag p f d = true) argv ->
  exists toks, classify p argv = inr toks
               /\ forall ns, exists ns', consume p toks ns [] = Parsed ns'.
Proof.
  induction 1 as [|f argv [d Hf] _ (toks & Hc & Hrun)].
  - exists []. split; [reflexivity|]. intros ns. exists ns. reflexivity.
  - destruct (store_true_flag_spec p f d Hf) as (a & Hdash & Hopt & Ha & _).
    exists ((f, POpt (Some a, f, None)) :: toks). split.
    + simpl. rewrite Hdash, Hopt, Hc. reflexivity.
    + intros ns. rewrite consume_store_true by exact Ha. apply Hrun.
Qed.

Section OneScript.

Variable s : Script.
Hypothesis Hflag : store_true_flag (parser s) "--dry-run" "dry_run" = true.
Hypothesis Hbody : body_ignores_dry_run s.

Lemma main_same_outcome argv1 argv2 :
  same_outcome (parse_args (parser s) argv1) (parse_args (parser s) argv2) ->
  main s argv1 = main s argv2.
Proof.
  unfold main.
  destruct (parse_args (parser s) argv1), (parse_args (parser s) argv2);
    simpl; try contradiction; try reflexivity.
  - intros H. rewrite (Hbody _ _ H). reflexivity.
  - intros ->. reflexivity.
Qed.

(** [--dry-run] put where an accepted list ends changes nothing. *)
Lemma main_insert_dry_run before after :
  accepts (parser s) before ->
  main s (before ++ "--dry-run" :: after) = main s (before ++ after).
Proof.
  intros [ns1 Hacc]. apply main_same_outcome.
  unfold parse_args in *.
  destruct (classify (parser s) before) as [e|toks1] eqn:Hc1; [discriminate|].
  pose proof (consume_parsed_no_dashes _ _ _ _ _ Hacc) as Hnd.
  rewrite !(classify_app _ before toks1) by assumption.
  destruct (store_true_flag_spec _ _ _ Hflag) as (a & Hdash & Hopt & Ha & Hd).
  cbn [classify]. rewrite Hdash, Hopt.
  destruct (classify (parser s) after) as [e|toks2]; [reflexivity|].
  rewrite !(consume_app _ toks1 _ _ ns1) by exact Hacc.
  rewrite consume_store_true by exact Ha. rewrite Hd.
  apply consume_agree, agree_insert_dry_run.
Qed.

(** A [--dry-run] of an accepted list can be left out. *)
Lemma main_remove_dry_run before after :
  accepts (parser s) (before ++ "--dry-run" :: after) ->
  main s (before ++ after) = main s (before ++ "--dry-run" :: after).
Proof.
  intros [nsF Hacc]. symmetry. apply main_insert_dry_run.
  unfold accepts, parse_args in *.
  destruct (classify (parser s) (before ++ "--dry-run" :: after))
    as [e|toks] eqn:Hc; [discriminate|].
  pose proof (consume_parsed_no_dashes _ _ _ _ _ Hacc) as Hnd.
  destruct (classify_app_inv _ _ _ _ Hc Hnd) as (toks1 & toks2 & Hc1 & Hc2 & ->).
  rewrite Hc1.
  destruct (store_true_flag_spec _ _ _ Hflag) as (a & Hdash & Hopt & Ha & Hd).
  cbn [classify] in Hc2. rewrite Hdash, Hopt in Hc2.
  destruct (classify (parser s) after) as [e|toks2']; [discriminate|].
  injection Hc2 as <-.
  apply (consume_prefix _ _ _ _ _ _ _ Hacc).
Qed.

End OneScript.

Lemma fleet_entry (P : Script -> Prop) name s :
  Forall (fun entry => P (snd entry)) fleet -> In (name, s) fleet -> P s.
Proof.
  intros HF Hin. rewrite List.Forall_forall in HF. exact (HF (name, s) Hin).
Qed.

End FleetFacts.

(** C4: every one of the sixteen agent scripts accepts an invocation made
    only of the flags [--dry-run], [-v] and [--verbose], in any number
    and order: [parse_args] returns, and so [main] runs to its
    [return 0]. *)
Theorem C4_general_flags_accepted (name : string) (s : Agents.Script)
    (argv : list string) :
  In (name, s) Agents.fleet ->
  Forall general_flag argv ->
  exists args, Argparse.parse_args (Agents.parser s) argv = Argparse.Parsed args
               /\ Agents.main s argv = Agents.Returned (Agents.body s args) 0.
Proof.
  intros Hin Hflags.
  pose proof (fleet_entry (fun s => general_flags_declared s = true) name s
                fleet_general_flags Hin) as Hdecl.
  unfold general_flags_declared in Hdecl.
  apply andb_prop in Hdecl as [Hdecl Hverbose].
  apply andb_prop in Hdecl as [Hdry Hv].
  destruct (store_true_flags_accepted (Agents.parser s) argv) as (toks & Hc & Hrun).
  { eapply List.Forall_impl; [|exact Hflags].
    intros f [Hf|[Hf|Hf]]; subst f; eauto. }
  destruct (Hrun (Argparse.initial_namespace (Agents.parser s))) as [args Hargs].
  exists args.
  assert (Hparse : Argparse.parse_args (Agents.parser s) argv = Argparse.Parsed args).
  { unfold Argparse.parse_args. rewrite Hc. exact Hargs. }
  split; [exact Hparse|]. unfold Agents.main. rewrite Hparse. reflexivity.
Qed.

Lemma C4_witness :
  In ("pdf_ocr_parser.py",
      Agents.mkScript Agents.pdf_ocr_parser.parser Agents.pdf_ocr_parser.body)
     Agents.fleet
  /\ Forall general_flag ["--dry-run"; "-v"; "--verbose"]
  /\ exists args,
       Argparse.parse_args Agents.pdf_ocr_parser.parser ["--dry-run"; "-v"; "--verbose"]
       = Argparse.Parsed args.
Proof.
  assert (Hin : In ("pdf_ocr_parser.py",
                    Agents.mkScript Agents.pdf_ocr_parser.parser
                      Agents.pdf_ocr_parser.body) Agents.fleet).
  { unfold Agents.fleet. repeat (first [left; reflexivity | right]). }
  assert (Hfl : Forall general_flag ["--dry-run"; "-v"; "--verbose"]).
  { unfold general_flag. repeat (apply List.Forall_cons; [tauto|]). apply List.Forall_nil. }
  split; [exact Hin|]. split; [exact Hfl|].
  destruct (C4_general_flags_accepted _ _ _ Hin Hfl) as (args & Hparse & _).
  exists args. exact Hparse.
Defined.

(** C5: whenever the parser of an agent script accepts the argument
    list, [main] prints its placeholder notice and capability list and
    returns 0; the prints are all that runs, and the exit status of an
    accepted invocation is never non-zero. *)
Theorem C5_accepted_run_announces_and_returns_0 (name : string)
    (s : Agents.Script) (argv : list string) (args : gmap string Argparse.Value) :
  In (name, s) Agents.fleet ->
  Argparse.parse_args (Agents.parser s) argv = Argparse.Parsed args ->
  Agents.main s argv = Agents.Returned (Agents.body s args) 0
  /\ Agents.exit_status (Agents.main s argv) = 0%Z
  /\ announces_capabilities (Agents.body s args) = true.
Proof.
  intros Hin Hparse. unfold Agents.main. rewrite Hparse.
  split; [reflexivity|]. split; [reflexivity|].
  exact (fleet_entry
           (fun s => forall args, announces_capabilities (Agents.body s args) = true)
           name s fleet_bodies_announce Hin args).
Qed.

Lemma C5_witness :
  Agents.exit_status
    (Agents.main
       (Agents.mkScript Agents.code_executioner.parser Agents.code_executioner.body)
       ["--language"; "typescript"; "--include-tests"; "-v"]) = 0%Z.
Proof.
  assert (Hin : In ("code_executioner.py",
                    Agents.mkScript Agents.code_executioner.parser
                      Agents.code_executioner.body) Agents.fleet).
  { unfold Agents.fleet. repeat (first [left; reflexivity | right]). }
  destruct (Argparse.parse_args Agents.code_executioner.parser
              ["--language"; "typescript"; "--include-tests"; "-v"])
    as [args| |e] eqn:Hparse; [|vm_compute in Hparse; discriminate Hparse..].
  exact (proj1 (proj2 (C5_accepted_run_announces_and_returns_0 _ _ _ args Hin Hparse))).
Defined.

(** C9: for every agent script, a [--dry-run] added to an accepted
    argument list (in front, at the end, or wherever a part of the list
    that is accepted on its own ends) or removed from one leaves the run
    as it was: the same lines printed, the same exit status. *)
Theorem C9_dry_run_unobservable (name : string) (s : Agents.Script) :
  In (name, s) Agents.fleet ->
  (forall argv, accepts (Agents.parser s) argv ->
     Agents.main s ("--dry-run" :: argv) = Agents.main s argv)
  /\ (forall argv, accepts (Agents.parser s) argv ->
        Agents.main s (argv ++ ["--dry-run"]) = Agents.main s argv)
  /\ (forall before after,
        accepts (Agents.parser s) (before ++ after) ->
        accepts (Agents.parser s) before ->
        Agents.main s (before ++ "--dry-run" :: after) = Agents.main s (before ++ after))
  /\ (forall before after,
        accepts (Agents.parser s) (before ++ "--dry-run" :: after) ->
        Agents.main s (before ++ after) = Agents.main s (before ++ "--dry-run" :: after)).
Proof.
  intros Hin.
  pose proof (fleet_entry (fun s => general_flags_declared s = true) name s
                fleet_general_flags Hin) as Hdecl.
  unfold general_flags_declared in Hdecl.
  apply andb_prop in Hdecl as [Hdecl _]. apply andb_prop in Hdecl as [Hdry _].
  pose proof (fleet_entry body_ignores_dry_run name s
                fleet_bodies_ignore_dry_run Hin) as Hbody.
  repeat split.
  - intros argv _. apply (main_insert_dry_run s Hdry Hbody [] argv), accepts_nil.
  - intros argv Hacc.
    rewrite <- (app_nil_r argv) at 2.
    apply (main_insert_dry_run s Hdry Hbody argv [] Hacc).
  - intros before after _ Hacc. apply (main_insert_dry_run s Hdry Hbody _ _ Hacc).
  - intros before after Hacc. apply (main_remove_dry_run s Hdry Hbody _ _ Hacc).
Qed.

(** C9 at [architect_planner.py]: [--dry-run] put between two accepted
    parts of an argument list, and taken out again. *)
Lemma C9_witness :
  In ("architect_planner.py",
      Agents.mkScript Agents.architect_planner.parser Agents.architect_planner.body)
     Agents.fleet
  /\ accepts Agents.architect_planner.parser ["--project-name"; "Portal"; "-v"]
  /\ Agents.main
       (Agents.mkScript Agents.architect_planner.parser Agents.architect_planner.body)
       (["--project-name"; "Portal"] ++ "--dry-run" :: ["-v"])
     = Agents.main
         (Agents.mkScript Agents.architect_planner.parser Agents.architect_planner.body)
         (["--project-name"; "Portal"] ++ ["-v"]).
Proof.
  assert (Hin : In ("architect_planner.py",
                    Agents.mkScript Agents.architect_planner.parser
                      Agents.architect_planner.body) Agents.fleet).
  { unfold Agents.fleet. left. reflexivity. }
  assert (Hall : accepts Agents.architect_planner.parser
                   (["--project-name"; "Portal"] ++ ["-v"])).
  { eexists. vm_compute. reflexivity. }
  assert (Hbefore : accepts Agents.architect_planner.parser ["--project-name"; "Portal"]).
  { eexists. vm_compute. reflexivity. }
  split; [exact Hin|]. split; [exact Hall|].
  exact (proj1 (proj2 (proj2 (C9_dry_run_unobservable _ _ Hin)))
           ["--project-name"; "Portal"] ["-v"] Hall Hbefore).
Defined.

(** * Parameter templates against the parsers *)

(** C2 does not hold of the code: for fourteen of the sixteen registered
    agents the parameter template names flags that the parser of the
    agent's script does not know.  For [architect-planner] these are
    [--project-type], [--complexity] and [--output-format], for
    [code-executioner] it is [--max-files]; an invocation that passes
    such a flag ends in a usage error with exit status 2. *)
Theorem C2_template_flags_rejected :
  List.map (fun agent => (seed_core_agents.name agent, unrecognised_flags agent))
           seed_core_agents.CORE_AGENTS
  = [ ("architect-planner", ["--project-type"; "--complexity"; "--output-format"]);
      ("code-executioner", ["--max-files"]);
      ("ui-ux-designer", ["--framework"; "--accessibility"]);
      ("pdf-ocr-parser", []);
      ("research-scientist", ["--depth"; "--include-comparisons"; "--sources"]);
      ("google-api-specialist", ["--api-type"; "--auth-method"]);
      ("meta-api-specialist", ["--api-version"]);
      ("groundtruth-api-specialist", ["--data-type"; "--sync-mode"]);
      ("hubspot-api-specialist", []);
      ("webflow-api-specialist", ["--auth-method"]);
      ("database-architect", ["--database"; "--provider"]);
      ("deployment-engineer", ["--ci-provider"]);
      ("qa-tester", ["--coverage-threshold"]);
      ("technical-writer", ["--format"]);
      ("security-auditor", ["--severity-threshold"; "--compliance"]);
      ("performance-optimizer", ["--metric"]) ]
  /\ Agents.main
       (Agents.mkScript Agents.architect_planner.parser Agents.architect_planner.body)
       ["--project-type"; "web-app"]
     = Agents.UsageFailure
         (Argparse.UnrecognizedArguments ["--project-type"; "web-app"])
  /\ Agents.exit_status
       (Agents.main
          (Agents.mkScript Agents.code_executioner.parser Agents.code_executioner.body)
          ["--max-files"; "10"]) = 2%Z.
Proof. repeat split; vm_compute; reflexivity. Qed.

(** * The registry seeds *)

Section TableFacts.

Import Database.
Context {Other : Type}.
Implicit Types (db : DB Other) (r : AgentRow Other) (l : list (AgentRow Other)).

Lemma has_key_true pid name r :
  has_key pid name r = true <-> agent_key r = (pid, name).
Proof.
  unfold has_key, agent_key. rewrite andb_true_iff, Nat.eqb_eq, String.eqb_eq.
  split; [intros [-> ->]; reflexivity | intros H; inversion H; auto].
Qed.

Lemma filter_key_absent pid name l :
  ~ In (pid, name) (List.map agent_key l) -> List.filter (has_key pid name) l = [].
Proof.
  induction l as [|x l IH]; simpl; [reflexivity|]. intros Hn.
  destruct (has_key pid name x) eqn:Hk.
  - apply has_key_true in Hk. exfalso. apply Hn. left. exact Hk.
  - apply IH. intros Hin. apply Hn. right. exact Hin.
Qed.

(** Under the unique constraint, the row [fetchone] returns is the only
    row of its key. *)
Lemma filter_unique pid name l e :
  List.NoDup (List.map agent_key l) ->
  List.find (has_key pid name) l = Some e ->
  List.filter (has_key pid name) l = [e].
Proof.
  induction l as [|x l IH]; simpl; [discriminate|]. intros Hnd Hfind.
  inversion Hnd as [|k ks Hnotin Hnd']; subst.
  destruct (has_key pid name x) eqn:Hk.
  - injection Hfind as ->. f_equal. apply filter_key_absent.
    apply has_key_true in Hk. rewrite <- Hk. exact Hnotin.
  - apply IH; assumption.
Qed.

Lemma find_some_key pid name l e :
  List.find (has_key pid name) l = Some e -> In e l /\ agent_key e = (pid, name).
Proof.
  intros H. apply List.find_some in H as [Hin Hk]. split; [exact Hin|].
  apply has_key_true, Hk.
Qed.

Lemma find_none_key pid name l :
  List.find (has_key pid name) l = None -> ~ In (pid, name) (List.map agent_key l).
Proof.
  intros H Hin. apply in_map_iff in Hin as (r & Hk & Hr).
  pose proof (List.find_none _ _ H r Hr) as Hf.
  apply has_key_true in Hk. congruence.
Qed.

(** Rewriting rows without touching their key or identifier. *)
Lemma map_keys_preserved (g : AgentRow Other -> AgentRow Other) l :
  (forall r, agent_key (g r) = agent_key r) ->
  List.map agent_key (List.map g l) = List.map agent_key l.
Proof.
  intros Hg. rewrite List.map_map. apply List.map_ext. exact Hg.
Qed.

Lemma map_ids_preserved (g : AgentRow Other -> AgentRow Other) l :
  (forall r, agent_id (g r) = agent_id r) ->
  List.map agent_id (List.map g l) = List.map agent_id l.
Proof.
  intros Hg. rewrite List.map_map. apply List.map_ext. exact Hg.
Qed.

Lemma filter_map_key (g : AgentRow Other -> AgentRow Other) pid name l :
  (forall r, agent_key (g r) = agent_key r) ->
  List.filter (has_key pid name) (List.map g l)
  = List.map g (List.filter (has_key pid name) l).
Proof.
  intros Hg. induction l as [|x l IH]; simpl; [reflexivity|].
  assert (Hx : has_key pid name (g x) = has_key pid name x).
  { unfold has_key. pose proof (Hg x) as Hk. unfold agent_key in Hk.
    inversion Hk as [[Hp Hn]]. rewrite Hp, Hn. reflexivity. }
  rewrite Hx. destruct (has_key pid name x); simpl; rewrite IH; reflexivity.
Qed.

Lemma Forall2_kept_map (kept : AgentRow Other -> AgentRow Other -> Prop)
    (g : AgentRow Other -> AgentRow Other) l :
  (forall r, kept r (g r)) -> Forall2 kept l (List.map g l).
Proof. intros Hg. induction l; simpl; constructor; auto. Qed.

Lemma firstn_length_app {A : Type} (l k : list A) :
  List.firstn (List.length l) (l ++ k) = l.
Proof.
  induction l as [|x l IH]; simpl; [destruct k; reflexivity|]. rewrite IH. reflexivity.
Qed.

Lemma rows_kept_refl (kept : AgentRow Other -> AgentRow Other -> Prop) db :
  (forall r, kept r r) -> rows_kept kept db db.
Proof.
  intros Hr. unfold rows_kept. rewrite List.firstn_all.
  induction (agents db); constructor; auto.
Qed.

Lemma rows_kept_trans (kept : AgentRow Other -> AgentRow Other -> Prop) db1 db2 db3 :
  (forall a b c, kept a b -> kept b c -> kept a c) ->
  rows_kept kept db1 db2 -> rows_kept kept db2 db3 -> rows_kept kept db1 db3.
Proof.
  intros Htr. unfold rows_kept.
  generalize (agents db1) (agents db2) (agents db3). clear db1 db2 db3.
  induction l as [|x l IH]; intros l2 l3 H12 H23; simpl in *; [constructor|].
  destruct l2 as [|y l2]; [inversion H12|]. simpl in H12, H23.
  destruct l3 as [|z l3]; [inversion H23|]. simpl in H23.
  inversion H12; subst. inversion H23; subst.
  constructor; [eauto|]. eapply IH; eassumption.
Qed.

End TableFacts.

Section UpsertFacts.

Import Database.
Context {Other : Type}.
Implicit Types (db : DB Other) (r e : AgentRow Other).

Variable kept : AgentRow Other -> AgentRow Other -> Prop.
Variable rewrite_row : AgentRow Other -> AgentRow Other -> AgentRow Other.
Variable row : nat -> AgentRow Other.
Variable name : string.
Variable pid : nat.

Hypothesis kept_refl : forall r, kept r r.
Hypothesis rewrite_key : forall e r, agent_key (rewrite_row e r) = agent_key r.
Hypothesis rewrite_kept : forall e r, kept r (rewrite_row e r).
Hypothesis row_key : forall id, agent_key (row id) = (pid, name).

Local Abbreviation upsert := (upsert_rows rewrite_row row name pid).

Lemma select_agent_present n p db :
  select_agent n p db <> None <-> present p n db.
Proof.
  unfold select_agent, present. split.
  - destruct (List.find _ _) as [e|] eqn:Hf; [intros _|congruence].
    apply find_some_key in Hf as [Hin Hk]. rewrite <- Hk. apply in_map, Hin.
  - intros Hin Hf. apply find_none_key in Hf. contradiction.
Qed.

Lemma upsert_projects db : projects (upsert db) = projects db.
Proof. unfold upsert_rows. destruct (select_agent _ _ _); reflexivity. Qed.

Lemma upsert_kept db : rows_kept kept db (upsert db).
Proof.
  unfold rows_kept, upsert_rows. destruct (select_agent _ _ _) as [e|]; simpl.
  - rewrite <- (List.length_map (rewrite_row e)), List.firstn_all.
    apply Forall2_kept_map, rewrite_kept.
  - rewrite firstn_length_app. induction (agents db); constructor; auto.
Qed.

Lemma upsert_keys_unique db : keys_unique db -> keys_unique (upsert db).
Proof.
  unfold keys_unique, upsert_rows, select_agent.
  destruct (List.find _ _) as [e|] eqn:Hf; simpl; intros Hnd.
  - rewrite map_keys_preserved by apply rewrite_key. exact Hnd.
  - rewrite List.map_app. simpl. rewrite row_key.
    apply List.NoDup_app; [exact Hnd|repeat constructor; intros []|].
    intros k Hk [<-|[]]. revert Hk. apply find_none_key, Hf.
Qed.

Lemma upsert_present db : present pid name (upsert db).
Proof.
  unfold upsert_rows, present.
  destruct (select_agent _ _ _) as [e|] eqn:Hs; simpl.
  - rewrite map_keys_preserved by apply rewrite_key.
    apply select_agent_present. congruence.
  - rewrite List.map_app, in_app_iff. right. simpl. rewrite row_key. auto.
Qed.

Lemma upsert_present_mono p n db : present p n db -> present p n (upsert db).
Proof.
  unfold upsert_rows, present. destruct (select_agent _ _ _) as [e|]; simpl.
  - rewrite map_keys_preserved by apply rewrite_key. auto.
  - rewrite List.map_app, in_app_iff. auto.
Qed.

(** When the row exists, no row is added and no key changes. *)
Lemma upsert_existing db :
  present pid name db ->
  List.map agent_key (agents (upsert db)) = List.map agent_key (agents db)
  /\ select_agent name pid db <> None.
Proof.
  intros Hp. apply select_agent_present in Hp. split; [|exact Hp].
  unfold upsert_rows. destruct (select_agent _ _ _) as [e|]; [|congruence]. simpl.
  apply map_keys_preserved, rewrite_key.
Qed.

End UpsertFacts.

Section CoreSeedFacts.

Import Database seed_core_agents.
Context {Other : Type}.
Variable other_default : Other.
Variable pid : nat.
Implicit Types (db : DB Other) (r e : AgentRow Other) (d : AgentData)
  (st : DB Other * nat * nat).

Lemma seed_agent_db st d :
  fst (fst (seed_agent other_default pid st d))
  = upsert_rows (rewrite_by_id d) (new_row other_default pid d) (name d) pid
      (fst (fst st)).
Proof.
  destruct st as [[db c] u]. unfold seed_agent, upsert_rows. simpl.
  destruct (select_agent _ _ _); reflexivity.
Qed.

Lemma rewrite_by_id_key d e r : agent_key (rewrite_by_id d e r) = agent_key r.
Proof. unfold rewrite_by_id. destruct (Nat.eqb _ _); reflexivity. Qed.

Lemma rewrite_by_id_id d e r : agent_id (rewrite_by_id d e r) = agent_id r.
Proof. unfold rewrite_by_id. destruct (Nat.eqb _ _); reflexivity. Qed.

Lemma rewrite_by_id_kept d e r : unmanaged_kept r (rewrite_by_id d e r).
Proof.
  unfold rewrite_by_id, unmanaged_kept. destruct (Nat.eqb _ _); simpl; auto.
Qed.

Lemma unmanaged_kept_refl r : unmanaged_kept r r.
Proof. unfold unmanaged_kept. auto. Qed.

Lemma unmanaged_kept_trans (a b c : AgentRow Other) :
  unmanaged_kept a b -> unmanaged_kept b c -> unmanaged_kept a c.
Proof. unfold unmanaged_kept. intuition congruence. Qed.

Lemma new_row_key d id : agent_key (new_row other_default pid d id) = (pid, name d).
Proof. reflexivity. Qed.

Lemma set_managed_carries d r : carries d (set_managed d r).
Proof. unfold carries. simpl. auto 6. Qed.

Lemma new_row_carries d id : carries d (new_row other_default pid d id).
Proof. unfold carries. simpl. auto 6. Qed.

(** A primary key tells rows of the table apart. *)
Lemma ids_injective (l : list (AgentRow Other)) a b :
  List.NoDup (List.map agent_id l) -> In a l -> In b l ->
  agent_id a = agent_id b -> a = b.
Proof.
  induction l as [|x l IH]; simpl; [contradiction|]. intros Hnd Ha Hb Hid.
  inversion Hnd as [|i ids Hnotin Hnd']; subst.
  destruct Ha as [ ->|Ha], Hb as [ ->|Hb]; auto.
  - exfalso. apply Hnotin. rewrite Hid. apply in_map, Hb.
  - exfalso. apply Hnotin. rewrite <- Hid. apply in_map, Ha.
Qed.

Lemma seed_agent_ok st d :
  registry_ok (fst (fst st)) ->
  registry_ok (fst (fst (seed_agent other_default pid st d))).
Proof.
  intros (Hk & Hi & Hf). rewrite seed_agent_db. split; [|split].
  - apply upsert_keys_unique; auto using rewrite_by_id_key, new_row_key.
  - unfold upsert_rows. destruct (select_agent _ _ _) as [e|]; simpl.
    + rewrite map_ids_preserved by apply rewrite_by_id_id. exact Hi.
    + rewrite List.map_app. simpl. apply List.NoDup_app; [exact Hi|repeat constructor; intros []|].
      intros i Hin [ <-|[]]. apply in_map_iff in Hin as (r & Hr & Hin).
      rewrite List.Forall_forall in Hf. specialize (Hf r Hin). lia.
  - unfold upsert_rows. destruct (select_agent _ _ _) as [e|]; simpl.
    + rewrite List.Forall_forall in *. intros r Hin.
      apply in_map_iff in Hin as (r0 & <- & Hin). rewrite rewrite_by_id_id. auto.
    + apply List.Forall_app. split.
      * eapply List.Forall_impl; [|exact Hf]. simpl. intros; lia.
      * constructor; [simpl; lia|constructor].
Qed.

(** After its turn in the loop, a descriptor has exactly one row, and the
    row carries its fields. *)
Lemma seed_agent_row st d :
  registry_ok (fst (fst st)) ->
  exists r, rows_named pid (name d) (fst (fst (seed_agent other_default pid st d))) = [r]
            /\ carries d r.
Proof.
  intros (Hk & Hi & Hf). rewrite seed_agent_db.
  unfold rows_named, upsert_rows, select_agent.
  destruct (List.find _ _) as [e|] eqn:Hfind; simpl.
  - rewrite filter_map_key by apply rewrite_by_id_key.
    rewrite (filter_unique _ _ _ e Hk Hfind). simpl.
    exists (rewrite_by_id d e e). split; [reflexivity|].
    unfold rewrite_by_id. rewrite Nat.eqb_refl. apply set_managed_carries.
  - rewrite List.filter_app, (filter_key_absent pid (name d)) by
      (apply find_none_key; exact Hfind).
    simpl. unfold has_key at 1. simpl. rewrite Nat.eqb_refl, String.eqb_refl. simpl.
    eexists. split; [reflexivity|]. apply new_row_carries.
Qed.

(** The turn of another descriptor leaves the rows of this name alone. *)
Lemma seed_agent_other_rows st d n :
  registry_ok (fst (fst st)) -> n <> name d ->
  rows_named pid n (fst (fst (seed_agent other_default pid st d)))
  = rows_named pid n (fst (fst st)).
Proof.
  intros (Hk & Hi & Hf) Hn. rewrite seed_agent_db.
  unfold rows_named, upsert_rows, select_agent.
  destruct (List.find _ _) as [e|] eqn:Hfind; simpl.
  - rewrite filter_map_key by apply rewrite_by_id_key.
    apply find_some_key in Hfind as [Hein Hekey].
    rewrite <- (List.map_id (List.filter _ _)) at 2.
    apply List.map_ext_in. intros r Hr.
    apply List.filter_In in Hr as [Hrin Hrkey]. apply has_key_true in Hrkey.
    unfold rewrite_by_id. destruct (Nat.eqb _ _) eqn:Hid; [|reflexivity].
    apply Nat.eqb_eq in Hid.
    assert (r = e) by (eapply ids_injective; eassumption). subst r.
    rewrite Hekey in Hrkey. inversion Hrkey. congruence.
  - rewrite List.filter_app. simpl. unfold has_key at 2. simpl.
    destruct (String.eqb (name d) n) eqn:Heq.
    + apply String.eqb_eq in Heq. congruence.
    + rewrite andb_false_r. apply List.app_nil_r.
Qed.

Lemma fold_ok cat : forall st,
  registry_ok (fst (fst st)) ->
  registry_ok (fst (fst (fold_left (seed_agent other_default pid) cat st))).
Proof.
  induction cat as [|d cat IH]; intros st Hok; simpl; [exact Hok|].
  apply IH, seed_agent_ok, Hok.
Qed.

Lemma fold_other_rows cat : forall st n,
  registry_ok (fst (fst st)) -> ~ In n (List.map name cat) ->
  rows_named pid n (fst (fst (fold_left (seed_agent other_default pid) cat st)))
  = rows_named pid n (fst (fst st)).
Proof.
  induction cat as [|d cat IH]; intros st n Hok Hn; simpl; [reflexivity|].
  simpl in Hn. rewrite IH; [|apply seed_agent_ok, Hok|tauto].
  apply seed_agent_other_rows; [exact Hok|]. intros ->. tauto.
Qed.

(** After the loop, every descriptor of a catalogue without repeated
    names has exactly one row, and it carries the descriptor's fields. *)
Lemma fold_rows cat : forall st,
  registry_ok (fst (fst st)) -> List.NoDup (List.map name cat) ->
  forall d, In d cat ->
  exists r, rows_named pid (name d)
              (fst (fst (fold_left (seed_agent other_default pid) cat st))) = [r]
            /\ carries d r.
Proof.
  induction cat as [|d0 cat IH]; intros st Hok Hnd d Hin; simpl in *; [contradiction|].
  inversion Hnd as [|n ns Hnotin Hnd']; subst.
  destruct Hin as [ ->|Hin].
  - rewrite fold_other_rows; [|apply seed_agent_ok, Hok|exact Hnotin].
    apply seed_agent_row, Hok.
  - apply IH; [apply seed_agent_ok, Hok|exact Hnd'|exact Hin].
Qed.

Lemma fold_kept cat : forall st,
  rows_kept unmanaged_kept (fst (fst st))
    (fst (fst (fold_left (seed_agent other_default pid) cat st))).
Proof.
  induction cat as [|d cat IH]; intros st; simpl.
  - apply rows_kept_refl, unmanaged_kept_refl.
  - eapply rows_kept_trans; [apply unmanaged_kept_trans| |apply IH].
    rewrite seed_agent_db.
    apply upsert_kept; auto using unmanaged_kept_refl, rewrite_by_id_kept.
Qed.

Lemma fold_keys_unique cat : forall st,
  keys_unique (fst (fst st)) ->
  keys_unique (fst (fst (fold_left (seed_agent other_default pid) cat st))).
Proof.
  induction cat as [|d cat IH]; intros st Hk; simpl; [exact Hk|].
  apply IH. rewrite seed_agent_db.
  apply upsert_keys_unique; auto using rewrite_by_id_key, new_row_key.
Qed.

Lemma fold_projects cat : forall st,
  projects (fst (fst (fold_left (seed_agent other_default pid) cat st)))
  = projects (fst (fst st)).
Proof.
  induction cat as [|d cat IH]; intros st; simpl; [reflexivity|].
  rewrite IH, seed_agent_db. apply upsert_projects.
Qed.

Lemma fold_present_mono cat : forall st p n,
  present p n (fst (fst st)) ->
  present p n (fst (fst (fold_left (seed_agent other_default pid) cat st))).
Proof.
  induction cat as [|d cat IH]; intros st p n Hp; simpl; [exact Hp|].
  apply IH. rewrite seed_agent_db.
  apply upsert_present_mono; auto using rewrite_by_id_key.
Qed.

Lemma fold_present cat : forall st d,
  In d cat ->
  present pid (name d) (fst (fst (fold_left (seed_agent other_default pid) cat st))).
Proof.
  induction cat as [|d0 cat IH]; intros st d Hin; simpl in *; [contradiction|].
  destruct Hin as [ ->|Hin]; [|apply IH, Hin].
  apply fold_present_mono. rewrite seed_agent_db.
  apply upsert_present; auto using rewrite_by_id_key, new_row_key.
Qed.

(** When every descriptor already has its row, the loop only updates. *)
Lemma fold_existing cat : forall st,
  (forall d, In d cat -> present pid (name d) (fst (fst st))) ->
  let st' := fold_left (seed_agent other_default pid) cat st in
  List.map agent_key (agents (fst (fst st'))) = List.map agent_key (agents (fst (fst st)))
  /\ snd (fst st') = snd (fst st)
  /\ snd st' = (snd st + List.length cat)%nat.
Proof.
  induction cat as [|d cat IH]; intros st Hp; simpl; [auto with arith|].
  assert (Hd : present pid (name d) (fst (fst st))) by (apply Hp; left; reflexivity).
  destruct (upsert_existing (rewrite_by_id d) (new_row other_default pid d)
              (name d) pid (rewrite_by_id_key d) (fst (fst st)) Hd) as [Hkeys Hsel].
  rewrite <- seed_agent_db in Hkeys.
  destruct (IH (seed_agent other_default pid st d)) as (Hk & Hc & Hu).
  { intros d' Hin. unfold present. rewrite Hkeys. apply Hp. right. exact Hin. }
  rewrite Hk, Hkeys, Hc, Hu. split; [reflexivity|].
  destruct st as [[db c] u]. unfold seed_agent. simpl in *.
  destruct (select_agent _ _ _); [simpl; split; [reflexivity|lia]|congruence].
Qed.

End CoreSeedFacts.

Section SeedTheorems.

Import Database.
Context {Other : Type}.
Implicit Types (db : DB Other).

Lemma find_map_preserved {A : Type} (f : A -> bool) (g : A -> A) (l : list A) :
  (forall x, f (g x) = f x) ->
  List.find f (List.map g l) = option_map g (List.find f l).
Proof.
  intros Hg. induction l as [|x l IH]; simpl; [reflexivity|].
  rewrite Hg. destruct (f x); [reflexivity|exact IH].
Qed.

Lemma find_app_none {A : Type} (f : A -> bool) (l k : list A) :
  List.find f l = None -> List.find f (l ++ k) = List.find f k.
Proof.
  induction l as [|x l IH]; simpl; [reflexivity|].
  destruct (f x); [discriminate|exact IH].
Qed.

Lemma upsert_project_agents n g d b db :
  agents (fst (upsert_project n g d b db)) = agents db.
Proof. unfold upsert_project. destruct (select_project n db); reflexivity. Qed.

Lemma upsert_project_ok n g d b db :
  registry_ok db -> registry_ok (fst (upsert_project n g d b db)).
Proof.
  unfold registry_ok, keys_unique, upsert_project.
  destruct (select_project n db); simpl; [tauto|].
  intros (Hk & Hi & Hf). repeat split; try assumption.
  eapply List.Forall_impl; [|exact Hf]. simpl. intros; lia.
Qed.

(** The project [upsert_project] returns is the one a later lookup by
    name finds. *)
Lemma upsert_project_selected n g d b db :
  exists prow, select_project n (fst (upsert_project n g d b db)) = Some prow
               /\ project_id prow = snd (upsert_project n g d b db).
Proof.
  unfold upsert_project, select_project.
  destruct (List.find _ (projects db)) as [existing|] eqn:Hf; simpl.
  - rewrite find_map_preserved.
    + rewrite Hf. simpl. eexists. split; [reflexivity|].
      destruct (String.eqb (project_name existing) n); reflexivity.
    + intros x. destruct (String.eqb (project_name x) n) eqn:Hx; simpl; rewrite Hx;
        reflexivity.
  - rewrite find_app_none by exact Hf. simpl. rewrite String.eqb_refl.
    eexists. split; reflexivity.
Qed.

Lemma upsert_project_existing n g d b db prow :
  select_project n db = Some prow ->
  snd (upsert_project n g d b db) = project_id prow.
Proof. unfold upsert_project. intros ->. reflexivity. Qed.

End SeedTheorems.

Section DiscoverySeedFacts.

Import Database seed_agents.
Context {Other : Type}.
Variable default_schedule_default : option string.
Variable other_default : Other.
Variable pid : nat.
Implicit Types (db : DB Other) (r e : AgentRow Other) (a : Agent)
  (st : DB Other * nat * nat).

Lemma upsert_agent_db st a :
  fst (fst (upsert_agent default_schedule_default other_default pid st a))
  = upsert_rows (rewrite_by_key pid a)
      (new_row default_schedule_default other_default pid a) (name a) pid
      (fst (fst st)).
Proof.
  destruct st as [[db c] u]. unfold upsert_agent, upsert_rows. simpl.
  destruct (select_agent _ _ _); reflexivity.
Qed.

Lemma rewrite_by_key_key a e r : agent_key (rewrite_by_key pid a e r) = agent_key r.
Proof. unfold rewrite_by_key. destruct (has_key _ _ _); reflexivity. Qed.

Lemma rewrite_by_key_kept a e r : unmanaged_kept_discovery r (rewrite_by_key pid a e r).
Proof.
  unfold rewrite_by_key, unmanaged_kept_discovery, unmanaged_kept.
  destruct (has_key _ _ _); simpl; auto 8.
Qed.

Lemma unmanaged_kept_discovery_refl r : unmanaged_kept_discovery r r.
Proof. unfold unmanaged_kept_discovery, unmanaged_kept. auto 8. Qed.

Lemma unmanaged_kept_discovery_trans (x y z : AgentRow Other) :
  unmanaged_kept_discovery x y -> unmanaged_kept_discovery y z ->
  unmanaged_kept_discovery x z.
Proof. unfold unmanaged_kept_discovery, unmanaged_kept. intuition congruence. Qed.

Lemma discovery_row_key a id :
  agent_key (new_row default_schedule_default other_default pid a id) = (pid, name a).
Proof. reflexivity. Qed.

Lemma discovery_fold_kept l : forall st,
  rows_kept unmanaged_kept_discovery (fst (fst st))
    (fst (fst (fold_left (upsert_agent default_schedule_default other_default pid) l st))).
Proof.
  induction l as [|a l IH]; intros st; simpl.
  - apply rows_kept_refl, unmanaged_kept_discovery_refl.
  - eapply rows_kept_trans; [apply unmanaged_kept_discovery_trans| |apply IH].
    rewrite upsert_agent_db.
    apply upsert_kept; auto using unmanaged_kept_discovery_refl, rewrite_by_key_kept.
Qed.

Lemma discovery_fold_keys_unique l : forall st,
  keys_unique (fst (fst st)) ->
  keys_unique
    (fst (fst (fold_left (upsert_agent default_schedule_default other_default pid) l st))).
Proof.
  induction l as [|a l IH]; intros st Hk; simpl; [exact Hk|].
  apply IH. rewrite upsert_agent_db.
  apply upsert_keys_unique; auto using rewrite_by_key_key, discovery_row_key.
Qed.

Lemma discovery_fold_existing l : forall st,
  (forall a, In a l -> present pid (name a) (fst (fst st))) ->
  let st' := fold_left (upsert_agent default_schedule_default other_default pid) l st in
  List.map agent_key (agents (fst (fst st'))) = List.map agent_key (agents (fst (fst st)))
  /\ snd (fst st') = snd (fst st).
Proof.
  induction l as [|a l IH]; intros st Hp; simpl; [auto|].
  assert (Ha : present pid (name a) (fst (fst st))) by (apply Hp; left; reflexivity).
  destruct (upsert_existing (rewrite_by_key pid a)
              (new_row default_schedule_default other_default pid a)
              (name a) pid (rewrite_by_key_key a) (fst (fst st)) Ha) as [Hkeys Hsel].
  rewrite <- upsert_agent_db in Hkeys.
  destruct (IH (upsert_agent default_schedule_default other_default pid st a))
    as (Hk & Hc).
  { intros a' Hin. unfold present. rewrite Hkeys. apply Hp. right. exact Hin. }
  rewrite Hk, Hkeys, Hc. split; [reflexivity|].
  destruct st as [[db c] u]. unfold upsert_agent. simpl in *.
  destruct (select_agent _ _ _); [reflexivity|congruence].
Qed.

End DiscoverySeedFacts.

Section SeedRuns.

Import Database.
Context {Other : Type}.
Implicit Types (db : DB Other).

Lemma seed_agents_from_inv (od : Other) cat url db db' c u :
  seed_core_agents.seed_agents_from od cat url db = seed_core_agents.Seeded db' c u ->
  let up := upsert_project "Mission Control" None
              "Core worker agents for CEO Agent orchestration" false db in
  fold_left (seed_core_agents.seed_agent od (snd up)) cat (fst up, O, O) = (db', c, u).
Proof.
  unfold seed_core_agents.seed_agents_from.
  destruct url as [[|ch url]|]; try discriminate.
  destruct (upsert_project _ _ _ _ db) as [db1 pid]. simpl.
  destruct (fold_left _ _ _) as [[db2 c'] u']. intros H. inversion H. reflexivity.
Qed.

End SeedRuns.

(** C1, as stated, fails on two counts.  The cost estimate of a
    descriptor is never written: descriptors that differ only in
    [estimated_cost] leave the same database, so no reading of the stored
    row returns the descriptor's cost.  And rows are told apart by project
    and name, not by name alone: where another project already holds an
    agent of that name, two rows of the name remain. *)
Lemma C1_counterexample :
  ~ (exists cost_of : Database.AgentRow unit -> Z,
       forall d db2 r,
         seeded_twice d empty_db = Some db2 ->
         In r (Database.agents db2) ->
         Database.agent_name r = seed_core_agents.name d ->
         cost_of r = seed_core_agents.estimated_cost d)
  /\ (exists db2,
        seeded_twice architect_planner_data other_project_db = Some db2
        /\ List.length
             (List.filter (fun r => String.eqb (Database.agent_name r) "architect-planner")
                          (Database.agents db2)) = 2%nat).
Proof.
  split.
  - intros [cost_of H].
    destruct (seeded_twice architect_planner_data empty_db) as [db2|] eqn:Hs;
      [|vm_compute in Hs; discriminate Hs].
    assert (Hs' : seeded_twice (with_cost 99 architect_planner_data) empty_db = Some db2).
    { rewrite <- Hs. vm_compute. reflexivity. }
    assert (Hrow : exists r, In r (Database.agents db2)
                             /\ Database.agent_name r = "architect-planner").
    { vm_compute in Hs. injection Hs as <-. eexists. split; [left; reflexivity|reflexivity]. }
    destruct Hrow as (r & Hin & Hname).
    pose proof (H architect_planner_data db2 r Hs Hin Hname) as H1.
    pose proof (H (with_cost 99 architect_planner_data) db2 r Hs' Hin Hname) as H2.
    rewrite H1 in H2. vm_compute in H2. discriminate H2.
  - eexists. split; [vm_compute; reflexivity|]. vm_compute. reflexivity.
Qed.

(** C1, amended: seeding a catalogue and then seeding again (the same
    descriptors, or descriptors of the same names with new values) leaves,
    for every descriptor of the second run, exactly one row of its name in
    the Mission Control project, and that row carries the description,
    script_path, language, parameters, tags and default_schedule of the
    second run: the last writer wins.  The second run creates no row.
    The cost estimate is not stored. *)
Theorem C1_reseeding_last_writer_wins {Other : Type} (other_default : Other)
    (first second : list seed_core_agents.AgentData) (url : option string)
    (db db1 db2 : Database.DB Other) (c1 u1 c2 u2 : nat) :
  registry_ok db ->
  List.NoDup (List.map seed_core_agents.name second) ->
  seed_core_agents.seed_agents_from other_default first url db
  = seed_core_agents.Seeded db1 c1 u1 ->
  seed_core_agents.seed_agents_from other_default second url db1
  = seed_core_agents.Seeded db2 c2 u2 ->
  exists prow,
    Database.select_project "Mission Control" db2 = Some prow
    /\ (forall d, In d second ->
          exists r, rows_named (Database.project_id prow) (seed_core_agents.name d) db2 = [r]
                    /\ carries d r)
    /\ (List.map seed_core_agents.name second = List.map seed_core_agents.name first ->
        c2 = O /\ u2 = List.length second
        /\ List.length (Database.agents db2) = List.length (Database.agents db1)).
Proof.
  intros Hok Hnd Hrun1 Hrun2.
  apply seed_agents_from_inv in Hrun1. apply seed_agents_from_inv in Hrun2.
  cbv zeta in Hrun1, Hrun2.
  set (up1 := Database.upsert_project _ _ _ _ db) in Hrun1.
  set (up2 := Database.upsert_project _ _ _ _ db1) in Hrun2.
  assert (Hok1 : registry_ok db1).
  { replace db1 with (fst (fst (fold_left
        (seed_core_agents.seed_agent other_default (snd up1)) first (fst up1, O, O))))
      by (rewrite Hrun1; reflexivity).
    apply fold_ok. simpl. apply upsert_project_ok, Hok. }
  destruct (upsert_project_selected "Mission Control" None
              "Core worker agents for CEO Agent orchestration" false db1)
    as (prow & Hsel & Hid).
  fold up2 in Hsel, Hid.
  assert (Hdb2 : db2 = fst (fst (fold_left
      (seed_core_agents.seed_agent other_default (snd up2)) second (fst up2, O, O))))
    by (rewrite Hrun2; reflexivity).
  exists prow. split; [|split].
  - unfold Database.select_project in *. rewrite Hdb2, fold_projects. exact Hsel.
  - intros d Hin. rewrite Hid, Hdb2.
    apply fold_rows; [simpl; apply upsert_project_ok, Hok1|exact Hnd|exact Hin].
  - intros Hnames.
    destruct (upsert_project_selected "Mission Control" None
                "Core worker agents for CEO Agent orchestration" false db)
      as (prow1 & Hsel1 & Hid1).
    fold up1 in Hsel1, Hid1.
    assert (Hsel1' : Database.select_project "Mission Control" db1 = Some prow1).
    { unfold Database.select_project in *.
      pose proof (fold_projects other_default (snd up1) first (fst up1, O, O)) as Hp.
      rewrite Hrun1 in Hp. simpl in Hp. rewrite Hp. exact Hsel1. }
    assert (Hpid : snd up2 = snd up1).
    { unfold up2. rewrite (upsert_project_existing _ _ _ _ _ prow1 Hsel1'). exact Hid1. }
    assert (Hpresent : forall d, In d second ->
              present (snd up2) (seed_core_agents.name d) (fst up2)).
    { intros d Hin.
      assert (Hn : In (seed_core_agents.name d) (List.map seed_core_agents.name first)).
      { rewrite <- Hnames. apply in_map, Hin. }
      apply in_map_iff in Hn as (d' & Hname & Hin').
      unfold present. unfold up2 at 2. rewrite upsert_project_agents.
      rewrite Hpid, <- Hname.
      pose proof (fold_present other_default (snd up1) first (fst up1, O, O) d' Hin') as Hp.
      rewrite Hrun1 in Hp. exact Hp. }
    destruct (fold_existing other_default (snd up2) second (fst up2, O, O) Hpresent)
      as (Hkeys & Hc & Hu).
    rewrite Hrun2 in Hkeys, Hc, Hu. simpl in Hkeys, Hc, Hu.
    split; [exact Hc|]. split; [exact Hu|].
    unfold up2 in Hkeys. rewrite upsert_project_agents in Hkeys.
    rewrite <- (List.length_map Database.agent_key), Hkeys.
    apply List.length_map.
Qed.

(** The amended C1 at the empty database, seeded twice by [seed_agents]:
    sixteen rows are created, then sixteen are updated and none created,
    and every descriptor has its one row. *)
Lemma C1_witness :
  registry_ok empty_db
  /\ List.NoDup (List.map seed_core_agents.name seed_core_agents.CORE_AGENTS)
  /\ exists db1 db2,
       seed_core_agents.seed_agents tt (Some "postgresql://db") empty_db
       = seed_core_agents.Seeded db1 16 0
       /\ seed_core_agents.seed_agents tt (Some "postgresql://db") db1
          = seed_core_agents.Seeded db2 0 16
       /\ exists prow,
            Database.select_project "Mission Control" db2 = Some prow
            /\ forall d, In d seed_core_agents.CORE_AGENTS ->
                 exists r, rows_named (Database.project_id prow)
                             (seed_core_agents.name d) db2 = [r]
                           /\ carries d r.
Proof.
  assert (Hok : registry_ok empty_db).
  { repeat split; constructor. }
  assert (Hnd : List.NoDup (List.map seed_core_agents.name seed_core_agents.CORE_AGENTS)).
  { vm_compute.
    repeat (apply List.NoDup_cons; [simpl; intuition discriminate|]).
    apply List.NoDup_nil. }
  split; [exact Hok|]. split; [exact Hnd|].
  let r1 := eval vm_compute in
              (seed_core_agents.seed_agents tt (Some "postgresql://db") empty_db) in
  match r1 with
  | seed_core_agents.Seeded ?d1 _ _ =>
      let r2 := eval vm_compute in
                  (seed_core_agents.seed_agents tt (Some "postgresql://db") d1) in
      match r2 with
      | seed_core_agents.Seeded ?d2 _ _ => pose (db1 := d1); pose (db2 := d2)
      end
  end.
  assert (Hrun1 : seed_core_agents.seed_agents_from tt seed_core_agents.CORE_AGENTS
                    (Some "postgresql://db") empty_db
                  = seed_core_agents.Seeded db1 16 0)
    by (vm_compute; reflexivity).
  assert (Hrun2 : seed_core_agents.seed_agents_from tt seed_core_agents.CORE_AGENTS
                    (Some "postgresql://db") db1
                  = seed_core_agents.Seeded db2 0 16)
    by (vm_compute; reflexivity).
  pose proof (C1_reseeding_last_writer_wins tt seed_core_agents.CORE_AGENTS
                seed_core_agents.CORE_AGENTS (Some "postgresql://db")
                empty_db db1 db2 16 0 0 16 Hok Hnd Hrun1 Hrun2) as H.
  destruct H as (prow & Hsel & Hrows & _).
  exists db1, db2. split; [exact Hrun1|]. split; [exact Hrun2|].
  exists prow. split; [exact Hsel|exact Hrows].
Defined.

(** C3: re-running either seed script never gives a (project, agent name)
    pair a second row, leaves every row in place with the columns outside
    the statement's [SET] list as they were (for [seed_agents]: id,
    project, name and every column it does not name; for [seed_database]
    also language and default_schedule), and, on a registry that already
    holds its agents, adds no row at all. *)
Theorem C3_reseeding_keeps_rows {Other : Type} :
  (forall (other_default : Other) url (db db' : Database.DB Other) c u,
      seed_core_agents.seed_agents other_default url db
      = seed_core_agents.Seeded db' c u ->
      (keys_unique db -> keys_unique db')
      /\ rows_kept unmanaged_kept db db'
      /\ (forall prow,
            Database.select_project "Mission Control" db = Some prow ->
            (forall d, In d seed_core_agents.CORE_AGENTS ->
               present (Database.project_id prow) (seed_core_agents.name d) db) ->
            List.map Database.agent_key (Database.agents db')
            = List.map Database.agent_key (Database.agents db)
            /\ c = O))
  /\ (forall read_text default_schedule_default (other_default : Other)
        (db db' : Database.DB Other) project_name project_path github_repo i u,
        seed_agents.seed_database read_text default_schedule_default other_default
          db project_name project_path github_repo = (db', i, u) ->
        (keys_unique db -> keys_unique db')
        /\ rows_kept unmanaged_kept_discovery db db'
        /\ (forall prow,
              Database.select_project project_name db = Some prow ->
              (forall a, In a (seed_agents.discover_agents read_text project_path) ->
                 present (Database.project_id prow) (seed_agents.name a) db) ->
              List.map Database.agent_key (Database.agents db')
              = List.map Database.agent_key (Database.agents db)
              /\ i = O)).
Proof.
  split.
  - intros od url db db' c u Hrun.
    apply seed_agents_from_inv in Hrun. cbv zeta in Hrun.
    set (up := Database.upsert_project _ _ _ _ db) in Hrun.
    assert (Hdb : db' = fst (fst (fold_left
        (seed_core_agents.seed_agent od (snd up)) seed_core_agents.CORE_AGENTS
        (fst up, O, O)))) by (rewrite Hrun; reflexivity).
    split; [|split].
    + intros Hk. rewrite Hdb. apply fold_keys_unique. simpl.
      unfold keys_unique, up. rewrite upsert_project_agents. exact Hk.
    + pose proof (fold_kept od (snd up) seed_core_agents.CORE_AGENTS (fst up, O, O)) as Hkept.
      rewrite <- Hdb in Hkept. unfold rows_kept in *. simpl in Hkept.
      unfold up in Hkept. rewrite upsert_project_agents in Hkept. exact Hkept.
    + intros prow Hsel Hpresent.
      assert (Hpid : snd up = Database.project_id prow)
        by (apply upsert_project_existing, Hsel).
      destruct (fold_existing od (snd up) seed_core_agents.CORE_AGENTS (fst up, O, O))
        as (Hkeys & Hc & _).
      { intros d Hin. unfold present. simpl. unfold up at 2.
        rewrite upsert_project_agents, Hpid. apply Hpresent, Hin. }
      rewrite Hrun in Hkeys, Hc. simpl in Hkeys, Hc.
      unfold up in Hkeys. rewrite upsert_project_agents in Hkeys. auto.
  - intros read_text dsd od db db' pn pp gr i u Hrun.
    unfold seed_agents.seed_database in Hrun.
    set (up := Database.upsert_project _ _ _ _ db) in Hrun.
    destruct up as [db1 pid] eqn:Hup.
    assert (Hagents : Database.agents db1 = Database.agents db).
    { replace db1 with (fst up) by (rewrite Hup; reflexivity).
      apply upsert_project_agents. }
    assert (Hdb : db' = fst (fst (fold_left
        (seed_agents.upsert_agent dsd od pid)
        (seed_agents.discover_agents read_text pp) (db1, O, O))))
      by (rewrite Hrun; reflexivity).
    split; [|split].
    + intros Hk. rewrite Hdb. apply discovery_fold_keys_unique. simpl.
      unfold keys_unique. rewrite Hagents. exact Hk.
    + pose proof (discovery_fold_kept dsd od pid
                    (seed_agents.discover_agents read_text pp) (db1, O, O)) as Hkept.
      rewrite <- Hdb in Hkept. unfold rows_kept in *. simpl in Hkept.
      rewrite Hagents in Hkept. exact Hkept.
    + intros prow Hsel Hpresent.
      assert (Hpid : pid = Database.project_id prow).
      { replace pid with (snd up) by (rewrite Hup; reflexivity).
        apply upsert_project_existing, Hsel. }
      destruct (discovery_fold_existing dsd od pid
                  (seed_agents.discover_agents read_text pp) (db1, O, O))
        as (Hkeys & Hc).
      { intros a Hin. unfold present. simpl. rewrite Hagents, Hpid.
        apply Hpresent, Hin. }
      rewrite Hrun in Hkeys, Hc. simpl in Hkeys, Hc.
      rewrite Hagents in Hkeys. auto.
Qed.

(** C3 at two registries with a row edited by hand: after [seed_agents]
    the note of the operator is still in its column, and after
    [seed_database] so are the note, the language and the schedule. *)
Lemma C3_witness :
  (exists db' c u,
     seed_core_agents.seed_agents "" (Some "postgresql://db") edited_db
     = seed_core_agents.Seeded db' c u
     /\ rows_kept unmanaged_kept edited_db db')
  /\ (exists db' i u,
        seed_agents.seed_database one_script_fs None "" edited_portal_db
          "marketing-content-portal" "/srv/portal" None = (db', i, u)
        /\ rows_kept unmanaged_kept_discovery edited_portal_db db').
Proof.
  split.
  - let r := eval vm_compute in
               (seed_core_agents.seed_agents "" (Some "postgresql://db") edited_db) in
    match r with
    | seed_core_agents.Seeded ?d ?c ?u =>
        pose (db' := d);
        assert (Hrun : seed_core_agents.seed_agents "" (Some "postgresql://db") edited_db
                       = seed_core_agents.Seeded db' c u) by (vm_compute; reflexivity);
        exists db', c, u; split; [exact Hrun|];
        exact (proj1 (proj2 (proj1 (@C3_reseeding_keeps_rows string)
                               "" (Some "postgresql://db") edited_db db' c u Hrun)))
    end.
  - let r := eval vm_compute in
               (seed_agents.seed_database one_script_fs None "" edited_portal_db
                  "marketing-content-portal" "/srv/portal" None) in
    match r with
    | (?d, ?i, ?u) =>
        pose (db' := d);
        assert (Hrun : seed_agents.seed_database one_script_fs None "" edited_portal_db
                         "marketing-content-portal" "/srv/portal" None = (db', i, u))
          by (vm_compute; reflexivity);
        exists db', i, u; split; [exact Hrun|];
        exact (proj1 (proj2 (proj2 (@C3_reseeding_keeps_rows string)
                               one_script_fs None "" edited_portal_db db'
                               "marketing-content-portal" "/srv/portal" None i u Hrun)))
    end.
Defined.

(** * The Phase-4 migration *)

Section MigrationFacts.

Import migrate_phase4.

Lemma raised_inl {A : Type} (e : string) : raised (inl e : Raises A).
Proof. exists e; reflexivity. Qed.

Lemma not_raised_inr {A : Type} (a : A) : ~ raised (inr a : Raises A).
Proof. intros [e He]; discriminate. Qed.

(** When no call raises, the [try] block runs to its [return True]. *)
Lemma try_body_completes env out :
  ~ try_block_raises env ->
  exists out', try_body env out = (inr true, out').
Proof.
  unfold try_block_raises. intros Hno.
  destruct env as [url c cu rs ex co ev fc cc cn]; simpl in *.
  destruct c as [e|[]]; [exfalso; apply Hno; left; apply raised_inl|].
  destruct cu as [e|[]]; [exfalso; apply Hno; right; left; apply raised_inl|].
  destruct rs as [e|sql]; [exfalso; apply Hno; do 2 right; left; apply raised_inl|].
  destruct (ex sql) as [e|[]] eqn:Hex;
    [exfalso; apply Hno; do 3 right; left; exists sql; split;
       [reflexivity | rewrite Hex; apply raised_inl]|].
  destruct co as [e|[]]; [exfalso; apply Hno; do 4 right; left; apply raised_inl|].
  destruct ev as [e|[]]; [exfalso; apply Hno; do 5 right; left; apply raised_inl|].
  destruct fc as [e|n]; [exfalso; apply Hno; do 6 right; left; apply raised_inl|].
  destruct cc as [e|[]]; [exfalso; apply Hno; do 7 right; left; apply raised_inl|].
  destruct cn as [e|[]]; [exfalso; apply Hno; do 8 right; apply raised_inl|].
  unfold try_body, bind, call, print, ret; simpl. rewrite Hex.
  destruct (n =? 3); eexists; reflexivity.
Qed.

(** When a call raises, the [try] block leaves through [except]. *)
Lemma try_body_raises env out :
  try_block_raises env ->
  exists e out', try_body env out = (inl e, out').
Proof.
  unfold try_block_raises.
  destruct env as [url c cu rs ex co ev fc cc cn]; simpl.
  unfold try_body, bind, call, print, ret; simpl.
  destruct c as [e|[]]; [intros _; eauto|].
  destruct cu as [e|[]]; [intros _; eauto|].
  destruct rs as [e|sql]; [intros _; eauto|].
  destruct (ex sql) as [e|[]] eqn:Hex; [intros _; eauto|].
  destruct co as [e|[]]; [intros _; eauto|].
  destruct ev as [e|[]]; [intros _; eauto|].
  destruct fc as [e|n]; [intros _; eauto|].
  destruct (n =? 3).
  - destruct cc as [e|[]]; [intros _; eauto|].
    destruct cn as [e|[]]; [intros _; eauto|].
    intros H. exfalso.
    destruct H as [H|[H|[H|[H|[H|[H|[H|[H|H]]]]]]]];
      try (eapply not_raised_inr; exact H).
    destruct H as (sql' & Hsql & Hr). inversion Hsql; subst sql'.
    rewrite Hex in Hr. eapply not_raised_inr; exact Hr.
  - destruct cc as [e|[]]; [intros _; eauto|].
    destruct cn as [e|[]]; [intros _; eauto|].
    intros H. exfalso.
    destruct H as [H|[H|[H|[H|[H|[H|[H|[H|H]]]]]]]];
      try (eapply not_raised_inr; exact H).
    destruct H as (sql' & Hsql & Hr). inversion Hsql; subst sql'.
    rewrite Hex in Hr. eapply not_raised_inr; exact Hr.
Qed.

Lemma try_block_raises_dec env : try_block_raises env \/ ~ try_block_raises env.
Proof.
  unfold try_block_raises.
  destruct env as [url c cu rs ex co ev fc cc cn]; simpl.
  destruct c as [e|[]]; [left; left; apply raised_inl|].
  destruct cu as [e|[]]; [left; right; left; apply raised_inl|].
  destruct rs as [e|sql]; [left; do 2 right; left; apply raised_inl|].
  destruct (ex sql) as [e|[]] eqn:Hex;
    [left; do 3 right; left; exists sql; split;
       [reflexivity | rewrite Hex; apply raised_inl]|].
  destruct co as [e|[]]; [left; do 4 right; left; apply raised_inl|].
  destruct ev as [e|[]]; [left; do 5 right; left; apply raised_inl|].
  destruct fc as [e|n]; [left; do 6 right; left; apply raised_inl|].
  destruct cc as [e|[]]; [left; do 7 right; left; apply raised_inl|].
  destruct cn as [e|[]]; [left; do 8 right; apply raised_inl|].
  right. intros H.
  destruct H as [H|[H|[H|[H|[H|[H|[H|[H|H]]]]]]]];
    try (eapply not_raised_inr; exact H).
  destruct H as (sql' & Hsql & Hr). inversion Hsql; subst sql'.
  rewrite Hex in Hr. eapply not_raised_inr; exact Hr.
Qed.

End MigrationFacts.

(** C8, as stated, fails: with [DATABASE_URL] set and a schema that would
    execute without error, [run_migration] still returns [False] when the
    connection cannot be opened.  So "returns False exactly when
    DATABASE_URL is unset or executing the schema SQL raises" does not
    hold for every environment. *)
Lemma C8_counterexample :
  ~ (forall env : migrate_phase4.Env,
       fst (migrate_phase4.run_migration env) = false
       <-> (migrate_phase4.DATABASE_URL env = None
            \/ exists sql, migrate_phase4.read_schema env = inr sql
                           /\ raised (migrate_phase4.execute_schema env sql))).
Proof.
  intros H.
  destruct (proj1 (H unreachable_database)) as [Hurl | (sql & _ & Hraise)].
  - reflexivity.
  - discriminate Hurl.
  - simpl in Hraise. eapply not_raised_inr; exact Hraise.
Qed.

(** C8, amended: [run_migration] returns [False] exactly when
    [DATABASE_URL] is unset or empty, or a call inside the [try] block
    (connecting, opening the cursor, reading the schema file, executing
    the schema, committing, the verification query, fetching its count,
    closing) raises; in every other case it returns [True], whatever
    number of tables the verification counts. *)
Theorem C8_run_migration_false_iff (env : migrate_phase4.Env) :
  (fst (migrate_phase4.run_migration env) = false
   <-> (migrate_phase4.url_missing env = true \/ try_block_raises env))
  /\ (migrate_phase4.url_missing env = false -> ~ try_block_raises env ->
      fst (migrate_phase4.run_migration env) = true).
Proof.
  assert (Hok : migrate_phase4.url_missing env = false -> ~ try_block_raises env ->
                fst (migrate_phase4.run_migration env) = true).
  { intros Hurl Hno. unfold migrate_phase4.run_migration. rewrite Hurl.
    destruct (try_body_completes env
                [migrate_phase4.nl +:+ migrate_phase4.rule;
                 "Phase 4 Migration: CEO Agent Orchestration";
                 migrate_phase4.rule] Hno) as [out' Hrun].
    rewrite Hrun. reflexivity. }
  split; [|exact Hok]. split.
  - intros Hfalse.
    destruct (migrate_phase4.url_missing env) eqn:Hurl; [left; reflexivity|].
    destruct (try_block_raises_dec env) as [Hr|Hno]; [right; exact Hr|].
    rewrite (Hok eq_refl Hno) in Hfalse. discriminate.
  - intros [Hurl|Hr].
    + unfold migrate_phase4.run_migration. rewrite Hurl. reflexivity.
    + unfold migrate_phase4.run_migration.
      destruct (migrate_phase4.url_missing env); [reflexivity|].
      destruct (try_body_raises env
                  [migrate_phase4.nl +:+ migrate_phase4.rule;
                   "Phase 4 Migration: CEO Agent Orchestration";
                   migrate_phase4.rule] Hr) as (e & out' & Hrun).
      rewrite Hrun. reflexivity.
Qed.

(** The amended C8 at a database where every call succeeds but only two
    of the three tables are found: the migration still returns [True]. *)
Lemma C8_witness :
  migrate_phase4.url_missing (healthy_database 2) = false
  /\ ~ try_block_raises (healthy_database 2)
  /\ fst (migrate_phase4.run_migration (healthy_database 2)) = true.
Proof.
  assert (Hno : ~ try_block_raises (healthy_database 2)).
  { intros H.
    destruct H as [H|[H|[H|[H|[H|[H|[H|[H|H]]]]]]]];
      try (eapply not_raised_inr; exact H).
    destruct H as (sql' & _ & Hr). eapply not_raised_inr; exact Hr. }
  split; [reflexivity|]. split; [exact Hno|].
  exact (proj2 (C8_run_migration_false_iff (healthy_database 2)) eq_refl Hno).
Defined.

(** * Metadata extraction *)

Section MetadataFacts.

Import seed_agents.

Lemma take_length (n : nat) (s : string) : (String.length (PyStr.take n s) <= n)%nat.
Proof.
  revert s. induction n as [|n IH]; intros s; destruct s as [|c t]; simpl; try lia.
  specialize (IH t). lia.
Qed.

Lemma append_if_head (c : bool) (tag : string) (l : list string) :
  l <> [] -> hd_error (append_if c tag l) = hd_error l.
Proof.
  intros Hl. unfold append_if. destruct c; [|reflexivity].
  destruct l as [|x l']; [contradiction|reflexivity].
Qed.

Lemma append_if_nonempty (c : bool) (tag : string) (l : list string) :
  l <> [] -> append_if c tag l <> [].
Proof.
  intros Hl. unfold append_if. destruct c; [|exact Hl].
  destruct l; [contradiction|discriminate].
Qed.

Lemma append_if_In (c : bool) (tag x : string) (l : list string) :
  In x (append_if c tag l) <-> In x l \/ (c = true /\ x = tag).
Proof.
  unfold append_if. destruct c.
  - rewrite in_app_iff. simpl. intuition congruence.
  - intuition congruence.
Qed.

End MetadataFacts.

(** C10: for every script text, [extract_agent_metadata] returns a
    description of at most 500 characters and a tags list that starts with
    [python]; [ai-powered] is in the list, as its last element, exactly
    when the text contains [gpt-5.2] or [gpt-5-mini]. *)
Theorem C10_extract_agent_metadata (script_path content : string) :
  let m := seed_agents.extract_agent_metadata script_path content in
  let ai := PyStr.contains "gpt-5.2" content || PyStr.contains "gpt-5-mini" content in
  (String.length (seed_agents.description m) <= 500)%nat
  /\ hd_error (seed_agents.tags m) = Some "python"
  /\ (In "ai-powered" (seed_agents.tags m) <-> ai = true)
  /\ (exists earlier, seed_agents.tags m = earlier ++ (if ai then ["ai-powered"] else [])
                      /\ ~ In "ai-powered" earlier).
Proof.
  cbv zeta. unfold seed_agents.extract_agent_metadata. cbv zeta.
  cbn [seed_agents.description seed_agents.tags].
  set (lowered := PyStr.lower _).
  set (stem := seed_agents.path_stem script_path).
  set (c1 := PyStr.contains "enrich" stem || _).
  set (c2 := PyStr.contains "import" stem || _).
  set (c3 := PyStr.contains "diagnose" stem || _).
  set (c4 := PyStr.contains "health" stem || _).
  set (c5 := PyStr.contains "deploy" stem || _).
  set (c6 := PyStr.contains "maintenance" stem || _).
  set (ai := PyStr.contains "gpt-5.2" content || _).
  set (earlier := seed_agents.append_if c6 "orchestration" _).
  assert (Hne : earlier <> []).
  { unfold earlier. repeat apply append_if_nonempty. discriminate. }
  assert (Hhd : hd_error earlier = Some "python").
  { unfold earlier. rewrite !append_if_head; try reflexivity;
      repeat apply append_if_nonempty; discriminate. }
  assert (Hnot : ~ In "ai-powered" earlier).
  { unfold earlier. rewrite !append_if_In. simpl.
    intros H. intuition discriminate. }
  split; [apply take_length|].
  split; [rewrite append_if_head; assumption|].
  split.
  - rewrite append_if_In. split.
    + intros [H|[H _]]; [contradiction|exact H].
    + intros H. right. split; [exact H|reflexivity].
  - exists earlier. split; [|exact Hnot].
    unfold seed_agents.append_if. destruct ai; [reflexivity|].
    symmetry. apply app_nil_r.
Qed.

(** * More on the registry seeds *)

Section CounterFacts.

Import Database.
Context {Other : Type}.
Implicit Types (db : DB Other).

Lemma seed_agent_counters (od : Other) pid db c u d :
  let '(db', c', u') := seed_core_agents.seed_agent od pid (db, c, u) d in
  (c' + u' = c + u + 1)%nat
  /\ (List.length (agents db') + c = List.length (agents db) + c')%nat.
Proof.
  unfold seed_core_agents.seed_agent.
  destruct (select_agent _ _ _); simpl.
  - rewrite List.length_map. lia.
  - rewrite List.length_app. simpl. lia.
Qed.

Lemma seed_fold_counters (od : Other) pid cat : forall db c u,
  let '(db', c', u') := fold_left (seed_core_agents.seed_agent od pid) cat (db, c, u) in
  (c' + u' = c + u + List.length cat)%nat
  /\ (List.length (agents db') + c = List.length (agents db) + c')%nat.
Proof.
  induction cat as [|d cat IH]; intros db c u; [simpl; lia|].
  cbn [fold_left List.length].
  pose proof (seed_agent_counters od pid db c u d) as Hstep.
  destruct (seed_core_agents.seed_agent od pid (db, c, u) d) as [[db1 c1] u1].
  specialize (IH db1 c1 u1).
  destruct (fold_left _ cat _) as [[db' c'] u']. simpl in *. lia.
Qed.

Lemma upsert_agent_counters dsd (od : Other) pid db i u a :
  let '(db', i', u') := seed_agents.upsert_agent dsd od pid (db, i, u) a in
  (i' + u' = i + u + 1)%nat
  /\ (List.length (agents db') + i = List.length (agents db) + i')%nat.
Proof.
  unfold seed_agents.upsert_agent.
  destruct (select_agent _ _ _); simpl.
  - rewrite List.length_map. lia.
  - rewrite List.length_app. simpl. lia.
Qed.

Lemma upsert_fold_counters dsd (od : Other) pid l : forall db i u,
  let '(db', i', u') := fold_left (seed_agents.upsert_agent dsd od pid) l (db, i, u) in
  (i' + u' = i + u + List.length l)%nat
  /\ (List.length (agents db') + i = List.length (agents db) + i')%nat.
Proof.
  induction l as [|a l IH]; intros db i u; [simpl; lia|].
  cbn [fold_left List.length].
  pose proof (upsert_agent_counters dsd od pid db i u a) as Hstep.
  destruct (seed_agents.upsert_agent dsd od pid (db, i, u) a) as [[db1 i1] u1].
  specialize (IH db1 i1 u1).
  destruct (fold_left _ l _) as [[db' i'] u']. simpl in *. lia.
Qed.

End CounterFacts.

(** X1: the two counters of a seed run account for every descriptor, and
    the table grows by exactly the number counted as created: for
    [seed_agents], created + updated = 16 and the [agents] table has
    [seeded_count] more rows; for [seed_database], inserted + updated is
    the number of discovered agents and the table has [inserted] more
    rows. *)
Theorem X1_seed_counters {Other : Type} :
  (forall (other_default : Other) url (db db' : Database.DB Other) c u,
      seed_core_agents.seed_agents other_default url db
      = seed_core_agents.Seeded db' c u ->
      (c + u = 16)%nat
      /\ List.length (Database.agents db') = (List.length (Database.agents db) + c)%nat)
  /\ (forall read_text default_schedule_default (other_default : Other)
        (db db' : Database.DB Other) project_name project_path github_repo i u,
        seed_agents.seed_database read_text default_schedule_default other_default
          db project_name project_path github_repo = (db', i, u) ->
        (i + u = List.length (seed_agents.discover_agents read_text project_path))%nat
        /\ List.length (Database.agents db')
           = (List.length (Database.agents db) + i)%nat).
Proof.
  split.
  - intros od url db db' c u Hrun.
    apply seed_agents_from_inv in Hrun. cbv zeta in Hrun.
    set (up := Database.upsert_project _ _ _ _ db) in Hrun.
    pose proof (seed_fold_counters od (snd up) seed_core_agents.CORE_AGENTS
                  (fst up) O O) as H.
    rewrite Hrun in H. unfold up in H. rewrite upsert_project_agents in H.
    change (List.length seed_core_agents.CORE_AGENTS) with 16%nat in H. lia.
  - intros read_text dsd od db db' pn pp gr i u Hrun.
    unfold seed_agents.seed_database in Hrun.
    pose proof (upsert_project_agents pn gr
                  ("Marketing content portal at " +:+ pp) true db) as Hagents.
    destruct (Database.upsert_project pn gr _ true db) as [db1 pid].
    pose proof (upsert_fold_counters dsd od pid
                  (seed_agents.discover_agents read_text pp) db1 O O) as H.
    rewrite Hrun in H. simpl in Hagents. rewrite Hagents in H. lia.
Qed.

(** X1 on two registries with a row edited by hand: [seed_agents] creates
    fifteen rows and updates one; [seed_database], with one script on
    disk, inserts none and updates one. *)
Lemma X1_witness :
  (exists db',
     seed_core_agents.seed_agents "" (Some "postgresql://db") edited_db
     = seed_core_agents.Seeded db' 15 1
     /\ (15 + 1 = 16)%nat
     /\ List.length (Database.agents db')
        = (List.length (Database.agents edited_db) + 15)%nat)
  /\ (exists db',
        seed_agents.seed_database one_script_fs None "" edited_portal_db
          "marketing-content-portal" "/srv/portal" None = (db', O, 1%nat)
        /\ (0 + 1
            = List.length (seed_agents.discover_agents one_script_fs "/srv/portal"))%nat
        /\ List.length (Database.agents db')
           = (List.length (Database.agents edited_portal_db) + 0)%nat).
Proof.
  split.
  - let r := eval vm_compute in
               (seed_core_agents.seed_agents "" (Some "postgresql://db") edited_db) in
    match r with
    | seed_core_agents.Seeded ?d _ _ =>
        pose (db' := d);
        assert (Hrun : seed_core_agents.seed_agents "" (Some "postgresql://db") edited_db
                       = seed_core_agents.Seeded db' 15 1) by (vm_compute; reflexivity);
        exists db'; split; [exact Hrun|];
        exact (proj1 (@X1_seed_counters string) "" (Some "postgresql://db")
                 edited_db db' 15%nat 1%nat Hrun)
    end.
  - let r := eval vm_compute in
               (seed_agents.seed_database one_script_fs None "" edited_portal_db
                  "marketing-content-portal" "/srv/portal" None) in
    match r with
    | (?d, _, _) =>
        pose (db' := d);
        assert (Hrun : seed_agents.seed_database one_script_fs None "" edited_portal_db
                         "marketing-content-portal" "/srv/portal" None
                       = (db', O, 1%nat)) by (vm_compute; reflexivity);
        exists db'; split; [exact Hrun|];
        exact (proj2 (@X1_seed_counters string) one_script_fs None ""
                 edited_portal_db db' "marketing-content-portal" "/srv/portal" None
                 O 1%nat Hrun)
    end.
Defined.


Section ProjectFacts.

Import Database.
Context {Other : Type}.
Implicit Types (db : DB Other).

Lemma db_eta db : mkDB (projects db) (agents db) (next_id db) = db.
Proof. destruct db; reflexivity. Qed.

(** The conflict branch of the project statement changes nothing when it
    meets the row an earlier run of the same statement left. *)
Lemma upsert_project_again n g d b db db1 :
  projects db1 = projects (fst (upsert_project n g d b db)) ->
  upsert_project n g d b db1 = (db1, snd (upsert_project n g d b db)).
Proof.
  intros Hp.
  destruct (upsert_project_selected n g d b db) as (prow & Hsel & Hid).
  unfold select_project in Hsel. rewrite <- Hp in Hsel.
  unfold upsert_project at 1. unfold select_project. rewrite Hsel.
  rewrite Hid. f_equal. clear Hsel Hid.
  destruct db1 as [p1 a1 n1]. simpl in *. f_equal. subst p1.
  unfold upsert_project, select_project.
  destruct (List.find _ (projects db)) as [existing|] eqn:Hf; simpl.
  - rewrite List.map_map. apply List.map_ext. intros x.
    destruct (String.eqb (project_name x) n) eqn:Hx; simpl; rewrite Hx;
      [|reflexivity].
    simpl. destruct b; reflexivity.
  - rewrite List.map_app. simpl. rewrite String.eqb_refl. simpl.
    f_equal; [|destruct b; reflexivity].
    rewrite <- (List.map_id (projects db)) at 2.
    apply List.map_ext_in. intros x Hx.
    rewrite (List.find_none _ _ Hf x Hx). reflexivity.
Qed.

(** Projects of another name are not touched. *)
Lemma upsert_project_other n g d b db m :
  m <> n ->
  select_project m (fst (upsert_project n g d b db)) = select_project m db.
Proof.
  intros Hm. unfold upsert_project, select_project.
  destruct (List.find _ (projects db)) as [existing|] eqn:Hf; simpl.
  - clear Hf. induction (projects db) as [|x l IH]; simpl; [reflexivity|].
    destruct (String.eqb (project_name x) n) eqn:Hx; simpl.
    + apply String.eqb_eq in Hx.
      destruct (String.eqb (project_name x) m) eqn:Hxm;
        [apply String.eqb_eq in Hxm; congruence|exact IH].
    + destruct (String.eqb (project_name x) m); [reflexivity|exact IH].
  - induction (projects db) as [|x l IH]; simpl.
    + destruct (String.eqb n m) eqn:Hnm; [|reflexivity].
      apply String.eqb_eq in Hnm. congruence.
    + simpl in Hf. destruct (String.eqb (project_name x) n); [discriminate|].
      destruct (String.eqb (project_name x) m); [reflexivity|apply IH, Hf].
Qed.

(** The project row a conflict leaves. *)
Lemma upsert_project_row n g d b db prow :
  select_project n db = Some prow ->
  select_project n (fst (upsert_project n g d b db))
  = Some (mkProjectRow (project_id prow) (project_name prow)
            (if b then g else project_github_repo prow) d).
Proof.
  intros Hsel. unfold upsert_project. rewrite Hsel.
  unfold select_project in *. cbn [fst projects]. rewrite find_map_preserved.
  - rewrite Hsel. simpl. apply List.find_some in Hsel as [_ Hn].
    rewrite Hn. reflexivity.
  - intros x. destruct (String.eqb (project_name x) n) eqn:Hx; simpl; rewrite Hx;
      reflexivity.
Qed.

(** The project row the statement creates. *)
Lemma upsert_project_new n g d b db :
  select_project n db = None ->
  select_project n (fst (upsert_project n g d b db))
  = Some (mkProjectRow (next_id db) n g d).
Proof.
  intros Hsel. unfold upsert_project. rewrite Hsel.
  unfold select_project in *. cbn [fst projects].
  rewrite find_app_none by exact Hsel.
  simpl. rewrite String.eqb_refl. reflexivity.
Qed.

End ProjectFacts.

Section CoreIdempotence.

Import Database seed_core_agents.
Context {Other : Type}.
Variable other_default : Other.
Variable pid : nat.
Implicit Types (db : DB Other) (r e : AgentRow Other) (d : AgentData).

Lemma filter_head_find {A : Type} (f : A -> bool) (l : list A) x t :
  List.filter f l = x :: t -> List.find f l = Some x.
Proof.
  induction l as [|y l IH]; simpl; [discriminate|].
  destruct (f y); [intros H; inversion H; reflexivity|exact IH].
Qed.

Lemma set_managed_fixed d r : carries d r -> set_managed d r = r.
Proof.
  unfold carries, set_managed. destruct r; simpl.
  intros (-> & -> & -> & -> & -> & ->). reflexivity.
Qed.

(** A descriptor whose one row already carries its fields: its turn in
    the loop changes nothing and counts as an update. *)
Lemma seed_agent_fixed db c u d r :
  registry_ok db ->
  rows_named pid (name d) db = [r] -> carries d r ->
  seed_agent other_default pid (db, c, u) d = (db, c, S u).
Proof.
  intros (Hk & Hi & Hf) Hrows Hc. unfold seed_agent, select_agent.
  pose proof (filter_head_find _ _ _ _ Hrows) as Hfind. rewrite Hfind.
  f_equal. f_equal. unfold update_agents_by_id.
  apply List.find_some in Hfind as [Hr _].
  destruct db as [p l n]. simpl in *. f_equal.
  rewrite <- (List.map_id l) at 2.
  apply List.map_ext_in. intros x Hx.
  destruct (Nat.eqb (agent_id x) (agent_id r)) eqn:Hid; [|reflexivity].
  apply Nat.eqb_eq in Hid.
  assert (x = r) by (eapply ids_injective; eassumption). subst x.
  apply set_managed_fixed, Hc.
Qed.

Lemma fold_fixed cat : forall db c u,
  registry_ok db ->
  (forall d, In d cat -> exists r, rows_named pid (name d) db = [r] /\ carries d r) ->
  fold_left (seed_agent other_default pid) cat (db, c, u)
  = (db, c, (u + List.length cat)%nat).
Proof.
  induction cat as [|d cat IH]; intros db c u Hok Hrows.
  - simpl. f_equal. lia.
  - cbn [fold_left List.length].
    destruct (Hrows d) as (r & Hr & Hc); [left; reflexivity|].
    rewrite (seed_agent_fixed db c u d r Hok Hr Hc).
    rewrite IH; [f_equal; lia|exact Hok|].
    intros d' Hin. apply Hrows. right. exact Hin.
Qed.

(** A row whose key is not the descriptor's is left as it is. *)
Lemma rewrite_by_id_frame db d e r :
  List.NoDup (List.map agent_id (agents db)) ->
  In e (agents db) -> In r (agents db) ->
  agent_key e = (pid, name d) -> agent_key r <> (pid, name d) ->
  rewrite_by_id d e r = r.
Proof.
  intros Hi He Hr Hke Hkr. unfold rewrite_by_id.
  destruct (Nat.eqb (agent_id r) (agent_id e)) eqn:Hid; [|reflexivity].
  apply Nat.eqb_eq in Hid.
  assert (r = e) by (eapply ids_injective; eassumption). congruence.
Qed.

End CoreIdempotence.

Section Frames.

Import Database.
Context {Other : Type}.
Implicit Types (db : DB Other) (r e : AgentRow Other).

Lemma rows_kept_compose (R1 R2 R3 : AgentRow Other -> AgentRow Other -> Prop)
    db1 db2 db3 :
  (forall a b c, R1 a b -> R2 b c -> R3 a c) ->
  rows_kept R1 db1 db2 -> rows_kept R2 db2 db3 -> rows_kept R3 db1 db3.
Proof.
  unfold rows_kept. intros HR.
  generalize (agents db1) (agents db2) (agents db3). clear db1 db2 db3.
  induction l as [|a l IH]; intros l2 l3 H12 H23; simpl in *.
  - constructor.
  - destruct l2 as [|b l2]; [inversion H12|]. simpl in H12.
    inversion H12; subst. simpl in H23.
    destruct l3 as [|c l3]; [inversion H23|]. simpl in H23.
    inversion H23; subst. simpl. constructor; [eauto|].
    eapply IH; eassumption.
Qed.

Lemma rows_kept_map_in (R : AgentRow Other -> AgentRow Other -> Prop)
    (g : AgentRow Other -> AgentRow Other) db p n :
  (forall r, In r (agents db) -> R r (g r)) ->
  rows_kept R db (mkDB p (List.map g (agents db)) n).
Proof.
  unfold rows_kept. simpl. rewrite <- (List.length_map g), List.firstn_all.
  induction (agents db) as [|x l IH]; intros H; simpl; constructor.
  - apply H. left. reflexivity.
  - apply IH. intros r Hr. apply H. right. exact Hr.
Qed.

Lemma rows_kept_app (R : AgentRow Other -> AgentRow Other -> Prop) db p k n :
  (forall r, R r r) ->
  rows_kept R db (mkDB p (agents db ++ k) n).
Proof.
  unfold rows_kept. simpl. intros HR. rewrite firstn_length_app.
  induction (agents db); constructor; auto.
Qed.

End Frames.


Section CoreFrame.

Import Database seed_core_agents.
Context {Other : Type}.
Variable other_default : Other.
Variable pid : nat.
Implicit Types (db : DB Other) (r e : AgentRow Other) (d : AgentData)
  (st : DB Other * nat * nat).

Lemma seed_agent_frame st d :
  registry_ok (fst (fst st)) ->
  rows_kept (fun r r' => agent_key r <> (pid, name d) -> r' = r)
    (fst (fst st)) (fst (fst (seed_agent other_default pid st d))).
Proof.
  intros (Hk & Hi & Hf). rewrite seed_agent_db.
  unfold upsert_rows, select_agent.
  destruct (List.find _ _) as [e|] eqn:Hfind.
  - apply find_some_key in Hfind as [He Hke].
    apply rows_kept_map_in. intros r Hr Hkr.
    eapply rewrite_by_id_frame; eassumption.
  - unfold insert_agent. apply rows_kept_app. auto.
Qed.

Lemma fold_frame cat : forall st,
  registry_ok (fst (fst st)) ->
  rows_kept (fun r r' => (forall d, In d cat -> agent_key r <> (pid, name d)) -> r' = r)
    (fst (fst st)) (fst (fst (fold_left (seed_agent other_default pid) cat st))).
Proof.
  induction cat as [|d cat IH]; intros st Hok; cbn [fold_left].
  - apply rows_kept_refl. auto.
  - eapply rows_kept_compose;
      [|apply (seed_agent_frame st d Hok)|apply IH, seed_agent_ok, Hok].
    cbv beta. intros a b c Hab Hbc Hall.
    assert (b = a) by (apply Hab, Hall; left; reflexivity). subst b.
    apply Hbc. intros d' Hin. apply Hall. right. exact Hin.
Qed.

End CoreFrame.

Section DiscoveryFacts.

Import Database seed_agents.
Context {Other : Type}.
Variable default_schedule_default : option string.
Variable other_default : Other.
Variable pid : nat.
Implicit Types (db : DB Other) (r e : AgentRow Other) (a : Agent)
  (st : DB Other * nat * nat).

Local Abbreviation step := (upsert_agent default_schedule_default other_default pid).

Lemma discovery_set_managed_fixed a r :
  carries_discovery a r -> set_managed a r = r.
Proof.
  unfold carries_discovery, set_managed. destruct r; simpl.
  intros (-> & -> & -> & ->). reflexivity.
Qed.

Lemma upsert_agent_frame st a :
  rows_kept (fun r r' => agent_key r <> (pid, name a) -> r' = r)
    (fst (fst st)) (fst (fst (step st a))).
Proof.
  rewrite upsert_agent_db. unfold upsert_rows.
  destruct (select_agent _ _ _) as [e|].
  - apply rows_kept_map_in. intros r Hr Hkr. unfold rewrite_by_key.
    destruct (has_key pid (name a) r) eqn:Hk; [|reflexivity].
    apply has_key_true in Hk. contradiction.
  - unfold insert_agent. apply rows_kept_app. auto.
Qed.

Lemma discovery_fold_frame l : forall st,
  rows_kept (fun r r' => (forall a, In a l -> agent_key r <> (pid, name a)) -> r' = r)
    (fst (fst st)) (fst (fst (fold_left step l st))).
Proof.
  induction l as [|a l IH]; intros st; cbn [fold_left].
  - apply rows_kept_refl. auto.
  - eapply rows_kept_compose; [|apply (upsert_agent_frame st a)|apply IH].
    cbv beta. intros x y z Hxy Hyz Hall.
    assert (y = x) by (apply Hxy, Hall; left; reflexivity). subst y.
    apply Hyz. intros a' Hin. apply Hall. right. exact Hin.
Qed.

Lemma upsert_agent_settles st a : settled pid a (fst (fst (step st a))).
Proof.
  rewrite upsert_agent_db. split.
  - apply upsert_present; auto using rewrite_by_key_key, discovery_row_key.
  - unfold upsert_rows, select_agent.
    destruct (List.find _ _) as [e|] eqn:Hfind; simpl.
    + intros r Hr Hk. apply in_map_iff in Hr as (r0 & <- & Hr0).
      rewrite rewrite_by_key_key in Hk. unfold rewrite_by_key.
      apply has_key_true in Hk. rewrite Hk.
      unfold carries_discovery. simpl. auto.
    + intros r Hr Hk. apply in_app_iff in Hr as [Hr|[<-|[]]].
      * exfalso. apply (find_none_key _ _ _ Hfind).
        rewrite <- Hk. apply in_map, Hr.
      * unfold carries_discovery. simpl. auto.
Qed.

Lemma upsert_agent_keeps_settled st a b :
  name b <> name a -> settled pid b (fst (fst st)) -> settled pid b (fst (fst (step st a))).
Proof.
  intros Hn [Hp Hc]. rewrite upsert_agent_db. split.
  - apply upsert_present_mono; auto using rewrite_by_key_key.
  - unfold upsert_rows, select_agent.
    destruct (List.find _ _) as [e|] eqn:Hfind; simpl.
    + intros r Hr Hk. apply in_map_iff in Hr as (r0 & <- & Hr0).
      rewrite rewrite_by_key_key in Hk. unfold rewrite_by_key.
      destruct (has_key pid (name a) r0) eqn:Hka.
      * apply has_key_true in Hka. rewrite Hka in Hk. inversion Hk. congruence.
      * apply Hc; assumption.
    + intros r Hr Hk. apply in_app_iff in Hr as [Hr|[<-|[]]].
      * apply Hc; assumption.
      * rewrite discovery_row_key in Hk. inversion Hk. congruence.
Qed.

Lemma discovery_fold_settles l : forall st,
  List.NoDup (List.map name l) ->
  forall a, In a l -> settled pid a (fst (fst (fold_left step l st))).
Proof.
  assert (Hkeep : forall k st b, ~ In (name b) (List.map name k) ->
            settled pid b (fst (fst st)) -> settled pid b (fst (fst (fold_left step k st)))).
  { clear l. intros k. induction k as [|a k IH]; intros st b Hn Hs; cbn [fold_left];
      [exact Hs|].
    simpl in Hn. apply IH; [tauto|].
    apply upsert_agent_keeps_settled; [|exact Hs]. intros Heq. apply Hn. left.
    symmetry. exact Heq. }
  induction l as [|a0 l IH]; intros st Hnd a Hin; [contradiction|].
  cbn [fold_left]. inversion Hnd as [|n ns Hnotin Hnd']; subst.
  destruct Hin as [ ->|Hin].
  - apply Hkeep; [exact Hnotin|apply upsert_agent_settles].
  - apply IH; assumption.
Qed.

Lemma upsert_agent_fixed db i u a :
  settled pid a db -> step (db, i, u) a = (db, i, S u).
Proof.
  intros [Hp Hc]. unfold upsert_agent.
  apply select_agent_present in Hp.
  destruct (select_agent (name a) pid db) as [e|]; [clear Hp|congruence].
  f_equal. f_equal. unfold update_agents_by_key.
  destruct db as [p l n]. simpl in *. f_equal.
  rewrite <- (List.map_id l) at 2.
  apply List.map_ext_in. intros x Hx.
  destruct (has_key pid (name a) x) eqn:Hk; [|reflexivity].
  apply has_key_true in Hk. apply discovery_set_managed_fixed. auto.
Qed.

Lemma discovery_fold_fixed l : forall db i u,
  (forall a, In a l -> settled pid a db) ->
  fold_left step l (db, i, u) = (db, i, (u + List.length l)%nat).
Proof.
  induction l as [|a l IH]; intros db i u Hs.
  - simpl. f_equal. lia.
  - cbn [fold_left List.length].
    rewrite upsert_agent_fixed by (apply Hs; left; reflexivity).
    rewrite IH; [f_equal; lia|]. intros a' Hin. apply Hs. right. exact Hin.
Qed.

Lemma discovery_fold_projects l : forall st,
  projects (fst (fst (fold_left step l st))) = projects (fst (fst st)).
Proof.
  induction l as [|a l IH]; intros st; simpl; [reflexivity|].
  rewrite IH, upsert_agent_db. apply upsert_projects.
Qed.

End DiscoveryFacts.

Section DiscoverFacts.

Variable read_text : string -> option string.

(** What [discover_agents] returns, but for the metadata. *)
Lemma discover_agents_known project_path :
  List.map (fun a => (seed_agents.name a, seed_agents.script_path a,
                      seed_agents.language a))
           (seed_agents.discover_agents read_text project_path)
  = List.filter
      (fun k => match read_text (project_path +:+ "/" +:+ snd (fst k)) with
                | Some _ => true
                | None => false
                end)
      known_agents.
Proof.
  unfold seed_agents.discover_agents, seed_agents.agent_scripts, known_agents.
  cbn [flat_map List.filter fst snd].
  repeat match goal with
  | |- context [project_path +:+ ?x] =>
      let y := eval vm_compute in x in progress change x with y
  end.
  repeat match goal with
  | |- context [read_text ?p] => destruct (read_text p)
  end; reflexivity.
Qed.

Lemma NoDup_map_filter {A B : Type} (f : A -> B) (p : A -> bool) (l : list A) :
  List.NoDup (List.map f l) -> List.NoDup (List.map f (List.filter p l)).
Proof.
  induction l as [|x l IH]; simpl; intros Hnd; [constructor|].
  inversion Hnd as [|y ys Hnotin Hnd']; subst.
  destruct (p x); simpl; [|apply IH, Hnd'].
  constructor; [|apply IH, Hnd'].
  intros Hin. apply Hnotin. apply in_map_iff in Hin as (x' & Hx' & Hin).
  apply List.filter_In in Hin as [Hin _]. rewrite <- Hx'. apply in_map, Hin.
Qed.

Lemma discover_agents_names project_path :
  List.NoDup (List.map seed_agents.name
                (seed_agents.discover_agents read_text project_path)).
Proof.
  pose proof (discover_agents_known project_path) as H.
  apply (f_equal (List.map (fun k : string * string * string => fst (fst k)))) in H.
  rewrite List.map_map in H. cbn [fst] in H.
  change (List.map seed_agents.name
            (seed_agents.discover_agents read_text project_path))
    with (List.map (fun a => seed_agents.name a)
            (seed_agents.discover_agents read_text project_path)).
  rewrite H. apply NoDup_map_filter.
  unfold known_agents. simpl.
  repeat (constructor; [simpl; intros Hin; repeat destruct Hin as [Hin|Hin];
                        try discriminate Hin; exact Hin|]).
  constructor.
Qed.

End DiscoverFacts.


(** A second run of [seed_agents] right after a first one. *)
Lemma seed_agents_again {Other : Type} (other_default : Other)
    (url : option string) (db db1 : Database.DB Other) (c u : nat) :
  registry_ok db ->
  seed_core_agents.seed_agents other_default url db
  = seed_core_agents.Seeded db1 c u ->
  seed_core_agents.seed_agents other_default url db1
  = seed_core_agents.Seeded db1 0 16.
Proof.
  intros Hok Hrun. pose proof Hrun as Hinv.
  apply seed_agents_from_inv in Hinv. cbv zeta in Hinv.
  set (up := Database.upsert_project _ _ _ _ db) in Hinv.
  assert (Hdb : db1 = fst (fst (fold_left
      (seed_core_agents.seed_agent other_default (snd up))
      seed_core_agents.CORE_AGENTS (fst up, O, O))))
    by (rewrite Hinv; reflexivity).
  assert (Hok1 : registry_ok db1).
  { rewrite Hdb. apply fold_ok. simpl. apply upsert_project_ok, Hok. }
  assert (Hproj : Database.projects db1 = Database.projects (fst up)).
  { rewrite Hdb. apply fold_projects. }
  assert (Hnd : List.NoDup (List.map seed_core_agents.name seed_core_agents.CORE_AGENTS)).
  { simpl. repeat (constructor; [simpl; intros Hin; repeat destruct Hin as [Hin|Hin];
                                 try discriminate Hin; exact Hin|]).
    constructor. }
  unfold seed_core_agents.seed_agents, seed_core_agents.seed_agents_from in *.
  destruct url as [[|ch s]|]; try discriminate Hrun.
  rewrite (upsert_project_again _ _ _ _ db db1 Hproj). fold up.
  rewrite (fold_fixed other_default (snd up) seed_core_agents.CORE_AGENTS db1 O O Hok1).
  - reflexivity.
  - intros d Hin. rewrite Hdb.
    apply fold_rows; [simpl; apply upsert_project_ok, Hok|exact Hnd|exact Hin].
Qed.

(** X2: [seed_agents] is idempotent.  On a registry that satisfies the
    constraints of the [agents] table, a second run right after a first one
    leaves both tables as they are, row for row and column for column,
    creates no row and counts all sixteen descriptors as updated. *)
Theorem X2_seed_agents_idempotent {Other : Type} (other_default : Other)
    (url : option string) (db db1 : Database.DB Other) (c u : nat) :
  registry_ok db ->
  seed_core_agents.seed_agents other_default url db
  = seed_core_agents.Seeded db1 c u ->
  exists db2,
    seed_core_agents.seed_agents other_default url db1
    = seed_core_agents.Seeded db2 0 16
    /\ Database.projects db2 = Database.projects db1
    /\ Database.agents db2 = Database.agents db1.
Proof.
  intros Hok Hrun. exists db1.
  split; [exact (seed_agents_again other_default url db db1 c u Hok Hrun)|].
  split; reflexivity.
Qed.

(** X2 on the registry with one row edited by hand. *)
Lemma X2_witness :
  registry_ok edited_db
  /\ exists db1 db2,
       seed_core_agents.seed_agents "" (Some "postgresql://db") edited_db
       = seed_core_agents.Seeded db1 15 1
       /\ seed_core_agents.seed_agents "" (Some "postgresql://db") db1
          = seed_core_agents.Seeded db2 0 16
       /\ Database.projects db2 = Database.projects db1
       /\ Database.agents db2 = Database.agents db1.
Proof.
  assert (Hok : registry_ok edited_db).
  { unfold registry_ok, keys_unique, edited_db. simpl.
    repeat split; repeat constructor; simpl; try lia; intros []. }
  split; [exact Hok|].
  let r := eval vm_compute in
             (seed_core_agents.seed_agents "" (Some "postgresql://db") edited_db) in
  match r with
  | seed_core_agents.Seeded ?d _ _ =>
      pose (db1 := d);
      assert (Hrun : seed_core_agents.seed_agents "" (Some "postgresql://db") edited_db
                     = seed_core_agents.Seeded db1 15 1) by (vm_compute; reflexivity);
      destruct (@X2_seed_agents_idempotent string "" (Some "postgresql://db")
                  edited_db db1 15%nat 1%nat Hok Hrun) as (db2 & Hrun2 & Hp & Ha);
      exists db1, db2; split; [exact Hrun|]; split; [exact Hrun2|];
      split; [exact Hp|exact Ha]
  end.
Defined.

(** A second run of [seed_database] right after a first one. *)
Lemma seed_database_again {Other : Type}
    (read_text : string -> option string) (default_schedule_default : option string)
    (other_default : Other) (db db1 : Database.DB Other)
    (project_name project_path : string) (github_repo : option string) (i u : nat) :
  seed_agents.seed_database read_text default_schedule_default other_default
    db project_name project_path github_repo = (db1, i, u) ->
  seed_agents.seed_database read_text default_schedule_default other_default
    db1 project_name project_path github_repo
  = (db1, O, List.length (seed_agents.discover_agents read_text project_path)).
Proof.
  intros Hrun. unfold seed_agents.seed_database in *.
  set (up := Database.upsert_project _ _ _ _ db) in *.
  destruct up as [db0 pid] eqn:Hup.
  assert (Hdb : db1 = fst (fst (fold_left
      (seed_agents.upsert_agent default_schedule_default other_default pid)
      (seed_agents.discover_agents read_text project_path) (db0, O, O))))
    by (rewrite Hrun; reflexivity).
  assert (Hproj : Database.projects db1 = Database.projects (fst up)).
  { rewrite Hdb, discovery_fold_projects, Hup. reflexivity. }
  rewrite (upsert_project_again _ _ _ _ db db1 Hproj). fold up. rewrite Hup.
  cbn [snd].
  apply discovery_fold_fixed. intros a Hin. rewrite Hdb.
  apply discovery_fold_settles; [apply discover_agents_names|exact Hin].
Qed.

(** X3: [seed_database] is idempotent.  Whatever the registry holds, a
    second run with the same arguments over the same files leaves both
    tables as they are, row for row and column for column, inserts no row
    and counts every discovered agent as updated. *)
Theorem X3_seed_database_idempotent {Other : Type}
    (read_text : string -> option string) (default_schedule_default : option string)
    (other_default : Other) (db db1 : Database.DB Other)
    (project_name project_path : string) (github_repo : option string) (i u : nat) :
  seed_agents.seed_database read_text default_schedule_default other_default
    db project_name project_path github_repo = (db1, i, u) ->
  exists db2,
    seed_agents.seed_database read_text default_schedule_default other_default
      db1 project_name project_path github_repo
    = (db2, O, List.length (seed_agents.discover_agents read_text project_path))
    /\ Database.projects db2 = Database.projects db1
    /\ Database.agents db2 = Database.agents db1.
Proof.
  intros Hrun. exists db1.
  split; [exact (seed_database_again read_text default_schedule_default other_default
                   db db1 project_name project_path github_repo i u Hrun)|].
  split; reflexivity.
Qed.

(** X3 on the portal registry with one row edited by hand and one script
    on disk. *)
Lemma X3_witness :
  exists db1 db2,
    seed_agents.seed_database one_script_fs None "" edited_portal_db
      "marketing-content-portal" "/srv/portal" None = (db1, O, 1%nat)
    /\ seed_agents.seed_database one_script_fs None "" db1
         "marketing-content-portal" "/srv/portal" None
       = (db2, O, List.length (seed_agents.discover_agents one_script_fs "/srv/portal"))
    /\ Database.projects db2 = Database.projects db1
    /\ Database.agents db2 = Database.agents db1.
Proof.
  let r := eval vm_compute in
             (seed_agents.seed_database one_script_fs None "" edited_portal_db
                "marketing-content-portal" "/srv/portal" None) in
  match r with
  | (?d, _, _) =>
      pose (db1 := d);
      assert (Hrun : seed_agents.seed_database one_script_fs None "" edited_portal_db
                       "marketing-content-portal" "/srv/portal" None = (db1, O, 1%nat))
        by (vm_compute; reflexivity);
      destruct (@X3_seed_database_idempotent string one_script_fs None ""
                  edited_portal_db db1 "marketing-content-portal" "/srv/portal" None
                  O 1%nat Hrun) as (db2 & Hrun2 & Hp & Ha);
      exists db1, db2; split; [exact Hrun|]; split; [exact Hrun2|];
      split; [exact Hp|exact Ha]
  end.
Defined.

(** X4: a seed run touches only the rows of its own agents.  Every row
    that belongs to another project, or whose name is not one the run
    seeds, is afterwards exactly as it was, at its place in the table:
    for [seed_agents] on a registry that satisfies the constraints, the
    rows outside the sixteen names of [CORE_AGENTS] in the Mission Control
    project; for [seed_database], the rows outside the names of the
    discovered agents in its project. *)
Theorem X4_seed_leaves_other_rows {Other : Type} :
  (forall (other_default : Other) url (db db' : Database.DB Other) c u prow,
      registry_ok db ->
      seed_core_agents.seed_agents other_default url db
      = seed_core_agents.Seeded db' c u ->
      Database.select_project "Mission Control" db' = Some prow ->
      rows_kept
        (fun r r' =>
           Database.agent_project_id r <> Database.project_id prow
           \/ ~ In (Database.agent_name r)
                   (List.map seed_core_agents.name seed_core_agents.CORE_AGENTS) ->
           r' = r)
        db db')
  /\ (forall read_text default_schedule_default (other_default : Other)
        (db db' : Database.DB Other) project_name project_path github_repo i u prow,
        seed_agents.seed_database read_text default_schedule_default other_default
          db project_name project_path github_repo = (db', i, u) ->
        Database.select_project project_name db' = Some prow ->
        rows_kept
          (fun r r' =>
             Database.agent_project_id r <> Database.project_id prow
             \/ ~ In (Database.agent_name r)
                     (List.map seed_agents.name
                        (seed_agents.discover_agents read_text project_path)) ->
             r' = r)
          db db').
Proof.
  split.
  - intros od url db db' c u prow Hok Hrun Hsel.
    apply seed_agents_from_inv in Hrun. cbv zeta in Hrun.
    set (up := Database.upsert_project _ _ _ _ db) in Hrun.
    assert (Hdb : db' = fst (fst (fold_left
        (seed_core_agents.seed_agent od (snd up)) seed_core_agents.CORE_AGENTS
        (fst up, O, O)))) by (rewrite Hrun; reflexivity).
    destruct (upsert_project_selected "Mission Control" None
                "Core worker agents for CEO Agent orchestration" false db)
      as (prow' & Hsel' & Hid).
    fold up in Hsel', Hid.
    assert (prow' = prow).
    { unfold Database.select_project in *. rewrite Hdb, fold_projects in Hsel.
      simpl in Hsel. congruence. }
    subst prow'.
    pose proof (fold_frame od (snd up) seed_core_agents.CORE_AGENTS (fst up, O, O))
      as Hframe.
    assert (Hagents : Database.agents (fst up) = Database.agents db)
      by apply upsert_project_agents.
    rewrite <- Hdb in Hframe. unfold rows_kept in *. cbn [fst] in Hframe.
    rewrite !Hagents in Hframe.
    eapply List.Forall2_impl; [|apply Hframe, upsert_project_ok, Hok].
    cbv beta. intros r r' Hkept Hout. apply Hkept. intros d Hin Hkey.
    unfold Database.agent_key in Hkey. inversion Hkey as [[Hp Hn]].
    destruct Hout as [Hout|Hout].
    + apply Hout. congruence.
    + apply Hout. rewrite Hn. apply in_map, Hin.
  - intros read_text dsd od db db' pn pp gr i u prow Hrun Hsel.
    unfold seed_agents.seed_database in Hrun.
    set (up := Database.upsert_project _ _ _ _ db) in Hrun.
    destruct (upsert_project_selected pn gr ("Marketing content portal at " +:+ pp)
                true db) as (prow' & Hsel' & Hid).
    fold up in Hsel', Hid.
    pose proof (upsert_project_agents pn gr
                  ("Marketing content portal at " +:+ pp) true db) as Hagents.
    fold up in Hagents.
    destruct up as [db0 pid]. cbn [fst snd] in *.
    assert (Hdb : db' = fst (fst (fold_left
        (seed_agents.upsert_agent dsd od pid)
        (seed_agents.discover_agents read_text pp) (db0, O, O))))
      by (rewrite Hrun; reflexivity).
    assert (prow' = prow).
    { unfold Database.select_project in *. rewrite Hdb, discovery_fold_projects in Hsel.
      simpl in Hsel. congruence. }
    subst prow'.
    pose proof (discovery_fold_frame dsd od pid
                  (seed_agents.discover_agents read_text pp) (db0, O, O)) as Hframe.
    rewrite <- Hdb in Hframe. unfold rows_kept in *. cbn [fst] in Hframe.
    rewrite Hagents in Hframe.
    eapply List.Forall2_impl; [|exact Hframe].
    cbv beta. intros r r' Hkept Hout. apply Hkept. intros a Hin Hkey.
    unfold Database.agent_key in Hkey. inversion Hkey as [[Hp Hn]].
    destruct Hout as [Hout|Hout].
    + apply Hout. congruence.
    + apply Hout. rewrite Hn. apply in_map, Hin.
Qed.

(** X4 on a registry where the portal holds an agent named like a core
    agent and Mission Control holds an agent named like a portal script:
    [seed_agents] leaves both rows as they were, and so does
    [seed_database] for the row of Mission Control. *)
Lemma X4_witness :
  registry_ok two_projects_db
  /\ (exists db' prow,
        seed_core_agents.seed_agents "" (Some "postgresql://db") two_projects_db
        = seed_core_agents.Seeded db' 16 0
        /\ Database.select_project "Mission Control" db' = Some prow
        /\ rows_kept
             (fun r r' =>
                Database.agent_project_id r <> Database.project_id prow
                \/ ~ In (Database.agent_name r)
                        (List.map seed_core_agents.name seed_core_agents.CORE_AGENTS) ->
                r' = r)
             two_projects_db db')
  /\ (exists db' prow,
        seed_agents.seed_database one_script_fs None "" two_projects_db
          "marketing-content-portal" "/srv/portal" None = (db', 1%nat, O)
        /\ Database.select_project "marketing-content-portal" db' = Some prow
        /\ rows_kept
             (fun r r' =>
                Database.agent_project_id r <> Database.project_id prow
                \/ ~ In (Database.agent_name r)
                        (List.map seed_agents.name
                           (seed_agents.discover_agents one_script_fs "/srv/portal")) ->
                r' = r)
             two_projects_db db').
Proof.
  assert (Hok : registry_ok two_projects_db).
  { unfold registry_ok, keys_unique, two_projects_db. simpl.
    repeat split; repeat constructor; simpl; try lia;
      try (intros [H|[]]; discriminate H); intros []. }
  split; [exact Hok|]. split.
  - let r := eval vm_compute in
               (seed_core_agents.seed_agents "" (Some "postgresql://db")
                  two_projects_db) in
    match r with
    | seed_core_agents.Seeded ?d _ _ =>
        pose (db' := d);
        assert (Hrun : seed_core_agents.seed_agents "" (Some "postgresql://db")
                         two_projects_db
                       = seed_core_agents.Seeded db' 16 0) by (vm_compute; reflexivity);
        let p := eval vm_compute in (Database.select_project "Mission Control" d) in
        match p with
        | Some ?pr =>
            pose (prow := pr);
            assert (Hsel : Database.select_project "Mission Control" db' = Some prow)
              by (vm_compute; reflexivity);
            exists db', prow; split; [exact Hrun|]; split; [exact Hsel|];
            exact (proj1 (@X4_seed_leaves_other_rows string) ""
                     (Some "postgresql://db") two_projects_db db' 16%nat 0%nat prow
                     Hok Hrun Hsel)
        end
    end.
  - let r := eval vm_compute in
               (seed_agents.seed_database one_script_fs None "" two_projects_db
                  "marketing-content-portal" "/srv/portal" None) in
    match r with
    | (?d, _, _) =>
        pose (db' := d);
        assert (Hrun : seed_agents.seed_database one_script_fs None "" two_projects_db
                         "marketing-content-portal" "/srv/portal" None
                       = (db', 1%nat, O)) by (vm_compute; reflexivity);
        let p := eval vm_compute in
                   (Database.select_project "marketing-content-portal" d) in
        match p with
        | Some ?pr =>
            pose (prow := pr);
            assert (Hsel : Database.select_project "marketing-content-portal" db'
                           = Some prow) by (vm_compute; reflexivity);
            exists db', prow; split; [exact Hrun|]; split; [exact Hsel|];
            exact (proj2 (@X4_seed_leaves_other_rows string) one_script_fs None ""
                     two_projects_db db' "marketing-content-portal" "/srv/portal" None
                     1%nat O prow Hrun Hsel)
        end
    end.
Defined.



Section SeedProjects.

Import Database.
Context {Other : Type}.
Implicit Types (db : DB Other).

(** The project table after [seed_agents]. *)
Lemma seed_agents_project (other_default : Other) url db db' c u :
  seed_core_agents.seed_agents other_default url db
  = seed_core_agents.Seeded db' c u ->
  (forall n, n <> "Mission Control" -> select_project n db' = select_project n db)
  /\ exists prow',
       select_project "Mission Control" db' = Some prow'
       /\ project_name prow' = "Mission Control"
       /\ project_description prow' = "Core worker agents for CEO Agent orchestration"
       /\ forall prow,
            select_project "Mission Control" db = Some prow ->
            project_id prow' = project_id prow
            /\ project_github_repo prow' = project_github_repo prow.
Proof.
  intros Hrun.
  apply seed_agents_from_inv in Hrun. cbv zeta in Hrun.
  set (up := upsert_project _ _ _ _ db) in Hrun.
  assert (Hproj : projects db' = projects (fst up)).
  { replace db' with (fst (fst (fold_left
        (seed_core_agents.seed_agent other_default (snd up))
        seed_core_agents.CORE_AGENTS (fst up, O, O)))) by (rewrite Hrun; reflexivity).
    apply fold_projects. }
  assert (Hsel : forall n, select_project n db' = select_project n (fst up)).
  { intros n. unfold select_project. rewrite Hproj. reflexivity. }
  split.
  - intros n Hn. rewrite Hsel. apply upsert_project_other, Hn.
  - rewrite Hsel. unfold up.
    destruct (select_project "Mission Control" db) as [prow|] eqn:Hs.
    + rewrite (upsert_project_row _ _ _ false _ _ Hs).
      eexists. split; [reflexivity|]. cbn.
      unfold select_project in Hs.
      apply List.find_some in Hs as [_ Hn]. apply String.eqb_eq in Hn.
      split; [exact Hn|]. split; [reflexivity|].
      intros p Hp. inversion Hp. split; reflexivity.
    + rewrite (upsert_project_new _ _ _ _ _ Hs).
      eexists. split; [reflexivity|]. cbn.
      split; [reflexivity|]. split; [reflexivity|].
      intros p Hp. discriminate Hp.
Qed.

(** The project table after [seed_database]. *)
Lemma seed_database_project read_text default_schedule_default (other_default : Other)
    db db' project_name project_path github_repo i u :
  seed_agents.seed_database read_text default_schedule_default other_default
    db project_name project_path github_repo = (db', i, u) ->
  (forall n, n <> project_name -> select_project n db' = select_project n db)
  /\ exists prow',
       select_project project_name db' = Some prow'
       /\ Database.project_name prow' = project_name
       /\ project_description prow' = "Marketing content portal at " +:+ project_path
       /\ project_github_repo prow' = github_repo
       /\ forall prow,
            select_project project_name db = Some prow ->
            project_id prow' = project_id prow.
Proof.
  intros Hrun.
  unfold seed_agents.seed_database in Hrun.
  set (up := upsert_project _ _ _ _ db) in Hrun.
  assert (Hproj : projects db' = projects (fst up)).
  { destruct up as [db0 pid].
    replace db' with (fst (fst (fold_left
        (seed_agents.upsert_agent default_schedule_default other_default pid)
        (seed_agents.discover_agents read_text project_path) (db0, O, O))))
      by (rewrite Hrun; reflexivity).
    apply discovery_fold_projects. }
  assert (Hsel : forall n, select_project n db' = select_project n (fst up)).
  { intros n. unfold select_project. rewrite Hproj. reflexivity. }
  split.
  - intros n Hn. rewrite Hsel. apply upsert_project_other, Hn.
  - rewrite Hsel. unfold up.
    destruct (select_project project_name db) as [prow|] eqn:Hs.
    + rewrite (upsert_project_row _ _ _ true _ _ Hs).
      eexists. split; [reflexivity|]. cbn.
      unfold select_project in Hs.
      apply List.find_some in Hs as [_ Hn]. apply String.eqb_eq in Hn.
      split; [exact Hn|]. split; [reflexivity|]. split; [reflexivity|].
      intros p Hp. inversion Hp. reflexivity.
    + rewrite (upsert_project_new _ _ _ _ _ Hs).
      eexists. split; [reflexivity|]. cbn.
      split; [reflexivity|]. split; [reflexivity|]. split; [reflexivity|].
      intros p Hp. discriminate Hp.
Qed.

End SeedProjects.

(** X6: what a seed run does to the [projects] table.  It touches no
    project of another name, and afterwards the project of its name is
    there with the description the run gives it and, when it existed, the
    identifier it had.  [seed_agents] keeps the github_repo of an existing
    Mission Control project; [seed_database] overwrites the github_repo
    with its argument, also when that argument is None. *)
Theorem X6_seed_project_row {Other : Type} :
  (forall (other_default : Other) url (db db' : Database.DB Other) c u,
      seed_core_agents.seed_agents other_default url db
      = seed_core_agents.Seeded db' c u ->
      (forall n, n <> "Mission Control" ->
         Database.select_project n db' = Database.select_project n db)
      /\ exists prow',
           Database.select_project "Mission Control" db' = Some prow'
           /\ Database.project_name prow' = "Mission Control"
           /\ Database.project_description prow'
              = "Core worker agents for CEO Agent orchestration"
           /\ forall prow,
                Database.select_project "Mission Control" db = Some prow ->
                Database.project_id prow' = Database.project_id prow
                /\ Database.project_github_repo prow'
                   = Database.project_github_repo prow)
  /\ (forall read_text default_schedule_default (other_default : Other)
        (db db' : Database.DB Other) project_name project_path github_repo i u,
        seed_agents.seed_database read_text default_schedule_default other_default
          db project_name project_path github_repo = (db', i, u) ->
        (forall n, n <> project_name ->
           Database.select_project n db' = Database.select_project n db)
        /\ exists prow',
             Database.select_project project_name db' = Some prow'
             /\ Database.project_name prow' = project_name
             /\ Database.project_description prow'
                = "Marketing content portal at " +:+ project_path
             /\ Database.project_github_repo prow' = github_repo
             /\ forall prow,
                  Database.select_project project_name db = Some prow ->
                  Database.project_id prow' = Database.project_id prow).
Proof.
  split.
  - intros od url db db' c u Hrun. exact (seed_agents_project od url db db' c u Hrun).
  - intros read_text dsd od db db' pn pp gr i u Hrun.
    exact (seed_database_project read_text dsd od db db' pn pp gr i u Hrun).
Qed.

(** X6 on a registry whose two projects have a repository: [seed_agents]
    keeps the one of Mission Control, [seed_database] run without a
    repository clears the one of the portal. *)
Lemma X6_witness :
  (exists db' c u,
     seed_core_agents.seed_agents "" (Some "postgresql://db") portal_db
     = seed_core_agents.Seeded db' c u
     /\ exists prow',
          Database.select_project "Mission Control" db' = Some prow'
          /\ Database.project_name prow' = "Mission Control"
          /\ Database.project_description prow'
             = "Core worker agents for CEO Agent orchestration"
          /\ forall prow,
               Database.select_project "Mission Control" portal_db = Some prow ->
               Database.project_id prow' = Database.project_id prow
               /\ Database.project_github_repo prow'
                  = Database.project_github_repo prow)
  /\ (exists db' i u,
        seed_agents.seed_database one_script_fs None "" portal_db
          "marketing-content-portal" "/srv/portal" None = (db', i, u)
        /\ exists prow',
             Database.select_project "marketing-content-portal" db' = Some prow'
             /\ Database.project_name prow' = "marketing-content-portal"
             /\ Database.project_description prow'
                = "Marketing content portal at " +:+ "/srv/portal"
             /\ Database.project_github_repo prow' = None
             /\ forall prow,
                  Database.select_project "marketing-content-portal" portal_db
                  = Some prow ->
                  Database.project_id prow' = Database.project_id prow).
Proof.
  split.
  - let r := eval vm_compute in
               (seed_core_agents.seed_agents "" (Some "postgresql://db") portal_db) in
    match r with
    | seed_core_agents.Seeded ?d ?c ?u =>
        pose (db' := d);
        assert (Hrun : seed_core_agents.seed_agents "" (Some "postgresql://db") portal_db
                       = seed_core_agents.Seeded db' c u) by (vm_compute; reflexivity);
        exists db', c, u; split; [exact Hrun|];
        exact (proj2 (proj1 (@X6_seed_project_row string)
                        "" (Some "postgresql://db") portal_db db' c u Hrun))
    end.
  - let r := eval vm_compute in
               (seed_agents.seed_database one_script_fs None "" portal_db
                  "marketing-content-portal" "/srv/portal" None) in
    match r with
    | (?d, ?i, ?u) =>
        pose (db' := d);
        assert (Hrun : seed_agents.seed_database one_script_fs None "" portal_db
                         "marketing-content-portal" "/srv/portal" None = (db', i, u))
          by (vm_compute; reflexivity);
        exists db', i, u; split; [exact Hrun|];
        exact (proj2 (proj2 (@X6_seed_project_row string)
                        one_script_fs None "" portal_db db'
                        "marketing-content-portal" "/srv/portal" None i u Hrun))
    end.
Defined.

(** X7: after [seed_database], every discovered agent has a row in the
    project, and every row of its (project, name) pair holds the agent's
    description, script path, parameters and tags. *)
Theorem X7_seed_database_writes_metadata {Other : Type}
    (read_text : string -> option string) (default_schedule_default : option string)
    (other_default : Other) (db db' : Database.DB Other)
    (project_name project_path : string) (github_repo : option string) (i u : nat)
    (prow : Database.ProjectRow) :
  seed_agents.seed_database read_text default_schedule_default other_default
    db project_name project_path github_repo = (db', i, u) ->
  Database.select_project project_name db' = Some prow ->
  forall a, In a (seed_agents.discover_agents read_text project_path) ->
    present (Database.project_id prow) (seed_agents.name a) db'
    /\ forall r, In r (Database.agents db') ->
         Database.agent_key r = (Database.project_id prow, seed_agents.name a) ->
         carries_discovery a r.
Proof.
  intros Hrun Hsel a Hin. unfold seed_agents.seed_database in Hrun.
  set (up := Database.upsert_project _ _ _ _ db) in Hrun.
  destruct (upsert_project_selected project_name github_repo
              ("Marketing content portal at " +:+ project_path) true db)
    as (prow' & Hsel' & Hid).
  fold up in Hsel', Hid.
  destruct up as [db0 pid]. cbn [fst snd] in *.
  assert (Hdb : db' = fst (fst (fold_left
      (seed_agents.upsert_agent default_schedule_default other_default pid)
      (seed_agents.discover_agents read_text project_path) (db0, O, O))))
    by (rewrite Hrun; reflexivity).
  assert (prow' = prow).
  { unfold Database.select_project in *. rewrite Hdb, discovery_fold_projects in Hsel.
    simpl in Hsel. congruence. }
  subst prow'. rewrite Hid, Hdb.
  apply (discovery_fold_settles default_schedule_default other_default pid _
           (db0, O, O) (discover_agents_names read_text project_path) a Hin).
Qed.

(** X7 on the portal registry with one row edited by hand. *)
Lemma X7_witness :
  exists db' prow a,
    seed_agents.seed_database one_script_fs None "" edited_portal_db
      "marketing-content-portal" "/srv/portal" None = (db', O, 1%nat)
    /\ Database.select_project "marketing-content-portal" db' = Some prow
    /\ In a (seed_agents.discover_agents one_script_fs "/srv/portal")
    /\ present (Database.project_id prow) (seed_agents.name a) db'
    /\ forall r, In r (Database.agents db') ->
         Database.agent_key r = (Database.project_id prow, seed_agents.name a) ->
         carries_discovery a r.
Proof.
  let r := eval vm_compute in
             (seed_agents.seed_database one_script_fs None "" edited_portal_db
                "marketing-content-portal" "/srv/portal" None) in
  match r with
  | (?d, _, _) =>
      pose (db' := d);
      assert (Hrun : seed_agents.seed_database one_script_fs None "" edited_portal_db
                       "marketing-content-portal" "/srv/portal" None = (db', O, 1%nat))
        by (vm_compute; reflexivity);
      let p := eval vm_compute in
                 (Database.select_project "marketing-content-portal" d) in
      let l := eval vm_compute in
                 (seed_agents.discover_agents one_script_fs "/srv/portal") in
      match p with
      | Some ?pr =>
          match l with
          | ?x :: _ =>
              pose (prow := pr); pose (a := x);
              assert (Hsel : Database.select_project "marketing-content-portal" db'
                             = Some prow) by (vm_compute; reflexivity);
              assert (Hin : In a (seed_agents.discover_agents one_script_fs
                                    "/srv/portal"))
                by (vm_compute; left; reflexivity);
              exists db', prow, a;
              split; [exact Hrun|]; split; [exact Hsel|]; split; [exact Hin|];
              exact (@X7_seed_database_writes_metadata string one_script_fs None ""
                       edited_portal_db db' "marketing-content-portal" "/srv/portal"
                       None O 1%nat prow Hrun Hsel a Hin)
          end
      end
  end.
Defined.


(** * More on the Phase-4 migration *)

Ltac in_lines H :=
  simpl in H; repeat (destruct H as [H|H]; [try discriminate H|]); try contradiction.

(** The closing line is not printed and the run returned False. *)
Ltac early_in :=
  let H := fresh "H" in
  split; [intros H; in_lines H | intros H; discriminate H].

(** A run that ended before the commit. *)
Ltac early_exit Hfirst :=
  let H := fresh "H" in let line := fresh "line" in let Hline := fresh "Hline" in
  split; [early_in|]; split;
  [ split; [ intros H; specialize (H _ Hfirst); in_lines H
           | intros H; decompose record H; congruence ]
  | intros _ line Hline H; in_lines Hline; subst line; in_lines H ].

Ltac exact_committed sql Hex :=
  repeat split; exists sql; repeat split; exact Hex.

(** A run that raised after the commit. *)
Ltac late_exit sql Hex :=
  let H := fresh "H" in let line := fresh "line" in let Hline := fresh "Hline" in
  split; [early_in|]; split;
  [ split; [ intros _; exact_committed sql Hex
           | intros _ line Hline; in_lines Hline; subst line; simpl; tauto ]
  | intros H; exfalso; apply H; exact_committed sql Hex ].

(** X8: the closing line "CEO Agent system ready for orchestration!" is
    printed exactly when [run_migration] returns True; and the six
    "... created" lines are printed exactly when the schema was read,
    executed and committed without an exception, whatever happens
    afterwards: the verification may still raise or count no table. *)
Theorem X8_migration_report_lines (env : migrate_phase4.Env) :
  (In ready_line (snd (migrate_phase4.run_migration env))
   <-> fst (migrate_phase4.run_migration env) = true)
  /\ ((forall line, In line created_lines ->
         In line (snd (migrate_phase4.run_migration env)))
      <-> schema_committed env)
  /\ (~ schema_committed env ->
      forall line, In line created_lines ->
        ~ In line (snd (migrate_phase4.run_migration env))).
Proof.
  unfold schema_committed, migrate_phase4.run_migration, migrate_phase4.url_missing.
  destruct env as [url c cu rs ex co ev fc cc cn].
  unfold migrate_phase4.try_body, migrate_phase4.bind, migrate_phase4.call,
    migrate_phase4.print, migrate_phase4.ret.
  cbn [migrate_phase4.DATABASE_URL
    migrate_phase4.connect migrate_phase4.cursor migrate_phase4.read_schema
    migrate_phase4.execute_schema migrate_phase4.commit migrate_phase4.execute_verify
    migrate_phase4.fetch_count migrate_phase4.close_cursor
    migrate_phase4.close_connection].
  assert (Hfirst : In "  ✓ agent_workflows table created" created_lines)
    by (left; reflexivity).
  destruct url as [[|ch url]|]; [early_exit Hfirst| |early_exit Hfirst].
  destruct c as [e|[]]; [early_exit Hfirst|].
  destruct cu as [e|[]]; [early_exit Hfirst|].
  destruct rs as [e|sql]; [early_exit Hfirst|].
  destruct (ex sql) as [e|[]] eqn:Hex;
    [split; [early_in|]; split;
       [split; [intros H; specialize (H _ Hfirst); in_lines H
               |intros (_ & _ & _ & sql' & Hs & Hx & _); congruence]
       |intros _ line Hline H; in_lines Hline; subst line; in_lines H]|].
  destruct co as [e|[]]; [early_exit Hfirst|].
  destruct ev as [e|[]]; [late_exit sql Hex|].
  destruct fc as [e|n]; [late_exit sql Hex|].
  destruct (n =? 3).
  - destruct cc as [e|[]]; [late_exit sql Hex|].
    destruct cn as [e|[]]; [late_exit sql Hex|].
    split; [split; [reflexivity|intros _; simpl; tauto]|].
    split; [split; [intros _; exact_committed sql Hex
                   |intros _ line Hline; in_lines Hline; subst line; simpl; tauto]
           |intros Hno; exfalso; apply Hno; exact_committed sql Hex].
  - destruct cc as [e|[]]; [late_exit sql Hex|].
    destruct cn as [e|[]]; [late_exit sql Hex|].
    split; [split; [reflexivity|intros _; simpl; tauto]|].
    split; [split; [intros _; exact_committed sql Hex
                   |intros _ line Hline; in_lines Hline; subst line; simpl; tauto]
           |intros Hno; exfalso; apply Hno; exact_committed sql Hex].
Qed.

(** X8 where the verification query raises after the commit: the run
    returns False and has printed all six "created" lines. *)
Lemma X8_witness :
  schema_committed verification_fails
  /\ fst (migrate_phase4.run_migration verification_fails) = false
  /\ forall line, In line created_lines ->
       In line (snd (migrate_phase4.run_migration verification_fails)).
Proof.
  assert (Hc : schema_committed verification_fails).
  { unfold schema_committed. repeat split. eexists. repeat split. }
  split; [exact Hc|]. split; [reflexivity|].
  exact (proj2 (proj1 (proj2 (X8_migration_report_lines verification_fails))) Hc).
Defined.


(** X9: when [run_migration] returns True, the verification printed
    exactly one of its two lines, with the count it fetched: the success
    line when the count is 3, the warning in every other case. *)
Theorem X9_migration_verification_line (env : migrate_phase4.Env) :
  fst (migrate_phase4.run_migration env) = true ->
  exists table_count,
    migrate_phase4.fetch_count env = inr table_count
    /\ (In (confirmed_line table_count) (snd (migrate_phase4.run_migration env))
        <-> table_count = 3)
    /\ (In (warning_line table_count) (snd (migrate_phase4.run_migration env))
        <-> table_count <> 3).
Proof.
  unfold migrate_phase4.run_migration, migrate_phase4.url_missing.
  destruct env as [url c cu rs ex co ev fc cc cn].
  unfold migrate_phase4.try_body, migrate_phase4.bind, migrate_phase4.call,
    migrate_phase4.print, migrate_phase4.ret.
  cbn [migrate_phase4.DATABASE_URL
    migrate_phase4.connect migrate_phase4.cursor migrate_phase4.read_schema
    migrate_phase4.execute_schema migrate_phase4.commit migrate_phase4.execute_verify
    migrate_phase4.fetch_count migrate_phase4.close_cursor
    migrate_phase4.close_connection].
  destruct url as [[|ch url]|]; try (intros H; discriminate H).
  destruct c as [e|[]]; [intros H; discriminate H|].
  destruct cu as [e|[]]; [intros H; discriminate H|].
  destruct rs as [e|sql]; [intros H; discriminate H|].
  destruct (ex sql) as [e|[]]; [intros H; discriminate H|].
  destruct co as [e|[]]; [intros H; discriminate H|].
  destruct ev as [e|[]]; [intros H; discriminate H|].
  destruct fc as [e|n]; [intros H; discriminate H|].
  destruct (n =? 3) eqn:Hn.
  - apply Z.eqb_eq in Hn. subst n.
    destruct cc as [e|[]]; [intros H; discriminate H|].
    destruct cn as [e|[]]; [intros H; discriminate H|].
    intros _. exists 3. split; [reflexivity|]. split.
    + split; [reflexivity|]. intros _. simpl. tauto.
    + split; [|intros H; contradiction H; reflexivity].
      intros H. in_lines H.
  - apply Z.eqb_neq in Hn.
    destruct cc as [e|[]]; [intros H; discriminate H|].
    destruct cn as [e|[]]; [intros H; discriminate H|].
    intros _. exists n. split; [reflexivity|]. split.
    + split; [|intros H; contradiction].
      intros H. unfold confirmed_line, warning_line in H. in_lines H.
    + split; [intros _; exact Hn|]. intros _.
      unfold warning_line. simpl. tauto.
Qed.

(** X9 at a database where the verification finds two tables. *)
Lemma X9_witness :
  fst (migrate_phase4.run_migration (healthy_database 2)) = true
  /\ exists table_count,
       migrate_phase4.fetch_count (healthy_database 2) = inr table_count
       /\ (In (confirmed_line table_count)
              (snd (migrate_phase4.run_migration (healthy_database 2)))
           <-> table_count = 3)
       /\ (In (warning_line table_count)
              (snd (migrate_phase4.run_migration (healthy_database 2)))
           <-> table_count <> 3).
Proof.
  split; [reflexivity|].
  exact (X9_migration_verification_line (healthy_database 2) eq_refl).
Defined.

(** A run that left the [try] block with the exception [e]. *)
Ltac error_exit e :=
  let H := fresh "H" in
  exists e; eexists; split; [reflexivity|]; split;
  [ cbn [fst snd]; f_equal; match goal with
      | |- ?l ++ [?x] = _ ++ [?x] => reflexivity
      | |- _ => idtac
    end
  | intros H; in_lines H ].

(** X10: when [DATABASE_URL] is set and a call inside the [try] block
    raises, the last line [run_migration] prints is the error line with
    the text of the exception of the first call that raised, and the
    closing line was not printed before it. *)
Theorem X10_migration_error_line (env : migrate_phase4.Env) :
  migrate_phase4.url_missing env = false ->
  try_block_raises env ->
  exists e before,
    first_exception env = Some e
    /\ migrate_phase4.run_migration env
       = (false, before ++ [migrate_phase4.nl +:+ "  ERROR: Migration failed: " +:+ e])
    /\ ~ In ready_line before.
Proof.
  intros Hurl Hraises. unfold migrate_phase4.run_migration. rewrite Hurl. clear Hurl.
  revert Hraises. unfold try_block_raises, first_exception.
  destruct env as [url c cu rs ex co ev fc cc cn].
  unfold migrate_phase4.try_body, migrate_phase4.bind, migrate_phase4.call,
    migrate_phase4.print, migrate_phase4.ret.
  cbn [migrate_phase4.DATABASE_URL
    migrate_phase4.connect migrate_phase4.cursor migrate_phase4.read_schema
    migrate_phase4.execute_schema migrate_phase4.commit migrate_phase4.execute_verify
    migrate_phase4.fetch_count migrate_phase4.close_cursor
    migrate_phase4.close_connection].
  assert (Hno : forall (A : Type) (a : A), ~ raised (inr a : migrate_phase4.Raises A)).
  { intros A a [e He]. discriminate He. }
  destruct c as [e|[]]; [intros _; error_exit e|].
  destruct cu as [e|[]]; [intros _; error_exit e|].
  destruct rs as [e|sql]; [intros _; error_exit e|].
  destruct (ex sql) as [e|[]] eqn:Hex; [intros _; error_exit e|].
  destruct co as [e|[]]; [intros _; error_exit e|].
  destruct ev as [e|[]]; [intros _; error_exit e|].
  destruct fc as [e|n]; [intros _; error_exit e|].
  destruct (n =? 3);
    (destruct cc as [e|[]]; [intros _; error_exit e|];
     destruct cn as [e|[]]; [intros _; error_exit e|];
     intros H; exfalso;
     destruct H as [H|[H|[H|[H|[H|[H|[H|[H|H]]]]]]]];
     try (eapply Hno; exact H);
     destruct H as (sql' & Hsql & Hr); inversion Hsql; subst sql';
     rewrite Hex in Hr; eapply Hno; exact Hr).
Qed.

(** X10 where the connection is refused. *)
Lemma X10_witness :
  migrate_phase4.url_missing unreachable_database = false
  /\ try_block_raises unreachable_database
  /\ exists e before,
       first_exception unreachable_database = Some e
       /\ migrate_phase4.run_migration unreachable_database
          = (false, before ++ [migrate_phase4.nl +:+ "  ERROR: Migration failed: " +:+ e])
       /\ ~ In ready_line before.
Proof.
  assert (Hr : try_block_raises unreachable_database).
  { left. exists "connection refused". reflexivity. }
  split; [reflexivity|]. split; [exact Hr|].
  exact (X10_migration_error_line unreachable_database eq_refl Hr).
Defined.


(** * More on discovery and metadata extraction *)

Section StringFacts.

Local Arguments String.append : simpl nomatch.

Lemma append_assoc (a b c : string) : (a +:+ b) +:+ c = a +:+ b +:+ c.
Proof. induction a as [|x a IH]; simpl; [reflexivity|]. rewrite IH. reflexivity. Qed.

Lemma append_empty_r (a : string) : a +:+ "" = a.
Proof. induction a as [|x a IH]; simpl; [reflexivity|]. rewrite IH. reflexivity. Qed.

Lemma startswith_split (s p : string) :
  PyStr.startswith s p = true -> s = p +:+ PyStr.drop (String.length p) s.
Proof.
  revert s. induction p as [|a p IH]; intros s; simpl; [reflexivity|].
  destruct s as [|b s]; [discriminate|]. intros H.
  apply andb_prop in H as [Hab Hs]. apply Ascii.eqb_eq in Hab. subst b.
  simpl. f_equal. apply IH, Hs.
Qed.

Lemma contains_cons (needle : string) (c : ascii) (t : string) :
  PyStr.contains needle (String c t)
  = PyStr.startswith (String c t) needle || PyStr.contains needle t.
Proof. reflexivity. Qed.

Lemma contains_append (needle before after : string) :
  PyStr.contains needle after = true -> PyStr.contains needle (before +:+ after) = true.
Proof.
  intros H. induction before as [|c before IH]; [exact H|].
  change (String c before +:+ after) with (String c (before +:+ after)).
  rewrite contains_cons, IH. apply orb_true_r.
Qed.

Lemma contains_startswith (needle s : string) :
  PyStr.startswith s needle = true -> PyStr.contains needle s = true.
Proof. intros H. destruct s; simpl in *; rewrite H; reflexivity. Qed.

Lemma partition_split (needle s before after : string) :
  PyStr.partition needle s = Some (before, after) ->
  s = before +:+ needle +:+ after.
Proof.
  revert before after. induction s as [|c s IH]; intros before after;
    cbn [PyStr.partition].
  - destruct (PyStr.startswith "" needle) eqn:Hs; [|discriminate].
    intros H. inversion H; subst. apply (startswith_split "" needle Hs).
  - destruct (PyStr.startswith (String c s) needle) eqn:Hs.
    + intros H. inversion H; subst. apply (startswith_split _ needle Hs).
    + destruct (PyStr.partition needle s) as [[b a]|]; [|discriminate].
      intros H. inversion H; subst.
      change (String c b +:+ needle +:+ after) with (String c (b +:+ needle +:+ after)).
      f_equal. apply IH. reflexivity.
Qed.

Lemma partition_none (needle s : string) :
  PyStr.contains needle s = false -> PyStr.partition needle s = None.
Proof.
  induction s as [|c s IH].
  - destruct needle; [discriminate|]. reflexivity.
  - rewrite contains_cons. intros H. apply orb_false_elim in H as [Hs Hc].
    cbn [PyStr.partition]. rewrite Hs, (IH Hc). reflexivity.
Qed.

Lemma lstrip_suffix (s : string) : exists pre, s = pre +:+ PyStr.lstrip s.
Proof.
  induction s as [|c s [pre IH]]; [exists ""; reflexivity|]. simpl.
  destruct (PyStr.is_space c).
  - exists (String c pre). simpl. f_equal. exact IH.
  - exists "". reflexivity.
Qed.

Lemma lstrip_head (s : string) c t :
  PyStr.lstrip s = String c t -> PyStr.is_space c = false.
Proof.
  induction s as [|x s IH]; simpl; [discriminate|].
  destruct (PyStr.is_space x) eqn:Hx; [exact IH|].
  intros H. inversion H; subst. exact Hx.
Qed.

Lemma rstrip_prefix (s : string) : exists post, s = PyStr.rstrip s +:+ post.
Proof.
  induction s as [|c s [post IH]]; [exists ""; reflexivity|]. simpl.
  destruct (PyStr.rstrip s) as [|y r] eqn:Hr.
  - destruct (PyStr.is_space c).
    + exists (String c s). reflexivity.
    + exists s. reflexivity.
  - exists post. simpl. f_equal. exact IH.
Qed.

Lemma rstrip_head (c : ascii) (t : string) :
  PyStr.is_space c = false -> exists t', PyStr.rstrip (String c t) = String c t'.
Proof.
  intros Hc. simpl. destruct (PyStr.rstrip t); [rewrite Hc|]; eauto.
Qed.

Lemma first_line_prefix (s : string) : exists post, s = PyStr.first_line s +:+ post.
Proof.
  induction s as [|c s [post IH]]; [exists ""; reflexivity|]. simpl.
  destruct (Ascii.eqb c PyStr.LF).
  - exists (String c s). reflexivity.
  - exists post. simpl. f_equal. exact IH.
Qed.

Lemma contains_newline_cons (c : ascii) (t : string) :
  PyStr.contains PyStr.newline (String c t)
  = Ascii.eqb c PyStr.LF || PyStr.contains PyStr.newline t.
Proof.
  rewrite contains_cons. unfold PyStr.newline at 1. cbn [PyStr.startswith].
  rewrite Ascii.eqb_sym. destruct t; rewrite andb_true_r; reflexivity.
Qed.

Lemma first_line_no_newline (s : string) :
  PyStr.contains PyStr.newline (PyStr.first_line s) = false.
Proof.
  induction s as [|c s IH]; [reflexivity|]. cbn [PyStr.first_line].
  destruct (Ascii.eqb c PyStr.LF) eqn:Hc; [reflexivity|].
  rewrite contains_newline_cons, Hc, IH. reflexivity.
Qed.

Lemma take_prefix (n : nat) (s : string) : exists post, s = PyStr.take n s +:+ post.
Proof.
  revert s. induction n as [|n IH]; intros s; [exists s; destruct s; reflexivity|].
  destruct s as [|c s]; [exists ""; reflexivity|].
  destruct (IH s) as [post Hp]. exists post. simpl. f_equal. exact Hp.
Qed.

Lemma take_no_newline (n : nat) (s : string) :
  PyStr.contains PyStr.newline s = false ->
  PyStr.contains PyStr.newline (PyStr.take n s) = false.
Proof.
  revert s. induction n as [|n IH]; intros s; [destruct s; reflexivity|].
  destruct s as [|c s]; [reflexivity|]. cbn [PyStr.take].
  rewrite !contains_newline_cons.
  intros H. apply orb_false_elim in H as [Hc Hs]. rewrite Hc, (IH s Hs). reflexivity.
Qed.

End StringFacts.


Section OccursFacts.

Lemma occurs_in_refl (s : string) : occurs_in s s.
Proof. exists "", "". simpl. symmetry. apply append_empty_r. Qed.

Lemma occurs_in_trans (a b c : string) : occurs_in a b -> occurs_in b c -> occurs_in a c.
Proof.
  intros (b1 & a1 & ->) (b2 & a2 & ->). exists (b2 +:+ b1), (a1 +:+ a2).
  rewrite !append_assoc. reflexivity.
Qed.

Lemma occurs_in_prefix (a post : string) : occurs_in a (a +:+ post).
Proof. exists "", post. reflexivity. Qed.

Lemma occurs_in_suffix (pre a : string) : occurs_in a (pre +:+ a).
Proof. exists pre, "". rewrite append_empty_r. reflexivity. Qed.

Lemma occurs_in_empty (s : string) : occurs_in "" s.
Proof. exists "", s. reflexivity. Qed.

Lemma search_docstring_occurs (content group1 : string) :
  seed_agents.search_docstring content = Some group1 -> occurs_in group1 content.
Proof.
  unfold seed_agents.search_docstring.
  destruct (PyStr.partition _ content) as [[b1 a1]|] eqn:H1; [|discriminate].
  destruct (PyStr.partition _ a1) as [[doc a2]|] eqn:H2; [|discriminate].
  intros H. inversion H; subst doc.
  apply partition_split in H1, H2. subst a1.
  exists (b1 +:+ seed_agents.triple_quote), (seed_agents.triple_quote +:+ a2).
  rewrite H1, !append_assoc. reflexivity.
Qed.

Lemma strip_occurs (s : string) : occurs_in (PyStr.strip s) s.
Proof.
  unfold PyStr.strip.
  destruct (lstrip_suffix s) as [pre Hpre].
  destruct (rstrip_prefix (PyStr.lstrip s)) as [post Hpost].
  apply (occurs_in_trans _ (PyStr.lstrip s)).
  - exists "", post. exact Hpost.
  - exists pre, "". rewrite append_empty_r. exact Hpre.
Qed.

Lemma strip_lstrip (s : string) : PyStr.lstrip (PyStr.strip s) = PyStr.strip s.
Proof.
  unfold PyStr.strip. destruct (PyStr.lstrip s) as [|c t] eqn:Hl; [reflexivity|].
  pose proof (lstrip_head s c t Hl) as Hc.
  destruct (rstrip_head c t Hc) as [t' Ht]. rewrite Ht. simpl. rewrite Hc. reflexivity.
Qed.

Lemma first_line_lstrip (s : string) :
  PyStr.lstrip s = s -> PyStr.lstrip (PyStr.first_line s) = PyStr.first_line s.
Proof.
  destruct s as [|c t]; [reflexivity|]. simpl.
  destruct (PyStr.is_space c) eqn:Hc.
  - intros H. exfalso.
    assert (Hlen : forall u, (String.length (PyStr.lstrip u) <= String.length u)%nat).
    { induction u as [|x u IH]; simpl; [lia|]. destruct (PyStr.is_space x); simpl; lia. }
    specialize (Hlen t). rewrite H in Hlen. simpl in Hlen. lia.
  - intros _. destruct (Ascii.eqb c PyStr.LF) eqn:Hlf.
    + reflexivity.
    + simpl. rewrite Hc. reflexivity.
Qed.

Lemma take_lstrip (n : nat) (s : string) :
  PyStr.lstrip s = s -> PyStr.lstrip (PyStr.take n s) = PyStr.take n s.
Proof.
  destruct n as [|n]; [destruct s; reflexivity|].
  destruct s as [|c t]; [reflexivity|]. simpl.
  destruct (PyStr.is_space c) eqn:Hc.
  - intros H. exfalso.
    assert (Hlen : forall u, (String.length (PyStr.lstrip u) <= String.length u)%nat).
    { induction u as [|x u IH]; simpl; [lia|]. destruct (PyStr.is_space x); simpl; lia. }
    specialize (Hlen t). rewrite H in Hlen. simpl in Hlen. lia.
  - reflexivity.
Qed.

End OccursFacts.

(** X11: the description [extract_agent_metadata] returns is a piece of
    the script text, holds no line feed and does not start with white
    space.  For a text without a docstring delimiter, the description is
    empty and the steps count is 0. *)
Theorem X11_description_is_one_line_of_the_script (script_path content : string) :
  let m := seed_agents.extract_agent_metadata script_path content in
  occurs_in (seed_agents.description m) content
  /\ PyStr.contains PyStr.newline (seed_agents.description m) = false
  /\ PyStr.lstrip (seed_agents.description m) = seed_agents.description m
  /\ (PyStr.contains seed_agents.triple_quote content = false ->
      seed_agents.description m = "" /\ seed_agents.steps_count m = O).
Proof.
  cbv zeta. unfold seed_agents.extract_agent_metadata. cbv zeta.
  cbn [seed_agents.description seed_agents.steps_count].
  destruct (seed_agents.search_docstring content) as [group1|] eqn:Hdoc.
  - split; [|split; [|split]].
    + destruct (take_prefix 500 (PyStr.first_line (PyStr.strip group1))) as [p1 H1].
      destruct (first_line_prefix (PyStr.strip group1)) as [p2 H2].
      apply (occurs_in_trans _ (PyStr.first_line (PyStr.strip group1)));
        [exists "", p1; exact H1|].
      apply (occurs_in_trans _ (PyStr.strip group1)); [exists "", p2; exact H2|].
      apply (occurs_in_trans _ group1); [apply strip_occurs|].
      apply search_docstring_occurs, Hdoc.
    + apply take_no_newline, first_line_no_newline.
    + apply take_lstrip, first_line_lstrip, strip_lstrip.
    + intros Hno. unfold seed_agents.search_docstring in Hdoc.
      rewrite (partition_none _ _ Hno) in Hdoc. discriminate Hdoc.
  - repeat split. apply occurs_in_empty.
Qed.

(** X11 on a text without a docstring. *)
Lemma X11_witness :
  PyStr.contains seed_agents.triple_quote "import os" = false
  /\ seed_agents.description
       (seed_agents.extract_agent_metadata "scripts/health_monitor.py" "import os") = ""
  /\ seed_agents.steps_count
       (seed_agents.extract_agent_metadata "scripts/health_monitor.py" "import os") = O.
Proof.
  split; [reflexivity|].
  exact (proj2 (proj2 (proj2 (X11_description_is_one_line_of_the_script
                                "scripts/health_monitor.py" "import os"))) eq_refl).
Defined.

Section TagFacts.

Import seed_agents.

Lemma append_if_sublist (c : bool) (tag : string) (l rest : list string) :
  sublist l rest -> sublist (append_if c tag l) (rest ++ [tag]).
Proof.
  intros H. unfold append_if. destruct c.
  - apply sublist_app; [exact H|reflexivity].
  - rewrite <- (app_nil_r l). apply sublist_app; [exact H|]. apply sublist_nil_l.
Qed.

End TagFacts.

(** X12: the tags [extract_agent_metadata] returns are drawn from eight
    fixed tags and keep their fixed order: the list is the vocabulary
    with some tags left out, so no tag occurs twice and there are at most
    eight. *)
Theorem X12_tags_from_the_vocabulary (script_path content : string) :
  let tags := seed_agents.tags (seed_agents.extract_agent_metadata script_path content) in
  sublist tags tag_vocabulary
  /\ List.NoDup tags
  /\ (List.length tags <= 8)%nat.
Proof.
  cbv zeta.
  assert (Hsub : sublist
            (seed_agents.tags (seed_agents.extract_agent_metadata script_path content))
            tag_vocabulary).
  { unfold seed_agents.extract_agent_metadata. cbv zeta. cbn [seed_agents.tags].
    unfold tag_vocabulary.
    change ["python"; "enrichment"; "import"; "debugging"; "monitoring"; "deployment";
            "orchestration"; "ai-powered"]
      with (((((((["python"] ++ ["enrichment"]) ++ ["import"]) ++ ["debugging"])
                ++ ["monitoring"]) ++ ["deployment"]) ++ ["orchestration"])
            ++ ["ai-powered"]).
    repeat apply append_if_sublist. reflexivity. }
  split; [exact Hsub|]. split.
  - apply NoDup_ListNoDup. eapply sublist_NoDup; [|exact Hsub].
    apply NoDup_ListNoDup. unfold tag_vocabulary.
    repeat (constructor; [simpl; intros Hin; repeat destruct Hin as [Hin|Hin];
                          try discriminate Hin; exact Hin|]).
    constructor.
  - apply sublist_length in Hsub. exact Hsub.
Qed.


Section ParameterFacts.

Import seed_agents.

Lemma digits_value_nonneg (s : string) : forall acc, 0 <= acc -> 0 <= PyStr.digits_value acc s.
Proof.
  induction s as [|c s IH]; intros acc Hacc; simpl; [exact Hacc|].
  apply IH. lia.
Qed.

Lemma search_default_nonempty (s digits : string) :
  search_default s = Some digits -> digits <> "".
Proof.
  induction s as [|c s IH]; cbn [search_default].
  - destruct (PyStr.startswith "" "default="); [|discriminate].
    destruct (leading_digits _); [discriminate|]. intros H. inversion H. discriminate.
  - destruct (PyStr.startswith (String c s) "default=").
    + destruct (leading_digits _) eqn:Hd.
      * destruct (Ascii.eqb c PyStr.LF); [discriminate|exact IH].
      * intros H. inversion H. discriminate.
    + destruct (Ascii.eqb c PyStr.LF); [discriminate|exact IH].
Qed.

Lemma search_limit_found (content digits : string) :
  search_limit content = Some digits ->
  digits <> "" /\ PyStr.contains "'--limit'" content = true.
Proof.
  induction content as [|c s IH]; cbn [search_limit].
  - simpl. discriminate.
  - destruct (PyStr.startswith (String c s) "'--limit'") eqn:Hs.
    + destruct (search_default _) as [d|] eqn:Hd.
      * intros H. inversion H; subst d. split.
        -- eapply search_default_nonempty, Hd.
        -- apply contains_startswith, Hs.
      * intros H. apply IH in H as [Hne Hc]. split; [exact Hne|].
        rewrite contains_cons, Hc. apply orb_true_r.
    + intros H. apply IH in H as [Hne Hc]. split; [exact Hne|].
      rewrite contains_cons, Hc. apply orb_true_r.
Qed.

Lemma leading_unquoted_unquoted (s : string) : unquoted (leading_unquoted s) = true.
Proof.
  induction s as [|c s IH]; [reflexivity|]. simpl.
  destruct (is_quote c) eqn:Hc; [reflexivity|]. simpl. rewrite Hc, IH. reflexivity.
Qed.

Lemma match_model_tail_found (s model : string) :
  match_model_tail s = Some model -> model <> "" /\ unquoted model = true.
Proof.
  unfold match_model_tail.
  destruct (PyStr.lstrip s) as [|c t]; [discriminate|].
  destruct (Ascii.eqb c "=") eqn:Hc.
  - apply Ascii.eqb_eq in Hc. subst c.
    destruct (PyStr.lstrip t) as [|q u]; [discriminate|].
    destruct (is_quote q); [|discriminate].
    pose proof (leading_unquoted_unquoted u) as Hu.
    destruct (leading_unquoted u); [discriminate|].
    intros H. inversion H; subst model. split; [discriminate|exact Hu].
  - intros H. exfalso. revert H.
    destruct c as [[] [] [] [] [] [] [] []]; discriminate.
Qed.

Lemma search_model_found (content model : string) :
  search_model content = Some model ->
  model <> "" /\ unquoted model = true /\ PyStr.contains "AI_MODEL" content = true.
Proof.
  induction content as [|c s IH]; cbn [search_model].
  - simpl. discriminate.
  - destruct (PyStr.startswith (String c s) "AI_MODEL") eqn:Hs.
    + destruct (match_model_tail _) as [m|] eqn:Hm.
      * intros H. inversion H; subst m.
        destruct (match_model_tail_found _ _ Hm) as [Hne Hu].
        split; [exact Hne|]. split; [exact Hu|]. apply contains_startswith, Hs.
      * intros H. apply IH in H as (Hne & Hu & Hc). split; [exact Hne|].
        split; [exact Hu|]. rewrite contains_cons, Hc. apply orb_true_r.
    + intros H. apply IH in H as (Hne & Hu & Hc). split; [exact Hne|].
      split; [exact Hu|]. rewrite contains_cons, Hc. apply orb_true_r.
Qed.

End ParameterFacts.

(** X13: the parameters [extract_agent_metadata] returns have at most the
    keys [--limit] and [--model], each at most once and in this order.
    A [--limit] is a non-negative integer and is only there when the text
    holds the quoted flag ['--limit']; a [--model] is a non-empty string
    without quote characters and is only there when the text holds
    [AI_MODEL]. *)
Theorem X13_parameters_limit_and_model (script_path content : string) :
  let parameters :=
    seed_agents.parameters (seed_agents.extract_agent_metadata script_path content) in
  sublist (List.map fst parameters) ["--limit"; "--model"]
  /\ (forall v, In ("--limit", v) parameters ->
        exists n, v = Database.PInt n /\ 0 <= n
                  /\ PyStr.contains "'--limit'" content = true)
  /\ (forall v, In ("--model", v) parameters ->
        exists model, v = Database.PStr model /\ model <> "" /\ unquoted model = true
                      /\ PyStr.contains "AI_MODEL" content = true).
Proof.
  cbv zeta. unfold seed_agents.extract_agent_metadata. cbv zeta.
  cbn [seed_agents.parameters].
  set (limit := if PyStr.contains "--limit" content
                then match seed_agents.search_limit content with
                     | Some digits =>
                         [] ++ [("--limit", Database.PInt (PyStr.digits_value 0 digits))]
                     | None => []
                     end
                else []).
  assert (Hlimit : limit = []
                   \/ exists n, limit = [("--limit", Database.PInt n)] /\ 0 <= n
                                 /\ PyStr.contains "'--limit'" content = true).
  { unfold limit. destruct (PyStr.contains "--limit" content); [|left; reflexivity].
    destruct (seed_agents.search_limit content) as [digits|] eqn:Hl; [|left; reflexivity].
    right. destruct (search_limit_found _ _ Hl) as [_ Hc].
    eexists. split; [reflexivity|]. split; [apply digits_value_nonneg; lia|exact Hc]. }
  clearbody limit.
  set (parameters := if PyStr.contains "--model" content then _ else _).
  assert (Hparameters : parameters = limit
                        \/ exists model, parameters = limit ++ [("--model", Database.PStr model)]
                                          /\ model <> "" /\ unquoted model = true
                                          /\ PyStr.contains "AI_MODEL" content = true).
  { unfold parameters. destruct (PyStr.contains "--model" content); [|left; reflexivity].
    destruct (seed_agents.search_model content) as [model|] eqn:Hm; [|left; reflexivity].
    right. exists model. split; [reflexivity|]. apply search_model_found, Hm. }
  clearbody parameters.
  destruct Hlimit as [->|(n & -> & Hn & Hc)];
    destruct Hparameters as [->|(model & -> & Hne & Hu & Hm)]; cbn [app List.map fst].
  - split; [apply sublist_nil_l|]. split; intros v [].
  - split; [apply sublist_cons; reflexivity|]. split; intros v [Hin|[]].
    + discriminate Hin.
    + inversion Hin; subst v. eauto.
  - split; [apply sublist_skip, sublist_nil_l|]. split; intros v [Hin|[]].
    + inversion Hin; subst v. eauto.
    + discriminate Hin.
  - split; [reflexivity|]. split; intros v [Hin|[Hin|[]]].
    + inversion Hin; subst v. eauto.
    + discriminate Hin.
    + discriminate Hin.
    + inversion Hin; subst v. eauto.
Qed.

(** X13 on a script with a limit option: the template has the one key
    [--limit]. *)
Lemma X13_witness :
  In ("--limit", Database.PInt 25)
     (seed_agents.parameters
        (seed_agents.extract_agent_metadata "scripts/dedup_content.py"
           "parser.add_argument('--limit', type=int, default=25)"))
  /\ exists n, Database.PInt 25 = Database.PInt n /\ 0 <= n
               /\ PyStr.contains "'--limit'"
                    "parser.add_argument('--limit', type=int, default=25)" = true.
Proof.
  assert (Hin : In ("--limit", Database.PInt 25)
                   (seed_agents.parameters
                      (seed_agents.extract_agent_metadata "scripts/dedup_content.py"
                         "parser.add_argument('--limit', type=int, default=25)")))
    by (vm_compute; left; reflexivity).
  split; [exact Hin|].
  exact (proj1 (proj2 (X13_parameters_limit_and_model "scripts/dedup_content.py"
                         "parser.add_argument('--limit', type=int, default=25)"))
           (Database.PInt 25) Hin).
Defined.


Section StemFacts.

Local Arguments String.append : simpl nomatch.

Lemma rfind_from_absent (c : ascii) (s : string) : forall i,
  PyStr.contains (String c "") s = false -> PyStr.rfind_from i c s = -1.
Proof.
  induction s as [|d s IH]; intros i; [reflexivity|].
  rewrite contains_cons. intros H. apply orb_false_elim in H as [Hs Hc].
  cbn [PyStr.rfind_from]. rewrite (IH _ Hc). cbn [PyStr.startswith] in Hs.
  replace (0 <=? -1) with false by reflexivity.
  destruct (Ascii.eqb c d); [|reflexivity]. destruct s; discriminate Hs.
Qed.

Lemma rfind_from_lower (c : ascii) (s : string) : forall i,
  PyStr.rfind_from i c s = -1 \/ i <= PyStr.rfind_from i c s.
Proof.
  induction s as [|d s IH]; intros i; [left; reflexivity|].
  cbn [PyStr.rfind_from]. destruct (IH (i + 1)) as [H|H].
  - rewrite H. replace (0 <=? -1) with false by reflexivity.
    destruct (Ascii.eqb c d); [right; lia|left; reflexivity].
  - destruct (0 <=? PyStr.rfind_from (i + 1) c s); [right; lia|].
    destruct (Ascii.eqb c d); [right; lia|left; reflexivity].
Qed.

(** The last separator of a path whose last component has none. *)
Lemma rfind_from_join (c : ascii) (file : string) (dir : string) : forall i,
  0 <= i ->
  PyStr.contains (String c "") file = false ->
  PyStr.rfind_from i c (dir +:+ String c file) = i + Z.of_nat (String.length dir).
Proof.
  induction dir as [|d dir IH]; intros i Hi Hfile.
  - change ("" +:+ String c file) with (String c file). cbn [PyStr.rfind_from].
    rewrite (rfind_from_absent c file _ Hfile).
    replace (0 <=? -1) with false by reflexivity.
    rewrite Ascii.eqb_refl. simpl. lia.
  - change (String d dir +:+ String c file) with (String d (dir +:+ String c file)).
    cbn [PyStr.rfind_from]. rewrite (IH (i + 1)) by (lia || exact Hfile).
    replace (0 <=? i + 1 + Z.of_nat (String.length dir)) with true
      by (symmetry; apply Z.leb_le; lia).
    cbn [String.length]. lia.
Qed.

Lemma drop_append (dir rest : string) :
  PyStr.drop (String.length dir) (dir +:+ rest) = rest.
Proof.
  induction dir as [|d dir IH]; [destruct rest; reflexivity|]. exact IH.
Qed.

(** [Path(dir + '/' + file).stem] is the stem of [file]. *)
Lemma path_stem_join (dir file : string) :
  PyStr.contains "/" file = false ->
  seed_agents.path_stem (dir +:+ "/" +:+ file) = seed_agents.path_stem file.
Proof.
  intros Hfile. unfold seed_agents.path_stem, PyStr.rfind.
  change ("/" +:+ file) with (String "/" file).
  rewrite (rfind_from_join "/" file dir 0) by (lia || exact Hfile).
  rewrite (rfind_from_absent "/" file 0 Hfile).
  replace (Z.to_nat (0 + Z.of_nat (String.length dir) + 1))
    with (String.length (dir +:+ "/")).
  - change (dir +:+ String "/" file) with (dir +:+ "/" +:+ file).
    rewrite <- append_assoc, drop_append.
    change (Z.to_nat (-1 + 1)) with O.
    replace (PyStr.drop 0 file) with file by (destruct file; reflexivity).
    reflexivity.
  - clear. induction dir as [|d dir IH]; [reflexivity|].
    change (String d dir +:+ "/") with (String d (dir +:+ "/")).
    cbn [String.length]. rewrite IH. lia.
Qed.

End StemFacts.


Section DiscoveredTags.

Import seed_agents.

Lemma discover_agents_in read_text project_path a :
  In a (discover_agents read_text project_path) ->
  exists script_name content,
    In script_name agent_scripts
    /\ read_text (project_path +:+ "/scripts/" +:+ script_name) = Some content
    /\ a = let metadata :=
             extract_agent_metadata (project_path +:+ "/scripts/" +:+ script_name)
               content in
           mkAgent (PyStr.replace "_" "-" (PyStr.replace ".py" "" script_name))
             (description metadata) ("scripts/" +:+ script_name) "python"
             (parameters metadata) (tags metadata).
Proof.
  unfold discover_agents. intros H. apply in_flat_map in H as (f & Hf & Ha).
  destruct (read_text _) as [content|] eqn:Hread; [|contradiction].
  destruct Ha as [<-|[]]. exists f, content. auto.
Qed.

Lemma script_stem project_path script_name :
  PyStr.contains "/" script_name = false ->
  path_stem (project_path +:+ "/scripts/" +:+ script_name) = path_stem script_name.
Proof.
  intros H.
  change ("/scripts/" +:+ script_name) with ("/scripts" +:+ "/" +:+ script_name).
  rewrite <- append_assoc. apply path_stem_join, H.
Qed.

(** The tags a file name implies, whatever the text of the file. *)
Lemma tags_of_stem script_path content keyword tag :
  In (keyword, tag)
     [ ("enrich", "enrichment"); ("import", "import"); ("diagnose", "debugging");
       ("health", "monitoring"); ("deploy", "deployment");
       ("maintenance", "orchestration") ] ->
  PyStr.contains keyword (path_stem script_path) = true ->
  In tag (tags (extract_agent_metadata script_path content)).
Proof.
  intros Hin Hk. unfold extract_agent_metadata. cbv zeta. cbn [tags].
  rewrite !append_if_In.
  simpl in Hin.
  repeat (destruct Hin as [Hin|Hin];
          [inversion Hin; subst keyword tag; clear Hin; rewrite Hk; cbn [orb]; tauto|]).
  contradiction.
Qed.

Lemma tags_head script_path content :
  hd_error (tags (extract_agent_metadata script_path content)) = Some "python".
Proof.
  unfold extract_agent_metadata. cbv zeta. cbn [tags].
  rewrite !append_if_head; try reflexivity;
    repeat apply append_if_nonempty; discriminate.
Qed.

End DiscoveredTags.

(** X18: the tags of a discovered agent start with [python], and the file
    name alone gives deploy-preflight the tag [deployment], health-monitor
    [monitoring], diagnose-search [debugging], import-orchestrator
    [import] and maintenance-orchestrator [orchestration], whatever the
    project path and the text of the script. *)
Theorem X18_discovered_agent_tags (read_text : string -> option string)
    (project_path : string) (a : seed_agents.Agent) :
  In a (seed_agents.discover_agents read_text project_path) ->
  hd_error (seed_agents.agent_tags a) = Some "python"
  /\ forall tag, In (seed_agents.name a, tag) name_tags ->
                 In tag (seed_agents.agent_tags a).
Proof.
  intros Hin.
  destruct (discover_agents_in _ _ _ Hin) as (f & content & Hf & _ & ->).
  cbv zeta. cbn [seed_agents.agent_tags seed_agents.name].
  split; [apply tags_head|].
  intros tag Htag. unfold seed_agents.agent_scripts in Hf.
  assert (Hstem : forall keyword,
            In f seed_agents.agent_scripts ->
            In (keyword, tag)
               [ ("enrich", "enrichment"); ("import", "import");
                 ("diagnose", "debugging"); ("health", "monitoring");
                 ("deploy", "deployment"); ("maintenance", "orchestration") ] ->
            PyStr.contains "/" f = false ->
            PyStr.contains keyword (seed_agents.path_stem f) = true ->
            In tag (seed_agents.tags
                      (seed_agents.extract_agent_metadata
                         (project_path +:+ "/scripts/" +:+ f) content))).
  { intros keyword _ Hk Hslash Hc. eapply tags_of_stem; [exact Hk|].
    rewrite script_stem by exact Hslash. exact Hc. }
  unfold name_tags in Htag.
  repeat (destruct Hf as [Hf|Hf];
          [subst f; vm_compute in Htag;
           repeat (destruct Htag as [Htag|Htag];
                   [try discriminate Htag; inversion Htag; subst tag; clear Htag|]);
           try contradiction|]);
    try contradiction.
  - apply (Hstem "deploy"); [vm_compute; tauto|simpl; tauto|reflexivity|reflexivity].
  - apply (Hstem "health"); [vm_compute; tauto|simpl; tauto|reflexivity|reflexivity].
  - apply (Hstem "diagnose"); [vm_compute; tauto|simpl; tauto|reflexivity|reflexivity].
  - apply (Hstem "import"); [vm_compute; tauto|simpl; tauto|reflexivity|reflexivity].
  - apply (Hstem "maintenance"); [vm_compute; tauto|simpl; tauto|reflexivity|reflexivity].
Qed.

(** X18 where only [health_monitor.py] is on disk. *)
Lemma X18_witness :
  exists a,
    In a (seed_agents.discover_agents one_script_fs "/srv/portal")
    /\ seed_agents.name a = "health-monitor"
    /\ In "monitoring" (seed_agents.agent_tags a).
Proof.
  let l := eval vm_compute in (seed_agents.discover_agents one_script_fs "/srv/portal") in
  match l with
  | ?x :: _ =>
      pose (a := x);
      assert (Hin : In a (seed_agents.discover_agents one_script_fs "/srv/portal"))
        by (vm_compute; left; reflexivity);
      exists a; split; [exact Hin|]; split; [reflexivity|];
      apply (proj2 (X18_discovered_agent_tags one_script_fs "/srv/portal" a Hin)
               "monitoring");
      right; left; reflexivity
  end.
Defined.


(** * More on the agent scripts *)

Section HelpFacts.

Import Argparse Agents.

Lemma parse_optional_error p s e :
  parse_optional p s = inl e -> exists matches, e = AmbiguousOption s matches.
Proof.
  unfold parse_optional. destruct s as [|c rest]; [discriminate|].
  destruct (negb (Ascii.eqb c "-")); [discriminate|].
  destruct (lookup_option _ _); [discriminate|].
  destruct rest as [|c' rest']; [discriminate|].
  destruct (match split_equals _ with Some _ => _ | None => _ end); [discriminate|].
  destruct (get_option_tuples p _) as [|t [|t' ts]]; [|discriminate|].
  - destruct (_ && _); [discriminate|]. destruct (PyStr.contains _ _); discriminate.
  - intros H. inversion H. eauto.
Qed.

Lemma classify_error p : forall l e,
  classify p l = inl e -> exists arg matches, In arg l /\ e = AmbiguousOption arg matches.
Proof.
  induction l as [|s l IH]; intros e; cbn [classify]; [discriminate|].
  destruct (String.eqb s "--"); [discriminate|].
  destruct (parse_optional p s) as [e'|o] eqn:Hp.
  - intros H. inversion H; subst e'. destruct (parse_optional_error _ _ _ Hp) as [ms ->].
    exists s, ms. split; [left; reflexivity|reflexivity].
  - destruct (classify p l) as [e'|toks]; [|discriminate].
    intros H. inversion H; subst e'.
    destruct (IH e eq_refl) as (arg & ms & Hin & ->).
    exists arg, ms. split; [right; exact Hin|reflexivity].
Qed.

(** The help action comes first, so its two option strings are found
    whatever options a script declares. *)
Lemma parse_args_help arguments o rest :
  o = "-h" \/ o = "--help" ->
  parse_args (ArgumentParser arguments) (o :: rest)
  = match classify (ArgumentParser arguments) rest with
    | inl e => UsageError e
    | inr _ => HelpExit
    end.
Proof.
  intros [->| ->]; unfold parse_args; cbn [classify];
    (destruct (classify (ArgumentParser arguments) rest) as [e|toks]; reflexivity).
Qed.

Lemma fleet_parsers_start_with_help :
  Forall (fun entry => exists arguments, parser (snd entry) = ArgumentParser arguments)
         fleet.
Proof.
  unfold fleet. repeat (constructor; [eexists; reflexivity|]). constructor.
Qed.

End HelpFacts.


(** X14: in every agent script, [-h] or [--help] as the first argument
    ends the run inside [parse_args]: [main] never gets to its prints,
    whatever follows on the command line.  The run prints the help and
    exits with status 0, unless a later argument is an ambiguous
    abbreviation of option names, which is reported as a usage error
    before the help action is reached. *)
Theorem X14_help_ends_the_run (name : string) (s : Agents.Script)
    (o : string) (rest : list string) :
  In (name, s) Agents.fleet ->
  o = "-h" \/ o = "--help" ->
  Agents.printed_output (Agents.main s (o :: rest)) = []
  /\ (Agents.main s (o :: rest) = Agents.HelpPrinted
      \/ exists arg matches,
           In arg rest
           /\ Agents.main s (o :: rest)
              = Agents.UsageFailure (Argparse.AmbiguousOption arg matches)).
Proof.
  intros Hin Ho.
  destruct (fleet_entry (fun s => exists arguments,
                           Agents.parser s = Argparse.ArgumentParser arguments)
              name s fleet_parsers_start_with_help Hin) as [arguments Hp].
  unfold Agents.main. rewrite Hp, (parse_args_help arguments o rest Ho).
  destruct (Argparse.classify _ rest) as [e|toks] eqn:Hc.
  - split; [reflexivity|]. right.
    destruct (classify_error _ _ _ Hc) as (arg & ms & Harg & ->).
    exists arg, ms. split; [exact Harg|reflexivity].
  - split; [reflexivity|]. left. reflexivity.
Qed.

(** X14 at [qa_tester.py]: the help wins over a model that is no choice. *)
Lemma X14_witness :
  Agents.main (Agents.mkScript Agents.qa_tester.parser Agents.qa_tester.body)
    ["--help"; "--model"; "gpt-3"] = Agents.HelpPrinted.
Proof.
  assert (Hin : In ("qa_tester.py",
                    Agents.mkScript Agents.qa_tester.parser Agents.qa_tester.body)
                   Agents.fleet).
  { unfold Agents.fleet. repeat (first [left; reflexivity | right]). }
  destruct (proj2 (X14_help_ends_the_run _ _ "--help" ["--model"; "gpt-3"] Hin
                     (or_intror eq_refl))) as [H|(arg & ms & _ & H)].
  - exact H.
  - vm_compute in H. discriminate H.
Defined.

Section StoreFacts.

Import Argparse Agents.

Variable p : Parser.
Hypothesis Hplain : plain_option_strings p = true.

Lemma contains_equals_append (o v : string) :
  PyStr.contains "=" (o +:+ "=" +:+ v) = true.
Proof.
  apply contains_append. change ("=" +:+ v) with (String "=" v).
  rewrite contains_cons. cbn [PyStr.startswith]. destruct v; reflexivity.
Qed.

Lemma lookup_option_equals (o v : string) :
  lookup_option (o +:+ "=" +:+ v) (option_string_actions p) = None.
Proof.
  unfold plain_option_strings in Hplain. revert Hplain.
  induction (option_string_actions p) as [|[o' a] m IH]; cbn [forallb lookup_option fst];
    [reflexivity|].
  intros H. apply andb_prop in H as [Ho Hm].
  destruct (String.eqb (o +:+ "=" +:+ v) o') eqn:Heq; [|apply IH, Hm].
  apply String.eqb_eq in Heq. subst o'.
  rewrite contains_equals_append in Ho. discriminate Ho.
Qed.

Lemma partition_equals (o v : string) :
  PyStr.contains "=" o = false ->
  PyStr.partition "=" (o +:+ "=" +:+ v) = Some (o, v).
Proof.
  induction o as [|c o IH].
  - intros _. change ("" +:+ "=" +:+ v) with (String "=" v).
    cbn [PyStr.partition PyStr.startswith]. destruct v; reflexivity.
  - rewrite contains_cons. intros H. apply orb_false_elim in H as [Hs Hc].
    change (String c o +:+ "=" +:+ v) with (String c (o +:+ "=" +:+ v)).
    cbn [PyStr.partition].
    assert (Hs' : PyStr.startswith (String c (o +:+ "=" +:+ v)) "=" = false).
    { cbn [PyStr.startswith] in *. destruct (Ascii.eqb "=" c); [|reflexivity].
      destruct o; discriminate Hs. }
    rewrite Hs', (IH Hc). reflexivity.
Qed.

Lemma lookup_option_plain (o : string) (a : Argument) :
  lookup_option o (option_string_actions p) = Some a -> PyStr.contains "=" o = false.
Proof.
  unfold plain_option_strings in Hplain. revert Hplain.
  induction (option_string_actions p) as [|[o' a'] m IH]; cbn [forallb lookup_option fst];
    [discriminate|].
  intros H. apply andb_prop in H as [Ho Hm].
  destruct (String.eqb o o') eqn:Heq; [|apply IH, Hm].
  apply String.eqb_eq in Heq. subst o'. intros _.
  apply negb_true_iff in Ho. exact Ho.
Qed.

Lemma cluster_takes_argument (a : Argument) (o e : string) :
  takes_argument a = true -> cluster p a o e = inr ([], (a, o, Some e)).
Proof. intros Ha. destruct e; cbn [cluster]; rewrite Ha; reflexivity. Qed.

Lemma take_store (a : Argument) (o v : string) (ns : gmap string Value) :
  takes_argument a = true ->
  match take_actions ns [(a, [v], o)] with
  | Continue ns' => consume p [] ns' []
  | Stop out => out
  end = stored a o v ns.
Proof.
  unfold takes_argument, stored. intros Ha. cbn [take_actions take_action].
  destruct (action a); try discriminate Ha.
  destruct (get_value a o v); reflexivity.
Qed.

Lemma explicit_not_dashes (o v : string) :
  String.eqb (o +:+ "=" +:+ v) "--" = false.
Proof.
  apply String.eqb_neq. intros Heq.
  pose proof (contains_equals_append o v) as Hc. rewrite Heq in Hc. discriminate Hc.
Qed.

Lemma parse_optional_explicit (o v : string) (a : Argument) c0 c1 rest :
  o = String c0 (String c1 rest) -> c0 = "-"%char ->
  lookup_option o (option_string_actions p) = Some a ->
  parse_optional p (o +:+ "=" +:+ v) = inr (Some (Some a, o, Some v)).
Proof.
  intros Ho Hc0 Hlook. unfold parse_optional. rewrite lookup_option_equals.
  unfold split_equals. rewrite (partition_equals o v (lookup_option_plain o a Hlook)).
  rewrite Hlook. subst o c0. reflexivity.
Qed.

(** One [--option=value] in the loop of [consume]. *)
Lemma consume_explicit (s o v : string) (a : Argument) toks ns ex :
  takes_argument a = true ->
  consume p ((s, POpt (Some a, o, Some v)) :: toks) ns ex
  = match get_value a o v with
    | inl e => UsageError e
    | inr x => consume p toks (<[dest a := x]> ns) ex
    end.
Proof.
  intros Ha. cbn [consume option_plan].
  rewrite (cluster_takes_argument a o v Ha). cbn [app take_actions take_action].
  unfold takes_argument in Ha. destruct (action a); try discriminate Ha.
  destruct (get_value a o v); reflexivity.
Qed.

(** [--option=value] *)
Lemma parse_args_explicit (o v : string) (a : Argument) c0 c1 rest :
  o = String c0 (String c1 rest) -> c0 = "-"%char ->
  lookup_option o (option_string_actions p) = Some a ->
  takes_argument a = true ->
  parse_args p [o +:+ "=" +:+ v] = stored a o v (initial_namespace p).
Proof.
  intros Ho Hc0 Hlook Ha. unfold parse_args. cbn [classify].
  rewrite explicit_not_dashes, (parse_optional_explicit o v a c0 c1 rest Ho Hc0 Hlook).
  rewrite (consume_explicit _ o v a [] _ [] Ha). unfold stored.
  destruct (get_value a o v); reflexivity.
Qed.

(** [--option value] with a value that does not look like an option. *)
Lemma parse_args_separate (o v : string) (a : Argument) :
  String.eqb o "--" = false ->
  parse_optional p o = inr (Some (Some a, o, None)) ->
  takes_argument a = true ->
  PyStr.startswith v "-" = false ->
  parse_args p [o; v] = stored a o v (initial_namespace p).
Proof.
  intros Hdash Hopt Ha Hv. unfold parse_args. cbn [classify].
  rewrite Hdash, Hopt.
  assert (Hvd : String.eqb v "--" = false).
  { destruct (String.eqb v "--") eqn:Heq; [|reflexivity].
    apply String.eqb_eq in Heq. subst v. vm_compute in Hv. discriminate Hv. }
  assert (Hvo : parse_optional p v = inr None).
  { unfold parse_optional. destruct v as [|c v]; [reflexivity|].
    cbn [PyStr.startswith] in Hv. rewrite Ascii.eqb_sym.
    destruct (Ascii.eqb "-" c); [|reflexivity].
    destruct v; vm_compute in Hv; discriminate Hv. }
  rewrite Hvd, Hvo. cbn [consume option_plan]. rewrite Ha. apply take_store, Ha.
Qed.

End StoreFacts.


Section FleetOptions.

Import Argparse Agents.

Lemma parse_optional_declared p o a c rest :
  o = String c rest -> c = "-"%char ->
  lookup_option o (option_string_actions p) = Some a ->
  parse_optional p o = inr (Some (Some a, o, None)).
Proof.
  intros -> -> Hlook. unfold parse_optional. rewrite Hlook. reflexivity.
Qed.

Ltac declared :=
  split; [vm_compute; reflexivity
         |eexists; split; [vm_compute; reflexivity|split; reflexivity]].

Lemma fleet_declares_model :
  Forall (fun entry => declares_store (snd entry) "--model" "model" TStr
                         (Some model_choices)) fleet.
Proof.
  unfold fleet. repeat (apply List.Forall_cons; [declared|]). apply List.Forall_nil.
Qed.

Lemma int_options_declared file o d s :
  In (file, o, d) int_options -> In (file, s) fleet ->
  declares_store s o d TInt None
  /\ exists c rest, o = String "-" (String "-" (String c rest)).
Proof.
  unfold int_options, fleet. intros Ho Hs.
  repeat (destruct Ho as [Ho|Ho]; [inversion Ho; subst file o d; clear Ho|]);
    try contradiction;
    repeat (destruct Hs as [Hs|Hs]; [try discriminate Hs; inversion Hs; subst s; clear Hs|]);
    try contradiction;
    (split; [declared|eexists; eexists; reflexivity]).
Qed.

End FleetOptions.






Section GeneralFlags.

Import Argparse Agents.

Variable s : Script.
Hypothesis Hdecl : general_flags_declared s = true.
Hypothesis Hbody : body_ignores_dry_run s.

(** The namespace a list of general flags leaves. *)
Lemma general_flags_namespace argv :
  Forall general_flag argv ->
  forall ns, exists ns',
    (forall toks, classify (parser s) argv = inr toks -> 
                  consume (parser s) toks ns [] = Parsed ns')
    /\ (exists toks, classify (parser s) argv = inr toks)
    /\ agree_off_dry_run ns'
         (if existsb verbose_flag argv then <["verbose" := VBool true]> ns else ns).
Proof.
  unfold general_flags_declared in Hdecl.
  apply andb_prop in Hdecl as [Hd Hverbose]. apply andb_prop in Hd as [Hdry Hv].
  induction 1 as [|f argv Hf _ IH]; intros ns.
  - exists ns. split; [|split].
    + intros toks H. inversion H. reflexivity.
    + exists []. reflexivity.
    + apply agree_refl.
  - assert (Hflag : exists d, store_true_flag (parser s) f d = true
                              /\ d = general_flag_dest f).
    { destruct Hf as [->|[->| ->]]; eexists; split; eauto. }
    destruct Hflag as (d & Hst & Hd).
    destruct (store_true_flag_spec (parser s) f d Hst) as (a & Hdash & Hopt & Ha & Hdest).
    destruct (IH (<[dest a := VBool true]> ns)) as (ns' & Hrun & (toks & Hc) & Hagree).
    exists ns'. split; [|split].
    + intros toks' H. cbn [classify] in H. rewrite Hdash, Hopt, Hc in H.
      inversion H; subst toks'. rewrite consume_store_true by exact Ha.
      apply Hrun, Hc.
    + eexists. cbn [classify]. rewrite Hdash, Hopt, Hc. reflexivity.
    + subst d. intros k Hk. rewrite (Hagree k Hk). clear Hagree. rewrite Hdest.
      cbn [existsb].
      destruct Hf as [->|[->| ->]];
        [ change (verbose_flag "--dry-run") with false;
          change (general_flag_dest "--dry-run") with "dry_run"
        | change (verbose_flag "-v") with true;
          change (general_flag_dest "-v") with "verbose"
        | change (verbose_flag "--verbose") with true;
          change (general_flag_dest "--verbose") with "verbose" ];
        cbn [orb]; destruct (existsb verbose_flag argv);
        (destruct (decide (k = "verbose")) as [->|Hne];
         repeat (rewrite lookup_insert_eq || (rewrite lookup_insert_ne by congruence));
         reflexivity).
Qed.

Lemma main_general_flags argv :
  Forall general_flag argv ->
  main s argv = main s (if existsb verbose_flag argv then ["-v"] else []).
Proof.
  intros Hflags.
  destruct (general_flags_namespace argv Hflags (initial_namespace (parser s)))
    as (ns' & Hrun & (toks & Hc) & Hagree).
  assert (Hshort : Forall general_flag
                     (if existsb verbose_flag argv then ["-v"] else [])).
  { destruct (existsb verbose_flag argv); [|constructor].
    constructor; [right; left; reflexivity|constructor]. }
  destruct (general_flags_namespace _ Hshort (initial_namespace (parser s)))
    as (ns2 & Hrun2 & (toks2 & Hc2) & Hagree2).
  unfold main, parse_args. rewrite Hc, Hc2, (Hrun _ Hc), (Hrun2 _ Hc2).
  f_equal. apply Hbody. intros k Hk. rewrite (Hagree k Hk), (Hagree2 k Hk).
  destruct (existsb verbose_flag argv); [|reflexivity].
  change (existsb verbose_flag ["-v"]) with true. cbv iota.
  destruct (decide (k = "verbose")) as [->|Hne];
    repeat (rewrite lookup_insert_eq || (rewrite lookup_insert_ne by congruence));
    reflexivity.
Qed.

End GeneralFlags.

(** X17: for every agent script, a command line made only of the general
    flags [--dry-run], [-v] and [--verbose] runs exactly like the single
    flag [-v] when one of the two verbose spellings is in it, and exactly
    like the empty command line otherwise: repeating a flag, the order of
    the flags and the spelling of the verbose flag make no difference to
    the lines printed or to the exit status. *)
Theorem X17_general_flags_normal_form (name : string) (s : Agents.Script)
    (argv : list string) :
  In (name, s) Agents.fleet ->
  Forall general_flag argv ->
  Agents.main s argv
  = Agents.main s (if existsb verbose_flag argv then ["-v"] else []).
Proof.
  intros Hin Hflags.
  apply main_general_flags; [| |exact Hflags].
  - exact (fleet_entry (fun s => general_flags_declared s = true) name s
             fleet_general_flags Hin).
  - exact (fleet_entry body_ignores_dry_run name s fleet_bodies_ignore_dry_run Hin).
Qed.

(** X17 at [technical_writer.py]. *)
Lemma X17_witness :
  Agents.main
    (Agents.mkScript Agents.technical_writer.parser Agents.technical_writer.body)
    ["--verbose"; "--dry-run"; "-v"; "--verbose"]
  = Agents.main
      (Agents.mkScript Agents.technical_writer.parser Agents.technical_writer.body)
      ["-v"].
Proof.
  assert (Hin : In ("technical_writer.py",
                    Agents.mkScript Agents.technical_writer.parser
                      Agents.technical_writer.body) Agents.fleet).
  { unfold Agents.fleet. repeat (first [left; reflexivity | right]). }
  assert (Hfl : Forall general_flag ["--verbose"; "--dry-run"; "-v"; "--verbose"]).
  { unfold general_flag. repeat (apply List.Forall_cons; [tauto|]). apply List.Forall_nil. }
  exact (X17_general_flags_normal_form _ _ _ Hin Hfl).
Defined.


(** * The command line of the discovery seed *)

Section MainFacts.

Import Argparse.

Lemma main_parser_plain : plain_option_strings seed_agents.main_parser = true.
Proof. reflexivity. Qed.

(** The attributes after the three options were given with [=]. *)
Lemma main_parser_explicit (n p g : string) :
  parse_args seed_agents.main_parser
    ["--project-name=" +:+ n; "--project-path=" +:+ p; "--github-repo=" +:+ g]
  = Parsed (<["github_repo" := VStr g]>
              (<["project_path" := VStr p]>
                 (<["project_name" := VStr n]>
                    (initial_namespace seed_agents.main_parser)))).
Proof.
  unfold parse_args. cbn [classify].
  change ("--project-name=" +:+ n) with ("--project-name" +:+ "=" +:+ n).
  change ("--project-path=" +:+ p) with ("--project-path" +:+ "=" +:+ p).
  change ("--github-repo=" +:+ g) with ("--github-repo" +:+ "=" +:+ g).
  rewrite !explicit_not_dashes.
  erewrite !(parse_optional_explicit seed_agents.main_parser main_parser_plain)
    by (reflexivity || (vm_compute; reflexivity)).
  rewrite consume_explicit by reflexivity.
  change (get_value _ "--project-name" n) with (inr (VStr n) : ArgError + Value).
  cbv iota.
  rewrite consume_explicit by reflexivity.
  change (get_value _ "--project-path" p) with (inr (VStr p) : ArgError + Value).
  cbv iota.
  rewrite consume_explicit by reflexivity.
  change (get_value _ "--github-repo" g) with (inr (VStr g) : ArgError + Value).
  cbv iota.
  reflexivity.
Qed.

(** The attributes after the name and the path were given. *)
Lemma main_parser_explicit2 (n p : string) :
  parse_args seed_agents.main_parser
    ["--project-name=" +:+ n; "--project-path=" +:+ p]
  = Parsed (<["project_path" := VStr p]>
              (<["project_name" := VStr n]>
                 (initial_namespace seed_agents.main_parser))).
Proof.
  unfold parse_args. cbn [classify].
  change ("--project-name=" +:+ n) with ("--project-name" +:+ "=" +:+ n).
  change ("--project-path=" +:+ p) with ("--project-path" +:+ "=" +:+ p).
  rewrite !explicit_not_dashes.
  erewrite !(parse_optional_explicit seed_agents.main_parser main_parser_plain)
    by (reflexivity || (vm_compute; reflexivity)).
  rewrite consume_explicit by reflexivity.
  change (get_value _ "--project-name" n) with (inr (VStr n) : ArgError + Value).
  cbv iota.
  rewrite consume_explicit by reflexivity.
  change (get_value _ "--project-path" p) with (inr (VStr p) : ArgError + Value).
  cbv iota.
  reflexivity.
Qed.

End MainFacts.



